(** * Bond-style regression harness: fixture reader, comparison protocol, writer

    A shallow embedding of [unittest/force-styles/bond-style.cpp].  C++
    [double] is IEEE binary64 with round to nearest even, embedded as
    Rocq's primitive [float]; [int] is a 32-bit two's complement integer
    carried in [Z]; [std::string] is [string]; [std::vector] is [list].
    Reads and writes the C++ leaves undefined (a store outside a vector, a
    local read before it is assigned) are made explicit: the first as a
    fault, the second as a value supplied from outside. *)

From Stdlib Require Import ZArith List String Ascii Bool Lia Floats.
Import ListNotations.

Local Open Scope Z_scope.
Set Warnings "-inexact-float".

(** ** Machine integers *)

Definition INT_MAX : Z := 2147483647.
Definition INT_MIN : Z := -2147483648.

(** Reduction of a mathematical integer to the 32-bit [int] that holds it. *)
Definition wrap32 (z : Z) : Z := (z + 2^31) mod 2^32 - 2^31.

(** ** Doubles *)

Definition double := float.

(** Conversion of an [int] to [double] (exact for every 32-bit value). *)
Definition int_to_double (z : Z) : double :=
  if z <? 0 then PrimFloat.opp (PrimFloat.of_uint63 (Uint63.of_Z (- z)))
  else PrimFloat.of_uint63 (Uint63.of_Z z).

(** [std::min(a, b)] is [(b < a) ? b : a]. *)
Definition std_min (a b : double) : double :=
  if PrimFloat.ltb b a then b else a.

Definition fabs (x : double) : double := PrimFloat.abs x.

(** ** Value types *)

Record coord_t := mk_coord { x : double; y : double; z : double }.

Record stress_t := mk_stress {
  xx : double; yy : double; zz : double;
  xy : double; xz : double; yz : double }.

(** Value-initialised [coord_t], what [std::vector::resize] fills in. *)
Definition coord_zero : coord_t := mk_coord 0%float 0%float 0%float.

(** The aggregate [{0,0,0,0,0,0}]. *)
Definition stress_zero : stress_t :=
  mk_stress 0%float 0%float 0%float 0%float 0%float 0%float.

(** ** ErrorStats *)

Module ErrorStats.

Record t := mk {
  sum : double; sumsq : double; maxerr : double;
  num : Z; maxidx : Z }.

Definition reset : t :=
  {| sum := 0%float; sumsq := 0%float; maxerr := 0%float;
     num := 0; maxidx := -1 |}.

(** [add(val)].  [++num] on an [int]: the count is kept in 32 bits (C++
    leaves the overflow undefined). *)
Definition add (val : double) (s : t) : t :=
  let num' := wrap32 (num s + 1) in
  let hit := PrimFloat.ltb (maxerr s) val in
  {| sum := PrimFloat.add (sum s) val;
     sumsq := PrimFloat.add (sumsq s) (PrimFloat.mul val val);
     maxerr := if hit then val else maxerr s;
     num := num';
     maxidx := if hit then num' else maxidx s |}.

Definition avg (s : t) : double :=
  if 0 <? num s then PrimFloat.div (sum s) (int_to_double (num s))
  else 0%float.

Definition dev (s : t) : double :=
  if 0 <? num s then
    let n := int_to_double (num s) in
    PrimFloat.sqrt
      (PrimFloat.sub (PrimFloat.div (sumsq s) n)
         (PrimFloat.div (PrimFloat.mul (PrimFloat.div (sum s) n) (sum s)) n))
  else 0%float.

Definition max (s : t) : double := maxerr s.
Definition idx (s : t) : double := int_to_double (maxidx s).

(** [reset()] followed by one [add] per sample, in order. *)
Definition add_all (vs : list double) : t :=
  fold_left (fun s v => add v s) vs reset.

End ErrorStats.

(** ** EXPECT_FP_LE_WITH_EPS *)

(** The [err] the macro computes from [val1] and [val2]. *)
Definition relative_error (val1 val2 : double) : double :=
  let diff := fabs (PrimFloat.sub val1 val2) in
  let div := std_min (fabs val1) (fabs val2) in
  if PrimFloat.eqb div 0%float then diff else PrimFloat.div diff div.

(** ** std::string and <cctype> *)

Definition npos : option nat := None.

Definition isspace (c : ascii) : bool :=
  let n := nat_of_ascii c in
  Nat.eqb n 32 || (Nat.leb 9 n && Nat.leb n 13).

Definition isdigit (c : ascii) : bool :=
  let n := nat_of_ascii c in Nat.leb 48 n && Nat.leb n 57.

Definition tolower (c : ascii) : ascii :=
  let n := nat_of_ascii c in
  if Nat.leb 65 n && Nat.leb n 90 then ascii_of_nat (n + 32) else c.

Fixpoint mem_char (c : ascii) (set : string) : bool :=
  match set with
  | EmptyString => false
  | String d r => Ascii.eqb c d || mem_char c r
  end.

(** The suffix of [s] that starts at position [p] (empty when [p] is past
    the end). *)
Fixpoint drop (p : nat) (s : string) : string :=
  match p, s with
  | O, _ => s
  | S p', String _ r => drop p' r
  | S _, EmptyString => EmptyString
  end.

(** Index of the first character of [s] for which [want] holds. *)
Fixpoint find_char (want : ascii -> bool) (s : string) : option nat :=
  match s with
  | EmptyString => None
  | String c r => if want c then Some O else option_map S (find_char want r)
  end.

(** [s.find_first_of(set, pos)]; [pos = npos] or past the end gives [npos]. *)
Definition find_first_of (s set : string) (pos : option nat) : option nat :=
  match pos with
  | None => None
  | Some p => option_map (Nat.add p) (find_char (fun c => mem_char c set) (drop p s))
  end.

(** [s.find_first_not_of(set, pos)]. *)
Definition find_first_not_of (s set : string) (pos : option nat) : option nat :=
  match pos with
  | None => None
  | Some p =>
      option_map (Nat.add p) (find_char (fun c => negb (mem_char c set)) (drop p s))
  end.

(** [s.substr(pos, n)] for [pos <= s.size()]; [n = npos] or a count that
    runs past the end takes the rest of the string. *)
Definition substr (s : string) (pos : nat) (n : option nat) : string :=
  match n with
  | None => drop pos s
  | Some k => substring pos k s
  end.

(** [s.find(needle)], from position 0. *)
Fixpoint str_find (needle s : string) : option nat :=
  if prefix needle s then Some O
  else match s with
       | EmptyString => None
       | String _ r => option_map S (str_find needle r)
       end.

(** The lines that [while (std::getline(data, line, '\n'))] hands to its
    body: a final line without newline is delivered, an empty remainder is
    not. *)
Fixpoint getlines (s : string) : list string :=
  match s with
  | EmptyString => []
  | String c r =>
      if Ascii.eqb c "010"%char then EmptyString :: getlines r
      else match getlines r with
           | [] => [String c EmptyString]
           | l :: ls => String c l :: ls
           end
  end.

(** ** <cstdlib>, <cstdio>: text to number *)

Fixpoint skip_space (s : string) : string :=
  match s with
  | String c r => if isspace c then skip_space r else s
  | EmptyString => EmptyString
  end.

(** Longest prefix of decimal digits, and what follows it. *)
Fixpoint take_digits (s : string) : string * string :=
  match s with
  | String c r =>
      if isdigit c then let (d, rest) := take_digits r in (String c d, rest)
      else (EmptyString, s)
  | EmptyString => (EmptyString, EmptyString)
  end.

Fixpoint decimal_value (acc : Z) (d : string) : Z :=
  match d with
  | EmptyString => acc
  | String c r => decimal_value (10 * acc + (Z.of_nat (nat_of_ascii c) - 48)) r
  end.

(** Optional sign: [true] for a leading minus. *)
Definition take_sign (s : string) : bool * string :=
  match s with
  | String "-"%char r => (true, r)
  | String "+"%char r => (false, r)
  | _ => (false, s)
  end.

(** The subject sequence of [strtol(s, &end, 10)]: value and rest, or [None]
    when no conversion can be made. *)
Definition scan_integer (s : string) : option (Z * string) :=
  let (neg, s1) := take_sign (skip_space s) in
  let (d, rest) := take_digits s1 in
  match d with
  | EmptyString => None
  | _ => let v := decimal_value 0 d in Some (if neg then - v else v, rest)
  end.

(** What glibc stores for an [int] conversion on LP64: [strtol] saturates to
    [long], the cast to [int] keeps the low 32 bits.  (ISO C leaves a value
    that does not fit undefined.) *)
Definition to_int (v : Z) : Z :=
  wrap32 (Z.max (- 2^63) (Z.min (2^63 - 1) v)).

Definition atoi (s : string) : Z :=
  match scan_integer s with
  | Some (v, _) => to_int v
  | None => 0
  end.

(** The binary64 nearest to [num / den] (ties to even), for positive [num]
    and [den]: a quotient of more than 64 bits with a sticky last bit is
    handed to the reference rounding of [SpecFloat]. *)
Definition round_ratio (num den : Z) : double :=
  let s := 70 - (Z.log2 num - Z.log2 den) in
  let a := if 0 <=? s then num * 2 ^ s else num in
  let b := if 0 <=? s then den else den * 2 ^ (- s) in
  let m := 2 * (a / b) + (if a mod b =? 0 then 0 else 1) in
  SF2Prim (binary_normalize prec emax m (- s - 1) false).

(** The binary64 nearest to [d * 10^e], for [d >= 0].  Magnitudes that are
    certainly above the largest double or below half the smallest one are
    answered without computing the power. *)
Definition decimal_to_double (d e : Z) : double :=
  if d =? 0 then 0%float
  else if 1025 <=? Z.log2 d + 3 * e then infinity
  else if Z.log2 d + 1 + 3 * e <=? - 1076 then 0%float
  else if 0 <=? e then round_ratio (d * 10 ^ e) 1
  else round_ratio d (10 ^ (- e)).

(** Case-insensitive test that [s] starts with the lower-case word [w];
    gives the rest of [s]. *)
Fixpoint take_word (w s : string) : option string :=
  match w, s with
  | EmptyString, _ => Some s
  | String a w', String c s' =>
      if Ascii.eqb a (tolower c) then take_word w' s' else None
  | String _ _, EmptyString => None
  end.

(** Exponent part [e[+-]digits]: its value and the rest, or [(0, s)] when
    [s] does not start with a complete exponent. *)
Definition take_exponent (s : string) : Z * string :=
  match s with
  | String c r =>
      if Ascii.eqb (tolower c) "e"%char then
        let (neg, r1) := take_sign r in
        let (d, rest) := take_digits r1 in
        match d with
        | EmptyString => (0, s)
        | _ => let v := decimal_value 0 d in (if neg then - v else v, rest)
        end
      else (0, s)
  | EmptyString => (0, s)
  end.

(** The subject sequence of [strtod(s, &end)]: decimal forms, [inf],
    [infinity] and [nan].  Hexadecimal forms and [nan(...)] are left out. *)
Definition scan_double (s : string) : option (double * string) :=
  let (neg, s1) := take_sign (skip_space s) in
  let sgn := fun v : double => if neg then PrimFloat.opp v else v in
  match take_word "infinity"%string s1 with
  | Some rest => Some (sgn infinity, rest)
  | None =>
  match take_word "inf"%string s1 with
  | Some rest => Some (sgn infinity, rest)
  | None =>
  match take_word "nan"%string s1 with
  | Some rest => Some (nan, rest)
  | None =>
      let (ip, s2) := take_digits s1 in
      let (fp, s3) :=
        match s2 with
        | String "."%char r => take_digits r
        | _ => (EmptyString, s2)
        end in
      match (ip ++ fp)%string with
      | EmptyString => None
      | digits =>
          let (ex, rest) := take_exponent s3 in
          Some (sgn (decimal_to_double (decimal_value 0 digits)
                       (ex - Z.of_nat (String.length fp))), rest)
      end
  end end end.

Definition atof (s : string) : double :=
  match scan_double s with
  | Some (v, _) => v
  | None => 0%float
  end.

(** ** TestConfig *)

Module TestConfig.

Record t := mk {
  lammps_version : string;
  date_generated : string;
  epsilon : double;
  prerequisites : list (string * string);
  pre_commands : list string;
  post_commands : list string;
  input_file : string;
  bond_style : string;
  bond_coeff : list string;
  natoms : Z;
  init_energy : double;
  run_energy : double;
  init_stress : stress_t;
  run_stress : stress_t;
  init_forces : list coord_t;
  run_forces : list coord_t }.

(** The constructor [TestConfig()]. *)
Definition default : t :=
  {| lammps_version := ""; date_generated := "";
     epsilon := 1.0e-14%float;
     prerequisites := []; pre_commands := []; post_commands := [];
     input_file := ""; bond_style := "zero"; bond_coeff := [];
     natoms := 0; init_energy := 0%float; run_energy := 0%float;
     init_stress := stress_zero; run_stress := stress_zero;
     init_forces := []; run_forces := [] |}.

(** Assignment to one member. *)
Definition set_lammps_version v c :=
  mk v (date_generated c) (epsilon c) (prerequisites c) (pre_commands c)
    (post_commands c) (input_file c) (bond_style c) (bond_coeff c) (natoms c)
    (init_energy c) (run_energy c) (init_stress c) (run_stress c)
    (init_forces c) (run_forces c).
Definition set_date_generated v c :=
  mk (lammps_version c) v (epsilon c) (prerequisites c) (pre_commands c)
    (post_commands c) (input_file c) (bond_style c) (bond_coeff c) (natoms c)
    (init_energy c) (run_energy c) (init_stress c) (run_stress c)
    (init_forces c) (run_forces c).
Definition set_epsilon v c :=
  mk (lammps_version c) (date_generated c) v (prerequisites c) (pre_commands c)
    (post_commands c) (input_file c) (bond_style c) (bond_coeff c) (natoms c)
    (init_energy c) (run_energy c) (init_stress c) (run_stress c)
    (init_forces c) (run_forces c).
Definition set_prerequisites v c :=
  mk (lammps_version c) (date_generated c) (epsilon c) v (pre_commands c)
    (post_commands c) (input_file c) (bond_style c) (bond_coeff c) (natoms c)
    (init_energy c) (run_energy c) (init_stress c) (run_stress c)
    (init_forces c) (run_forces c).
Definition set_pre_commands v c :=
  mk (lammps_version c) (date_generated c) (epsilon c) (prerequisites c) v
    (post_commands c) (input_file c) (bond_style c) (bond_coeff c) (natoms c)
    (init_energy c) (run_energy c) (init_stress c) (run_stress c)
    (init_forces c) (run_forces c).
Definition set_post_commands v c :=
  mk (lammps_version c) (date_generated c) (epsilon c) (prerequisites c)
    (pre_commands c) v (input_file c) (bond_style c) (bond_coeff c) (natoms c)
    (init_energy c) (run_energy c) (init_stress c) (run_stress c)
    (init_forces c) (run_forces c).
Definition set_input_file v c :=
  mk (lammps_version c) (date_generated c) (epsilon c) (prerequisites c)
    (pre_commands c) (post_commands c) v (bond_style c) (bond_coeff c) (natoms c)
    (init_energy c) (run_energy c) (init_stress c) (run_stress c)
    (init_forces c) (run_forces c).
Definition set_bond_style v c :=
  mk (lammps_version c) (date_generated c) (epsilon c) (prerequisites c)
    (pre_commands c) (post_commands c) (input_file c) v (bond_coeff c) (natoms c)
    (init_energy c) (run_energy c) (init_stress c) (run_stress c)
    (init_forces c) (run_forces c).
Definition set_bond_coeff v c :=
  mk (lammps_version c) (date_generated c) (epsilon c) (prerequisites c)
    (pre_commands c) (post_commands c) (input_file c) (bond_style c) v (natoms c)
    (init_energy c) (run_energy c) (init_stress c) (run_stress c)
    (init_forces c) (run_forces c).
Definition set_natoms v c :=
  mk (lammps_version c) (date_generated c) (epsilon c) (prerequisites c)
    (pre_commands c) (post_commands c) (input_file c) (bond_style c)
    (bond_coeff c) v (init_energy c) (run_energy c) (init_stress c)
    (run_stress c) (init_forces c) (run_forces c).
Definition set_init_energy v c :=
  mk (lammps_version c) (date_generated c) (epsilon c) (prerequisites c)
    (pre_commands c) (post_commands c) (input_file c) (bond_style c)
    (bond_coeff c) (natoms c) v (run_energy c) (init_stress c)
    (run_stress c) (init_forces c) (run_forces c).
Definition set_run_energy v c :=
  mk (lammps_version c) (date_generated c) (epsilon c) (prerequisites c)
    (pre_commands c) (post_commands c) (input_file c) (bond_style c)
    (bond_coeff c) (natoms c) (init_energy c) v (init_stress c)
    (run_stress c) (init_forces c) (run_forces c).
Definition set_init_stress v c :=
  mk (lammps_version c) (date_generated c) (epsilon c) (prerequisites c)
    (pre_commands c) (post_commands c) (input_file c) (bond_style c)
    (bond_coeff c) (natoms c) (init_energy c) (run_energy c) v
    (run_stress c) (init_forces c) (run_forces c).
Definition set_run_stress v c :=
  mk (lammps_version c) (date_generated c) (epsilon c) (prerequisites c)
    (pre_commands c) (post_commands c) (input_file c) (bond_style c)
    (bond_coeff c) (natoms c) (init_energy c) (run_energy c) (init_stress c)
    v (init_forces c) (run_forces c).
Definition set_init_forces v c :=
  mk (lammps_version c) (date_generated c) (epsilon c) (prerequisites c)
    (pre_commands c) (post_commands c) (input_file c) (bond_style c)
    (bond_coeff c) (natoms c) (init_energy c) (run_energy c) (init_stress c)
    (run_stress c) v (run_forces c).
Definition set_run_forces v c :=
  mk (lammps_version c) (date_generated c) (epsilon c) (prerequisites c)
    (pre_commands c) (post_commands c) (input_file c) (bond_style c)
    (bond_coeff c) (natoms c) (init_energy c) (run_energy c) (init_stress c)
    (run_stress c) (init_forces c) v.

End TestConfig.

(** ** Objects, references and faults *)

(** The [TestConfig] objects of a run: the global [test_config], and one
    further instance a reader may be bound to instead. *)
Record memory := mk_memory {
  test_config : TestConfig.t;
  other_config : TestConfig.t }.

(** A [TestConfig &]. *)
Inductive config_ref := ref_test_config | ref_other_config.

Definition load (r : config_ref) (m : memory) : TestConfig.t :=
  match r with
  | ref_test_config => test_config m
  | ref_other_config => other_config m
  end.

(** Apply the member update [f] to the object [r] refers to. *)
Definition update (r : config_ref) (f : TestConfig.t -> TestConfig.t)
    (m : memory) : memory :=
  match r with
  | ref_test_config => mk_memory (f (test_config m)) (other_config m)
  | ref_other_config => mk_memory (test_config m) (f (other_config m))
  end.

(** Where the C++ has no defined result: an unchecked [operator[]] outside
    the vector, a [resize] to a negative count (converted to a [size_t]
    beyond [max_size()], so [std::length_error]), an [int] overflow. *)
Inductive fault := OutOfBounds | LengthError | IntOverflow.

Inductive result (A : Type) := Ok (a : A) | Fault (f : fault).
Arguments Ok {A} a.
Arguments Fault {A} f.

Definition bind {A B} (r : result A) (k : A -> result B) : result B :=
  match r with
  | Ok a => k a
  | Fault f => Fault f
  end.

Notation "x <- r ;; k" := (bind r (fun x => k))
  (at level 61, r at next level, right associativity).

(** [v[i] = a] on a [std::vector] held as a list. *)
Fixpoint list_set {A} (l : list A) (i : nat) (a : A) : list A :=
  match l, i with
  | [], _ => []
  | _ :: t, O => a :: t
  | h :: t, S i' => h :: list_set t i' a
  end.

Definition vector_store {A} (v : list A) (i : Z) (a : A) : result (list A) :=
  if (0 <=? i) && (i <? Z.of_nat (List.length v))
  then Ok (list_set v (Z.to_nat i) a)
  else Fault OutOfBounds.

Definition vector_at {A} (v : list A) (i : Z) : result A :=
  if 0 <=? i then
    match nth_error v (Z.to_nat i) with
    | Some a => Ok a
    | None => Fault OutOfBounds
    end
  else Fault OutOfBounds.

(** [v.clear(); v.resize(n)] for an [int] expression [n = natoms + 1]:
    [n] value-initialised elements. *)
Definition vector_resize (natoms : Z) : result (list coord_t) :=
  if INT_MAX <=? natoms then Fault IntOverflow
  else if natoms + 1 <? 0 then Fault LengthError
  else Ok (repeat coord_zero (Z.to_nat (natoms + 1))).

(** The values that locals declared without initialiser hold when [sscanf]
    leaves them unassigned: whatever the stack has, per row of a block. *)
Record indeterminate := mk_indeterminate {
  junk_tag : nat -> Z;
  junk_xyz : nat -> coord_t;
  junk_stress : stress_t }.

(** [sscanf(s, "%lg %lg ...")] with [n] conversions: the values converted
    before the first failure, in order. *)
Fixpoint scan_doubles (n : nat) (s : string) : list double :=
  match n with
  | O => []
  | S n' =>
      match scan_double s with
      | None => []
      | Some (v, r) => v :: scan_doubles n' r
      end
  end.

(** [sscanf(s, "%lg %lg %lg %lg %lg %lg", &stress.xx, ...)]: members whose
    conversion was not reached keep what [stress] held. *)
Definition sscanf_stress (s : string) (stress : stress_t) : stress_t :=
  let vals := scan_doubles 6 s in
  mk_stress (nth 0 vals (xx stress)) (nth 1 vals (yy stress))
    (nth 2 vals (zz stress)) (nth 3 vals (xy stress))
    (nth 4 vals (xz stress)) (nth 5 vals (yz stress)).

(** [sscanf(line, "%d %lg %lg %lg", &tag, &xyz.x, &xyz.y, &xyz.z)]. *)
Definition sscanf_row (line : string) (tag : Z) (xyz : coord_t) : Z * coord_t :=
  match scan_integer line with
  | None => (tag, xyz)
  | Some (v, r) =>
      let vals := scan_doubles 3 r in
      (to_int v,
       mk_coord (nth 0 vals (x xyz)) (nth 1 vals (y xyz)) (nth 2 vals (z xyz)))
  end.

(** ** libyaml events *)

Inductive yaml_event_type_t :=
| YAML_NO_EVENT
| YAML_STREAM_START_EVENT | YAML_STREAM_END_EVENT
| YAML_DOCUMENT_START_EVENT | YAML_DOCUMENT_END_EVENT
| YAML_ALIAS_EVENT | YAML_SCALAR_EVENT
| YAML_SEQUENCE_START_EVENT | YAML_SEQUENCE_END_EVENT
| YAML_MAPPING_START_EVENT | YAML_MAPPING_END_EVENT.

(** An event with its [data.scalar.value] (read for scalar events only,
    as a C string; scalars are taken to hold no NUL). *)
Record yaml_event_t := mk_event {
  type : yaml_event_type_t;
  scalar_value : string }.

Definition scalar (text : string) : yaml_event_t :=
  mk_event YAML_SCALAR_EVENT text.
Definition plain_event (t : yaml_event_type_t) : yaml_event_t :=
  mk_event t EmptyString.

(** One call of [yaml_parser_parse]: an event, or failure (return 0). *)
Inductive parser_step := Parsed (event : yaml_event_t) | ParserError.

(** ** YamlReader *)

Module YamlReader.

Inductive StateValue := START | ACCEPT_KEY | ACCEPT_VALUE | STOP | ERROR.

Record t := mk { state : StateValue; accepted : bool; key : string }.

Definition set_state (s : StateValue) (r : t) : t :=
  mk s (accepted r) (key r).

Definition is_ERROR (s : StateValue) : bool :=
  match s with ERROR => true | _ => false end.
Definition is_STOP (s : StateValue) : bool :=
  match s with STOP => true | _ => false end.

Definition consume_event (event : yaml_event_t) (r : t) : bool * t :=
  let r' :=
    match state r with
    | START =>
        match type event with
        | YAML_MAPPING_START_EVENT => mk ACCEPT_KEY false (key r)
        | YAML_SCALAR_EVENT
        | YAML_SEQUENCE_START_EVENT => mk ERROR false (key r)
        | YAML_STREAM_END_EVENT => mk STOP false (key r)
        | YAML_STREAM_START_EVENT
        | YAML_DOCUMENT_START_EVENT
        | YAML_DOCUMENT_END_EVENT => mk START false (key r)
        | _ => mk ERROR false (key r)
        end
    | ACCEPT_KEY =>
        match type event with
        | YAML_SCALAR_EVENT => mk ACCEPT_VALUE false (scalar_value event)
        | YAML_MAPPING_END_EVENT => mk STOP false (key r)
        | _ => mk ERROR false (key r)
        end
    | ACCEPT_VALUE =>
        match type event with
        | YAML_SCALAR_EVENT => mk ACCEPT_KEY true (key r)
        | _ => mk ERROR false (key r)
        end
    | ERROR => mk ERROR false (key r)
    | STOP => mk STOP false (key r)
    end in
  (negb (is_ERROR (state r')), r').

Section Consumers.

(** A registered member function, bound to its object. *)
Definition EventConsumer := yaml_event_t -> memory -> result memory.

(** The [consumers] map of the derived class. *)
Variable consumers : list (string * EventConsumer).

Fixpoint lookup (k : string) (l : list (string * EventConsumer))
    : option EventConsumer :=
  match l with
  | [] => None
  | (k', f) :: rest => if String.eqb k k' then Some f else lookup k rest
  end.

Definition consume_key_value (k : string) (event : yaml_event_t)
    (m : memory) : result (bool * memory) :=
  match lookup k consumers with
  | Some consumer => m' <- consumer event m ;; Ok (true, m')
  | None => Ok (false, m)
  end.

(** One pass through the body of the [do ... while] of [parse_file]. *)
Definition iteration (step : parser_step) (r : t) (m : memory)
    : result (t * memory) :=
  let event :=
    match step with
    | Parsed e => e
    | ParserError => plain_event YAML_NO_EVENT
    end in
  let r1 := match step with ParserError => set_state STOP r | _ => r end in
  let (fine, r2) := consume_event event r1 in
  let r3 := if fine then r2 else set_state STOP r2 in
  if accepted r3 then
    km <- consume_key_value (key r3) event m ;; Ok (r3, snd km)
  else Ok (r3, m).

(** The loop over the parser's events.  Once the parser has delivered
    its last event it keeps answering with an empty event
    ([YAML_NO_EVENT]), which every live state takes to [ERROR]. *)
Fixpoint loop (events : list parser_step) (r : t) (m : memory)
    : result memory :=
  match events with
  | [] => rm <- iteration (Parsed (plain_event YAML_NO_EVENT)) r m ;;
          Ok (snd rm)
  | step :: rest =>
      rm <- iteration step r m ;;
      if is_STOP (state (fst rm)) then Ok (snd rm)
      else loop rest (fst rm) (snd rm)
  end.

(** [parse_file(infile)]: [file] is what [fopen] and the parser give for
    [infile], [None] when it cannot be opened.  The result is the
    returned [int] and the memory left behind. *)
Definition parse_file (file : option (list parser_step)) (m : memory)
    : result (Z * memory) :=
  match file with
  | None => Ok (1, m)
  | Some events =>
      m' <- loop events (mk START false EmptyString) m ;; Ok (0, m')
  end.

End Consumers.

End YamlReader.

(** ** TestConfigReader *)

(** The set [" \t"]. *)
Definition blank_tab : string :=
  String " "%char (String "009"%char EmptyString).

Module TestConfigReader.

Section Reader.

(** The reference member [config], bound by the constructor. *)
Variable config : config_ref.
Variable junk : indeterminate.

Definition text (event : yaml_event_t) : string := scalar_value event.

(** The pair the loop of [prerequisites] takes from one line, [None]
    where it skips the line. *)
Definition split_prerequisite (line : string) : option (string * string) :=
  let found := find_first_of line blank_tab (Some O) in
  let key := substr line 0 found in
  let found := find_first_not_of line blank_tab found in
  match found with
  | None => None
  | Some f =>
      let value := substr line f (find_first_of line blank_tab (Some f)) in
      Some (key, value)
  end.

(** Body of the loop of [prerequisites] for one line. *)
Definition prerequisites_line (m : memory) (line : string) : memory :=
  match split_prerequisite line with
  | None => m
  | Some key_value =>
      update ref_test_config
        (fun c => TestConfig.set_prerequisites
                    (TestConfig.prerequisites c ++ [key_value]) c) m
  end.

Definition prerequisites (event : yaml_event_t) (m : memory) : result memory :=
  let m := update config (TestConfig.set_prerequisites []) m in
  Ok (fold_left prerequisites_line (getlines (text event)) m).

Definition pre_commands (event : yaml_event_t) (m : memory) : result memory :=
  let m := update config (TestConfig.set_pre_commands []) m in
  Ok (fold_left
        (fun m line =>
           update ref_test_config
             (fun c => TestConfig.set_pre_commands
                         (TestConfig.pre_commands c ++ [line]) c) m)
        (getlines (text event)) m).

Definition post_commands (event : yaml_event_t) (m : memory) : result memory :=
  let m := update config (TestConfig.set_post_commands []) m in
  Ok (fold_left
        (fun m line =>
           update ref_test_config
             (fun c => TestConfig.set_post_commands
                         (TestConfig.post_commands c ++ [line]) c) m)
        (getlines (text event)) m).

Definition lammps_version (event : yaml_event_t) (m : memory) : result memory :=
  Ok (update config (TestConfig.set_lammps_version (text event)) m).

Definition date_generated (event : yaml_event_t) (m : memory) : result memory :=
  Ok (update config (TestConfig.set_date_generated (text event)) m).

Definition epsilon (event : yaml_event_t) (m : memory) : result memory :=
  Ok (update config (TestConfig.set_epsilon (atof (text event))) m).

Definition input_file (event : yaml_event_t) (m : memory) : result memory :=
  Ok (update config (TestConfig.set_input_file (text event)) m).

Definition bond_style (event : yaml_event_t) (m : memory) : result memory :=
  Ok (update config (TestConfig.set_bond_style (text event)) m).

Definition bond_coeff (event : yaml_event_t) (m : memory) : result memory :=
  let m := update config (TestConfig.set_bond_coeff []) m in
  Ok (fold_left
        (fun m line =>
           update ref_test_config
             (fun c => TestConfig.set_bond_coeff
                         (TestConfig.bond_coeff c ++ [line]) c) m)
        (getlines (text event)) m).

Definition natoms (event : yaml_event_t) (m : memory) : result memory :=
  Ok (update config (TestConfig.set_natoms (atoi (text event))) m).

Definition init_energy (event : yaml_event_t) (m : memory) : result memory :=
  Ok (update config (TestConfig.set_init_energy (atof (text event))) m).

Definition run_energy (event : yaml_event_t) (m : memory) : result memory :=
  Ok (update config (TestConfig.set_run_energy (atof (text event))) m).

Definition init_stress (event : yaml_event_t) (m : memory) : result memory :=
  let stress := sscanf_stress (text event) (junk_stress junk) in
  Ok (update config (TestConfig.set_init_stress stress) m).

Definition run_stress (event : yaml_event_t) (m : memory) : result memory :=
  let stress := sscanf_stress (text event) (junk_stress junk) in
  Ok (update config (TestConfig.set_run_stress stress) m).

(** The loop of [init_forces] from row number [row] on: [tag] starts at
    0, [xyz] is not initialised. *)
Fixpoint init_forces_rows (lines : list string) (row : nat) (m : memory)
    : result memory :=
  match lines with
  | [] => Ok m
  | line :: rest =>
      let (tag, xyz) := sscanf_row line 0 (junk_xyz junk row) in
      v <- vector_store (TestConfig.init_forces (load config m)) tag xyz ;;
      init_forces_rows rest (S row)
        (update config (TestConfig.set_init_forces v) m)
  end.

Definition init_forces (event : yaml_event_t) (m : memory) : result memory :=
  v <- vector_resize (TestConfig.natoms (load config m)) ;;
  init_forces_rows (getlines (text event)) O
    (update config (TestConfig.set_init_forces v) m).

(** The loop of [run_forces]: neither [tag] nor [xyz] is initialised. *)
Fixpoint run_forces_rows (lines : list string) (row : nat) (m : memory)
    : result memory :=
  match lines with
  | [] => Ok m
  | line :: rest =>
      let (tag, xyz) :=
        sscanf_row line (junk_tag junk row) (junk_xyz junk row) in
      v <- vector_store (TestConfig.run_forces (load config m)) tag xyz ;;
      run_forces_rows rest (S row)
        (update config (TestConfig.set_run_forces v) m)
  end.

Definition run_forces (event : yaml_event_t) (m : memory) : result memory :=
  v <- vector_resize (TestConfig.natoms (load config m)) ;;
  run_forces_rows (getlines (text event)) O
    (update config (TestConfig.set_run_forces v) m).

(** The registrations of the constructor. *)
Definition consumers : list (string * YamlReader.EventConsumer) :=
  [ ("lammps_version"%string, lammps_version);
    ("date_generated"%string, date_generated);
    ("epsilon"%string, epsilon);
    ("prerequisites"%string, prerequisites);
    ("pre_commands"%string, pre_commands);
    ("post_commands"%string, post_commands);
    ("input_file"%string, input_file);
    ("bond_style"%string, bond_style);
    ("bond_coeff"%string, bond_coeff);
    ("natoms"%string, natoms);
    ("init_energy"%string, init_energy);
    ("run_energy"%string, run_energy);
    ("init_stress"%string, init_stress);
    ("run_stress"%string, run_stress);
    ("init_forces"%string, init_forces);
    ("run_forces"%string, run_forces) ].

Definition parse_file (file : option (list parser_step)) (m : memory)
    : result (Z * memory) :=
  YamlReader.parse_file consumers file m.

End Reader.

End TestConfigReader.

(** ** <cstdio>: number to text *)

Definition digit_char (d : Z) : ascii := ascii_of_nat (48 + Z.to_nat d).

(** The [n] low decimal digits of [v] in front of [acc], most significant
    first. *)
Fixpoint digits (n : nat) (v : Z) (acc : string) : string :=
  match n with
  | O => acc
  | S n' => digits n' (v / 10) (String (digit_char (v mod 10)) acc)
  end.

Fixpoint strip_leading_zeros (s : string) : string :=
  match s with
  | String c r =>
      if Ascii.eqb c "0"%char then
        match r with
        | EmptyString => s
        | _ => strip_leading_zeros r
        end
      else s
  | EmptyString => s
  end.

(** Decimal numeral of [v >= 0], without leading zeros. *)
Definition decimal (v : Z) : string :=
  strip_leading_zeros (digits (S (Z.to_nat (Z.log2 v))) v EmptyString).

Fixpoint replicate (n : nat) (c : ascii) : string :=
  match n with
  | O => EmptyString
  | S n' => String c (replicate n' c)
  end.

(** Field width: pad with [c] on the left up to [width] characters. *)
Definition pad_left (width : nat) (c : ascii) (s : string) : string :=
  (replicate (width - String.length s) c ++ s)%string.

(** ["%d"] and, with [space] and [width], ["% 3d"]. *)
Definition format_d (space : bool) (width : nat) (v : Z) : string :=
  let sign := if v <? 0 then "-"%string
              else if space then " "%string else EmptyString in
  pad_left width " "%char (sign ++ decimal (Z.abs v))%string.

(** Nearest integer to [a / b] for [b > 0], ties to even. *)
Definition round_half_even (a b : Z) : Z :=
  let q := a / b in
  let r := a mod b in
  if 2 * r <? b then q
  else if b <? 2 * r then q + 1
  else if Z.even q then q else q + 1.

(** [num / den > 0] rounded to [P] significant decimal digits: the digits
    as an integer in [[10^(P-1), 10^P)] and the decimal exponent of the
    first one. *)
Definition decimal_digits (P : Z) (num den : Z) : Z * Z :=
  let X0 := (Z.log2 num - Z.log2 den) * 30103 / 100000 in
  let ge10 := fun k =>
    if 0 <=? k then den * 10 ^ k <=? num else den <=? num * 10 ^ (- k) in
  let X := if ge10 (X0 + 1) then X0 + 1 else if ge10 X0 then X0 else X0 - 1 in
  let t := P - 1 - X in
  let D := if 0 <=? t then round_half_even (num * 10 ^ t) den
           else round_half_even num (den * 10 ^ (- t)) in
  if 10 ^ P <=? D then (10 ^ (P - 1), X + 1) else (D, X).

(** A finite non-zero double [m * 2^e] to [P] significant digits. *)
Definition finite_digits (P : Z) (m : positive) (e : Z) : Z * Z :=
  if 0 <=? e then decimal_digits P (Zpos m * 2 ^ e) 1
  else decimal_digits P (Zpos m) (2 ^ (- e)).

(** Exponent of the [e] style: sign and at least two digits. *)
Definition exponent_text (X : Z) : string :=
  let sign := if X <? 0 then "-"%string else "+"%string in
  (sign ++ pad_left 2 "0"%char (decimal (Z.abs X)))%string.

Fixpoint strip_trailing_zeros (s : string) : string :=
  match s with
  | EmptyString => EmptyString
  | String c r =>
      match strip_trailing_zeros r with
      | EmptyString => if Ascii.eqb c "0"%char then EmptyString else String c EmptyString
      | r' => String c r'
      end
  end.

(** A digit string as [d.ddd], the point left out when nothing follows. *)
Definition with_point (ds : string) : string :=
  match ds with
  | String d EmptyString => ds
  | String d r => String d (String "."%char r)
  | EmptyString => EmptyString
  end.

Definition sign_text (space neg : bool) : string :=
  if neg then "-"%string else if space then " "%string else EmptyString.

(** ["% W.Pe"] ([space] flag, width [width], [prec] digits after the
    point).  The one NaN of [float] prints without sign. *)
Definition format_e (space : bool) (width prec : nat) (v : double) : string :=
  let body :=
    match Prim2SF v with
    | S754_nan => "nan"%string
    | S754_infinity s => (sign_text space s ++ "inf")%string
    | S754_zero s =>
        (sign_text space s ++ with_point (replicate (S prec) "0"%char) ++ "e+00")%string
    | S754_finite s m e =>
        let (D, X) := finite_digits (Z.of_nat (S prec)) m e in
        (sign_text space s ++ with_point (digits (S prec) D EmptyString)
           ++ "e" ++ exponent_text X)%string
    end in
  pad_left width " "%char body.

(** ["%.Pg"] for [P >= 1]: style [e] when the exponent [X] is below -4 or
    at least [P], style [f] otherwise; trailing zeros removed. *)
Definition format_g (P : nat) (v : double) : string :=
  match Prim2SF v with
  | S754_nan => "nan"%string
  | S754_infinity s => (sign_text false s ++ "inf")%string
  | S754_zero s => (sign_text false s ++ "0")%string
  | S754_finite s m e =>
      let (D, X) := finite_digits (Z.of_nat P) m e in
      let ds := digits P D EmptyString in
      let body :=
        if (X <? -4) || (Z.of_nat P <=? X) then
          (with_point (strip_trailing_zeros ds) ++ "e" ++ exponent_text X)%string
        else if 0 <=? X then
          let ip := substring 0 (S (Z.to_nat X)) ds in
          let fp := strip_trailing_zeros (drop (S (Z.to_nat X)) ds) in
          match fp with
          | EmptyString => ip
          | _ => (ip ++ "." ++ fp)%string
          end
        else
          ("0." ++ replicate (Z.to_nat (- X - 1)) "0"%char
             ++ strip_trailing_zeros ds)%string in
      (sign_text false s ++ body)%string
  end.

(** ** The engine, as the harness uses it

    The engine's classes ([LAMMPS], [Atom], [Force], [Bond], [Info],
    [Input], [Modify], [Universe]) are not part of the harness; what the
    harness asks of them is taken as a parameter, the record [LAMMPS.t]. *)

(** [lmp->input->one(line)] and [lmp->input->file(path)]. *)
Inductive command := one (line : string) | file (path : string).

Module LAMMPS.

(** What the harness reads from an instance at one moment. *)
Record snapshot := mk_snapshot {
  natoms : Z;                (* atom->natoms *)
  nlocal : Z;                (* atom->nlocal, an int *)
  tag : list Z;              (* atom->tag *)
  f : list coord_t;          (* atom->f *)
  energy : double;           (* force->bond->energy *)
  virial : stress_t;         (* force->bond->virial[0..5] *)
  compute_sum : double }.    (* compute "sum": compute_scalar() *)

(** An instance created from given arguments: its suffix setting, its
    version string, the styles it has, and what it holds after a given
    sequence of commands. *)
Record t := mk {
  suffix_enable : bool;
  suffix : string;
  version : string;
  has_style : string -> string -> bool;
  after : list command -> snapshot }.

End LAMMPS.

(** Commands of [init_lammps], or [None] where it returns [NULL]. *)
Definition init_lammps (lmp : LAMMPS.t) (cfg : TestConfig.t)
    : option (list command) :=
  let unavailable := fun prerequisite : string * string =>
    let style :=
      if String.eqb (fst prerequisite) "bond" && LAMMPS.suffix_enable lmp
      then (snd prerequisite ++ "/" ++ LAMMPS.suffix lmp)%string
      else snd prerequisite in
    negb (LAMMPS.has_style lmp (fst prerequisite) style) in
  let nfail := List.length (filter unavailable (TestConfig.prerequisites cfg)) in
  if Nat.ltb 0 nfail then None
  else Some
    (map one (TestConfig.pre_commands cfg)
     ++ [file (TestConfig.input_file cfg)]
     ++ [one ("bond_style " ++ TestConfig.bond_style cfg)%string]
     ++ map (fun bond_coeff => one ("bond_coeff " ++ bond_coeff)%string)
          (TestConfig.bond_coeff cfg)
     ++ map one (TestConfig.post_commands cfg)
     ++ [one "run 0 post no"%string]).

Definition run_lammps : list command :=
  [ one "fix 1 all nve"%string;
    one "compute pe all pe/atom"%string;
    one "compute sum all reduce sum c_pe"%string;
    one "thermo_style custom step temp pe press c_sum"%string;
    one "thermo 2"%string;
    one "run 4 post no"%string ].

(** ** YamlWriter and generate *)

Definition LF : string := String "010"%char EmptyString.

Module YamlWriter.

(** Events of the constructor and of the destructor. *)
Definition open_events : list yaml_event_t :=
  [ plain_event YAML_STREAM_START_EVENT;
    plain_event YAML_DOCUMENT_START_EVENT;
    plain_event YAML_MAPPING_START_EVENT ].
Definition close_events : list yaml_event_t :=
  [ plain_event YAML_MAPPING_END_EVENT;
    plain_event YAML_DOCUMENT_END_EVENT;
    plain_event YAML_STREAM_END_EVENT ].

(** [emit(key, const std::string &)]. *)
Definition emit (key value : string) : list yaml_event_t :=
  [scalar key; scalar value].
(** [emit(key, const double)]: ["%.15g"]. *)
Definition emit_double (key : string) (value : double) : list yaml_event_t :=
  [scalar key; scalar (format_g 15 value)].
(** [emit(key, const int)]: ["%d"]. *)
Definition emit_int (key : string) (value : Z) : list yaml_event_t :=
  [scalar key; scalar (format_d false 0 value)].
(** [emit_block]: the same events, in literal style. *)
Definition emit_block (key value : string) : list yaml_event_t :=
  [scalar key; scalar value].

End YamlWriter.

(** [block.substr(0, block.find("\n") - 1)] on the text of [ctime]. *)
Definition date_text (ctime : string) : string :=
  match str_find LF ctime with
  | Some (S p) => substring 0 p ctime
  | _ => ctime
  end.

Definition lines_block (lines : list string) : string :=
  fold_left (fun block line => (block ++ line ++ LF)%string) lines EmptyString.

Definition prerequisites_block (l : list (string * string)) : string :=
  fold_left
    (fun block prerequisite =>
       (block ++ fst prerequisite ++ " " ++ snd prerequisite ++ LF)%string)
    l EmptyString.

(** ["% 23.16e % 23.16e % 23.16e % 23.16e % 23.16e % 23.16e"]. *)
Definition stress_text (s : stress_t) : string :=
  let e := format_e true 23 16 in
  (e (xx s) ++ " " ++ e (yy s) ++ " " ++ e (zz s) ++ " "
     ++ e (xy s) ++ " " ++ e (xz s) ++ " " ++ e (yz s))%string.

(** ["% 3d % 23.16e % 23.16e % 23.16e\n"] for [(int)tag[i]] and [f[i]]. *)
Definition force_line (tag : Z) (fi : coord_t) : string :=
  let e := format_e true 23 16 in
  (format_d true 3 (wrap32 tag) ++ " " ++ e (x fi) ++ " " ++ e (y fi)
     ++ " " ++ e (z fi) ++ LF)%string.

(** The loop [for (int i=0; i < natoms; ++i)] over the local arrays. *)
Fixpoint forces_block (n : nat) (i : Z) (s : LAMMPS.snapshot) (block : string)
    : result string :=
  match n with
  | O => Ok block
  | S n' =>
      t <- vector_at (LAMMPS.tag s) i ;;
      fi <- vector_at (LAMMPS.f s) i ;;
      forces_block n' (i + 1) s (block ++ force_line t fi)%string
  end.

(** [generate(outfile)]: the events written, [None] when [init_lammps]
    gives [NULL].  [now] is the text [ctime] returns; the output file is
    taken to open. *)
Definition generate (lmp : LAMMPS.t) (now : string) (cfg : TestConfig.t)
    : result (option (list yaml_event_t)) :=
  match init_lammps lmp cfg with
  | None => Ok None
  | Some script =>
      let s0 := LAMMPS.after lmp script in
      let natoms := wrap32 (LAMMPS.natoms s0) in
      init_block <- forces_block (Z.to_nat natoms) 0 s0 EmptyString ;;
      let s1 := LAMMPS.after lmp (script ++ run_lammps) in
      run_block <- forces_block (Z.to_nat natoms) 0 s1 EmptyString ;;
      Ok (Some
        (YamlWriter.open_events
         ++ YamlWriter.emit "lammps_version" (LAMMPS.version lmp)
         ++ YamlWriter.emit "date_generated" (date_text now)
         ++ YamlWriter.emit_double "epsilon" (TestConfig.epsilon cfg)
         ++ YamlWriter.emit_block "prerequisites"
              (prerequisites_block (TestConfig.prerequisites cfg))
         ++ YamlWriter.emit_block "pre_commands"
              (lines_block (TestConfig.pre_commands cfg))
         ++ YamlWriter.emit_block "post_commands"
              (lines_block (TestConfig.post_commands cfg))
         ++ YamlWriter.emit "input_file" (TestConfig.input_file cfg)
         ++ YamlWriter.emit "bond_style" (TestConfig.bond_style cfg)
         ++ YamlWriter.emit_block "bond_coeff"
              (lines_block (TestConfig.bond_coeff cfg))
         ++ YamlWriter.emit_int "natoms" natoms
         ++ YamlWriter.emit_double "init_energy" (LAMMPS.energy s0)
         ++ YamlWriter.emit_block "init_stress" (stress_text (LAMMPS.virial s0))
         ++ YamlWriter.emit_block "init_forces" init_block
         ++ YamlWriter.emit_double "run_energy" (LAMMPS.energy s1)
         ++ YamlWriter.emit_block "run_stress" (stress_text (LAMMPS.virial s1))
         ++ YamlWriter.emit_block "run_forces" run_block
         ++ YamlWriter.close_events))
  end.

(** Writer then Reader: the events [generate] wrote are what the parser
    delivers when the written file is read back (the YAML text in between
    is libyaml's); the reader is the one of [main], bound to
    [test_config]. *)
Definition write_then_read (lmp : LAMMPS.t) (now : string)
    (cfg : TestConfig.t) (junk : indeterminate) (m : memory)
    : result (option (Z * memory)) :=
  written <- generate lmp now cfg ;;
  match written with
  | None => Ok None
  | Some events =>
      parsed <- TestConfigReader.parse_file ref_test_config junk
                  (Some (map Parsed events)) m ;;
      Ok (Some parsed)
  end.

(** ** The tests *)

(** The groups of comparisons, as the statistics output labels them. *)
Inductive group :=
| init_forces_stats | init_stress_stats | init_energy_stats
| run_forces_stats | run_stress_stats | run_energy_stats.

(** One [EXPECT_PRED_FORMAT2(::testing::DoubleLE, err, eps)]. *)
Record expectation := mk_expectation {
  of_group : group;
  err : double;
  eps : double }.

(** The running [stats] and the expectations made so far. *)
Definition checks := (ErrorStats.t * list expectation)%type.

Definition EXPECT_FP_LE_WITH_EPS (g : group) (val1 val2 eps : double)
    (c : checks) : checks :=
  let err := relative_error val1 val2 in
  (ErrorStats.add err (fst c), snd c ++ [mk_expectation g err eps]).

Definition stats_reset (c : checks) : checks := (ErrorStats.reset, snd c).

(** The loop [for (int i=0; i < nlocal; ++i)] comparing [f[i]] with
    [f_ref[tag[i]]] component by component. *)
Fixpoint compare_forces (g : group) (n : nat) (i : Z) (f : list coord_t)
    (tag : list Z) (f_ref : list coord_t) (eps : double) (c : checks)
    : result checks :=
  match n with
  | O => Ok c
  | S n' =>
      fi <- vector_at f i ;;
      t <- vector_at tag i ;;
      ref <- vector_at f_ref t ;;
      let c := EXPECT_FP_LE_WITH_EPS g (x fi) (x ref) eps c in
      let c := EXPECT_FP_LE_WITH_EPS g (y fi) (y ref) eps c in
      let c := EXPECT_FP_LE_WITH_EPS g (z fi) (z ref) eps c in
      compare_forces g n' (i + 1) f tag f_ref eps c
  end.

Definition compare_stress (g : group) (stress expected : stress_t)
    (eps : double) (c : checks) : checks :=
  let c := EXPECT_FP_LE_WITH_EPS g (xx stress) (xx expected) eps c in
  let c := EXPECT_FP_LE_WITH_EPS g (yy stress) (yy expected) eps c in
  let c := EXPECT_FP_LE_WITH_EPS g (zz stress) (zz expected) eps c in
  let c := EXPECT_FP_LE_WITH_EPS g (xy stress) (xy expected) eps c in
  let c := EXPECT_FP_LE_WITH_EPS g (xz stress) (xz expected) eps c in
  EXPECT_FP_LE_WITH_EPS g (yz stress) (yz expected) eps c.

(** How a test ends: skipped, stopped by a failed [ASSERT_EQ], or run to
    its end; with the expectations made. *)
Inductive outcome :=
| Skipped
| Aborted (log : list expectation)
| Finished (log : list expectation).

Definition ten : double := 10%float.

(** The part the three tests share, from the atom-count assertion on:
    [epsilon] is the test's local, [stress_eps] the tolerance its stress
    comparisons pass, [assert_ref_size] tells whether the size of
    [init_forces] is asserted before the first loop.  The expectations on
    the captured output and the statistics printed are left out; [tag] is
    read through the pointer taken before the run, so after the run it
    shows the tags the engine holds then. *)
Definition compare_all (lmp : LAMMPS.t) (script : list command)
    (cfg : TestConfig.t) (epsilon stress_eps : double)
    (assert_ref_size : bool) : result outcome :=
  let s0 := LAMMPS.after lmp script in
  let nlocal := LAMMPS.nlocal s0 in
  if negb (LAMMPS.natoms s0 =? nlocal) then Ok (Aborted [])
  else
    let c : checks := (ErrorStats.reset, []) in
    let f_ref := TestConfig.init_forces cfg in
    if assert_ref_size && negb (nlocal + 1 =? Z.of_nat (List.length f_ref))
    then Ok (Aborted (snd c))
    else
      c <- compare_forces init_forces_stats (Z.to_nat nlocal) 0
             (LAMMPS.f s0) (LAMMPS.tag s0) f_ref epsilon c ;;
      let c := stats_reset c in
      let c := compare_stress init_stress_stats (LAMMPS.virial s0)
                 (TestConfig.init_stress cfg) stress_eps c in
      let c := stats_reset c in
      let c := EXPECT_FP_LE_WITH_EPS init_energy_stats (LAMMPS.energy s0)
                 (TestConfig.init_energy cfg) epsilon c in
      let s1 := LAMMPS.after lmp (script ++ run_lammps) in
      let f_run := TestConfig.run_forces cfg in
      if negb (nlocal + 1 =? Z.of_nat (List.length f_run))
      then Ok (Aborted (snd c))
      else
        let c := stats_reset c in
        c <- compare_forces run_forces_stats (Z.to_nat nlocal) 0
               (LAMMPS.f s1) (LAMMPS.tag s1) f_run
               (PrimFloat.mul ten epsilon) c ;;
        let c := stats_reset c in
        let c := compare_stress run_stress_stats (LAMMPS.virial s1)
                   (TestConfig.run_stress cfg) stress_eps c in
        let c := stats_reset c in
        let c := EXPECT_FP_LE_WITH_EPS run_energy_stats (LAMMPS.energy s1)
                   (TestConfig.run_energy cfg) epsilon c in
        let c := EXPECT_FP_LE_WITH_EPS run_energy_stats (LAMMPS.energy s1)
                   (LAMMPS.compute_sum s1) epsilon c in
        Ok (Finished (snd c)).

(** [TEST(BondStyle, plain)], for the instance its arguments create. *)
Definition plain (lmp : LAMMPS.t) (cfg : TestConfig.t) : result outcome :=
  match init_lammps lmp cfg with
  | None => Ok Skipped
  | Some script =>
      let epsilon := TestConfig.epsilon cfg in
      compare_all lmp script cfg epsilon epsilon true
  end.

(** [TEST(BondStyle, omp)]. *)
Definition omp (installed : bool) (lmp : LAMMPS.t) (cfg : TestConfig.t)
    : result outcome :=
  if negb installed then Ok Skipped
  else match init_lammps lmp cfg with
       | None => Ok Skipped
       | Some script =>
           let epsilon := PrimFloat.mul 5.0%float (TestConfig.epsilon cfg) in
           compare_all lmp script cfg epsilon (PrimFloat.mul ten epsilon) false
       end.

(** The [epsilon] of [TEST(BondStyle, intel)] once its loop over the
    post commands is done. *)
Definition intel_epsilon (cfg : TestConfig.t) : double :=
  fold_left
    (fun epsilon post_cmd =>
       match str_find "bond_modify table" post_cmd with
       | Some _ =>
           match str_find "bond_modify table 0" post_cmd with
           | None => PrimFloat.mul epsilon 1000000.0%float
           | Some _ => epsilon
           end
       | None => epsilon
       end)
    (TestConfig.post_commands cfg)
    (PrimFloat.mul 5.0%float (TestConfig.epsilon cfg)).

(** [TEST(BondStyle, intel)]. *)
Definition intel (installed : bool) (lmp : LAMMPS.t) (cfg : TestConfig.t)
    : result outcome :=
  if negb installed then Ok Skipped
  else match init_lammps lmp cfg with
       | None => Ok Skipped
       | Some script =>
           let epsilon := intel_epsilon cfg in
           compare_all lmp script cfg epsilon (PrimFloat.mul ten epsilon) false
       end.

(** ** main *)

(** How [main] ends: a return code of its own, [generate(outfile)] followed
    by [return 0], or [RUN_ALL_TESTS()] with the [print_stats] setting. *)
Inductive ending :=
| Return (code : Z)
| Generate (outfile : string)
| RUN_ALL_TESTS (print_stats : bool).

(** [main], after [InitGoogleTest]: [argv] are the remaining arguments,
    [fopen] tells what each file holds. *)
Definition main (argv : list string)
    (fopen : string -> option (list parser_step))
    (junk : indeterminate) (m : memory) : result (ending * memory) :=
  let argc := List.length argv in
  if negb (Nat.eqb argc 2) && negb (Nat.eqb argc 4) then Ok (Return 1, m)
  else
    parsed <- TestConfigReader.parse_file ref_test_config junk
                (fopen (nth 1 argv EmptyString)) m ;;
    let (rc, m) := parsed in
    if negb (rc =? 0) then Ok (Return 2, m)
    else if Nat.eqb argc 4 then
      if String.eqb (nth 2 argv EmptyString) "--gen"
      then Ok (Generate (nth 3 argv EmptyString), m)
      else if String.eqb (nth 2 argv EmptyString) "--stats"
      then Ok (RUN_ALL_TESTS (String.eqb (nth 3 argv EmptyString) "yes"), m)
      else Ok (Return 1, m)
    else Ok (RUN_ALL_TESTS false, m).

(** ** The relative error, in the words of the specification *)

(** The smaller of two doubles. *)
Definition spec_min (a b : double) : double :=
  if PrimFloat.leb a b then a else b.

(** [diff = |observed - expected|], [scale = min(|observed|, |expected|)],
    [diff] when [scale == 0], else [diff / scale]. *)
Definition spec_relative_error (observed expected : double) : double :=
  let diff := PrimFloat.abs (PrimFloat.sub observed expected) in
  let scale := spec_min (PrimFloat.abs observed) (PrimFloat.abs expected) in
  if PrimFloat.eqb scale 0%float then diff else PrimFloat.div diff scale.

(** * Properties *)

(** ** Order on binary64 *)

Section FloatOrder.

Lemma compare_cont_Eq (p q : positive) :
  Pos.compare_cont Eq p q = Pos.compare p q.
Proof. reflexivity. Qed.

Ltac order_cases :=
  repeat match goal with
  | H : context [Pos.compare_cont Eq ?p ?q] |- _ =>
      rewrite (compare_cont_Eq p q) in H
  | |- context [Pos.compare_cont Eq ?p ?q] => rewrite (compare_cont_Eq p q)
  end;
  repeat match goal with
  | H : context [Z.compare ?a ?b] |- _ => destruct (Z.compare_spec a b)
  | |- context [Z.compare ?a ?b] => destruct (Z.compare_spec a b)
  | H : context [Pos.compare ?a ?b] |- _ => destruct (Pos.compare_spec a b)
  | |- context [Pos.compare ?a ?b] => destruct (Pos.compare_spec a b)
  end;
  subst; simpl in *; try congruence; try lia.

Lemma SFcompare_Lt_trans (a b c : spec_float) :
  SFcompare a b = Some Lt -> SFcompare b c = Some Lt ->
  SFcompare a c = Some Lt.
Proof.
  destruct a as [[]|[]| |[] ma ea], b as [[]|[]| |[] mb eb],
           c as [[]|[]| |[] mc ec];
    simpl; try congruence; intros H1 H2; order_cases.
Qed.

Lemma SFcompare_Lt_Eq_trans (a b c : spec_float) :
  SFcompare a b = Some Lt -> SFcompare b c = Some Eq ->
  SFcompare a c = Some Lt.
Proof.
  destruct a as [[]|[]| |[] ma ea], b as [[]|[]| |[] mb eb],
           c as [[]|[]| |[] mc ec];
    simpl; try congruence; intros H1 H2; order_cases.
Qed.

Lemma SFcompare_antisym (a b : spec_float) :
  SFcompare b a = option_map CompOpp (SFcompare a b).
Proof.
  destruct a as [[]|[]| |[] ma ea], b as [[]|[]| |[] mb eb];
    simpl; try congruence; order_cases.
Qed.

Lemma SFcompare_refl (a : spec_float) :
  SFcompare a a = Some Eq \/ SFcompare a a = None.
Proof.
  destruct a as [[]|[]| |[] ma ea]; simpl; auto; left; order_cases.
Qed.

Lemma SFcompare_nan (a b : spec_float) :
  SFcompare a b = None -> a = S754_nan \/ b = S754_nan.
Proof.
  destruct a as [[]|[]| |[] ma ea], b as [[]|[]| |[] mb eb];
    simpl; auto; discriminate.
Qed.

Lemma ltb_irrefl (a : double) : PrimFloat.ltb a a = false.
Proof.
  rewrite ltb_spec. unfold SFltb.
  destruct (SFcompare_refl (Prim2SF a)) as [H|H]; rewrite H; reflexivity.
Qed.

Lemma ltb_Lt (a b : double) :
  PrimFloat.ltb a b = true <-> SFcompare (Prim2SF a) (Prim2SF b) = Some Lt.
Proof.
  rewrite ltb_spec. unfold SFltb.
  destruct (SFcompare _ _) as [[]|]; split; congruence.
Qed.

Lemma ltb_trans (a b c : double) :
  PrimFloat.ltb a b = true -> PrimFloat.ltb b c = true ->
  PrimFloat.ltb a c = true.
Proof. rewrite !ltb_Lt. apply SFcompare_Lt_trans. Qed.

Lemma ltb_leb_trans (a b c : double) :
  PrimFloat.ltb a b = true -> PrimFloat.leb b c = true ->
  PrimFloat.ltb a c = true.
Proof.
  rewrite !ltb_Lt, leb_spec. unfold SFleb. intros H1 H2.
  destruct (SFcompare (Prim2SF b) (Prim2SF c)) as [[]|] eqn:E;
    try discriminate.
  - eapply SFcompare_Lt_Eq_trans; eauto.
  - eapply SFcompare_Lt_trans; eauto.
Qed.

Lemma Prim2SF_nan (a : double) : Prim2SF a = S754_nan -> a = nan.
Proof.
  intros H. rewrite <- (SF2Prim_Prim2SF a), H. reflexivity.
Qed.

(** On doubles that are not NaN the order is total. *)
Lemma leb_negb_ltb (a b : double) :
  Prim2SF a <> S754_nan -> Prim2SF b <> S754_nan ->
  PrimFloat.leb a b = negb (PrimFloat.ltb b a).
Proof.
  intros Ha Hb. rewrite leb_spec, ltb_spec. unfold SFleb, SFltb.
  rewrite (SFcompare_antisym (Prim2SF a) (Prim2SF b)).
  destruct (SFcompare (Prim2SF a) (Prim2SF b)) as [[]|] eqn:E;
    try reflexivity.
  destruct (SFcompare_nan _ _ E); contradiction.
Qed.

(** Two doubles that [==] tells apart are different. *)
Lemma eqb_false_neq (a b : double) :
  PrimFloat.eqb a a = true -> PrimFloat.eqb a b = false -> a <> b.
Proof. intros Ha Hb ->. congruence. Qed.

Lemma abs_not_nan (a : double) :
  Prim2SF a <> S754_nan -> Prim2SF (PrimFloat.abs a) <> S754_nan.
Proof.
  rewrite abs_spec. destruct (Prim2SF a); simpl; congruence.
Qed.

Lemma sub_nan (a b : double) :
  Prim2SF a = S754_nan \/ Prim2SF b = S754_nan -> PrimFloat.sub a b = nan.
Proof.
  intros H. apply Prim2SF_nan. rewrite sub_spec. unfold SF64sub, SFsub.
  destruct H as [H|H]; rewrite H; [reflexivity|].
  destruct (Prim2SF a); reflexivity.
Qed.

Lemma div_nan (b : double) : PrimFloat.div nan b = nan.
Proof.
  apply Prim2SF_nan. rewrite div_spec.
  change (Prim2SF nan) with S754_nan. reflexivity.
Qed.

End FloatOrder.

(** ** C2: the relative error *)

Lemma std_min_spec_min (a b : double) :
  Prim2SF a <> S754_nan -> Prim2SF b <> S754_nan ->
  std_min a b = spec_min a b.
Proof.
  intros Ha Hb. unfold std_min, spec_min.
  rewrite (leb_negb_ltb a b Ha Hb).
  destruct (PrimFloat.ltb b a); reflexivity.
Qed.

Lemma relative_error_of_nan (val1 val2 : double) :
  Prim2SF val1 = S754_nan \/ Prim2SF val2 = S754_nan ->
  relative_error val1 val2 = nan /\ spec_relative_error val1 val2 = nan.
Proof.
  intros H. unfold relative_error, spec_relative_error, fabs.
  rewrite (sub_nan val1 val2 H).
  change (PrimFloat.abs nan) with nan.
  split.
  - destruct (PrimFloat.eqb _ _); [reflexivity | apply div_nan].
  - destruct (PrimFloat.eqb _ _); [reflexivity | apply div_nan].
Qed.

(** C2.  For every observed value [o] and expected value [e], the error
    that [EXPECT_FP_LE_WITH_EPS] computes is the one the specification
    describes: [|o-e|] when [min(|o|,|e|)] is zero and
    [|o-e| / min(|o|,|e|)] otherwise, NaN operands included. *)
Theorem relative_error_is_spec (o e : double) :
  relative_error o e = spec_relative_error o e.
Proof.
  destruct (Prim2SF o) eqn:Ho;
    try (destruct (relative_error_of_nan o e (or_introl Ho)) as [-> ->];
         reflexivity);
    (destruct (Prim2SF e) eqn:He;
     try (destruct (relative_error_of_nan o e (or_intror He)) as [-> ->];
          reflexivity));
    unfold relative_error, spec_relative_error, fabs;
    rewrite std_min_spec_min;
    try reflexivity; apply abs_not_nan; congruence.
Qed.

(** ** C4: ErrorStats *)

Lemma wrap32_small (n : Z) : - 2^31 <= n < 2^31 -> wrap32 n = n.
Proof.
  intros H. unfold wrap32.
  rewrite Z.mod_small; lia.
Qed.

Lemma add_all_snoc (vs : list double) (v : double) :
  ErrorStats.add_all (vs ++ [v]) = ErrorStats.add v (ErrorStats.add_all vs).
Proof. unfold ErrorStats.add_all. rewrite fold_left_app. reflexivity. Qed.

(** What holds of the accumulator after the samples [vs]. *)
Definition stats_inv (vs : list double) (s : ErrorStats.t) : Prop :=
  ErrorStats.num s = Z.of_nat (List.length vs)
  /\ (forall v, In v vs -> PrimFloat.ltb (ErrorStats.maxerr s) v = false)
  /\ ((ErrorStats.maxidx s = -1 /\ ErrorStats.maxerr s = 0%float
       /\ forall v, In v vs -> PrimFloat.ltb 0 v = false)
      \/ exists p : nat,
           ErrorStats.maxidx s = Z.of_nat (S p)
           /\ nth_error vs p = Some (ErrorStats.maxerr s)
           /\ PrimFloat.ltb 0 (ErrorStats.maxerr s) = true
           /\ forall j v, (j < p)%nat -> nth_error vs j = Some v ->
                PrimFloat.leb (ErrorStats.maxerr s) v = false).

Lemma stats_inv_add (vs : list double) (v : double) (s : ErrorStats.t) :
  Z.of_nat (List.length vs) < INT_MAX ->
  stats_inv vs s -> stats_inv (vs ++ [v]) (ErrorStats.add v s).
Proof.
  intros Hlen (Hnum & Hmax & Hidx).
  assert (Hnum' : wrap32 (ErrorStats.num s + 1)
                  = Z.of_nat (List.length (vs ++ [v]))).
  { rewrite length_app, Nat2Z.inj_add, Hnum. simpl.
    apply wrap32_small. unfold INT_MAX in Hlen. lia. }
  unfold stats_inv, ErrorStats.add; simpl.
  destruct (PrimFloat.ltb (ErrorStats.maxerr s) v) eqn:Hhit.
  - (* the new sample is the maximum so far *)
    split; [exact Hnum'|]. split.
    + intros w Hw. apply in_app_or in Hw. destruct Hw as [Hw|[<-|[]]].
      * destruct (PrimFloat.ltb v w) eqn:E; [|reflexivity].
        rewrite <- (Hmax w Hw). symmetry. eapply ltb_trans; eauto.
      * apply ltb_irrefl.
    + right. exists (List.length vs). split; [|split; [|split]].
      * rewrite Hnum', length_app, Nat2Z.inj_add. simpl. lia.
      * rewrite nth_error_app2, Nat.sub_diag by lia. reflexivity.
      * destruct Hidx as [(_ & H0 & _)|(p & _ & _ & Hpos & _)].
        -- rewrite <- H0. exact Hhit.
        -- eapply ltb_trans; eauto.
      * intros j w Hj Hw. rewrite nth_error_app1 in Hw by lia.
        apply nth_error_In in Hw.
        destruct (PrimFloat.leb v w) eqn:E; [|reflexivity].
        rewrite <- (Hmax w Hw). symmetry. eapply ltb_leb_trans; eauto.
  - (* the maximum stays *)
    split; [exact Hnum'|]. split.
    + intros w Hw. apply in_app_or in Hw. destruct Hw as [Hw|[<-|[]]]; auto.
    + destruct Hidx as [(Hi & H0 & Hall)|(p & Hi & Hp & Hpos & Hbefore)].
      * left. split; [exact Hi|]. split; [exact H0|].
        intros w Hw. apply in_app_or in Hw. destruct Hw as [Hw|[<-|[]]]; auto.
        rewrite <- H0. exact Hhit.
      * right. exists p. split; [exact Hi|].
        assert (Hlt : (p < List.length vs)%nat).
        { apply nth_error_Some. congruence. }
        split; [rewrite nth_error_app1 by lia; exact Hp|].
        split; [exact Hpos|].
        intros j w Hj Hw. rewrite nth_error_app1 in Hw by lia. eauto.
Qed.

Lemma stats_inv_add_all (vs : list double) :
  Z.of_nat (List.length vs) <= INT_MAX ->
  stats_inv vs (ErrorStats.add_all vs).
Proof.
  induction vs as [|v vs IH] using rev_ind; intros Hlen.
  - unfold stats_inv; simpl. split; [reflexivity|]. split; [intros v []|].
    left. repeat split. intros v [].
  - rewrite add_all_snoc. rewrite length_app, Nat2Z.inj_add in Hlen.
    simpl in Hlen. apply stats_inv_add; [lia|]. apply IH. lia.
Qed.

(** C4, as the code has it.  After [reset()] and one [add] for each of
    [N >= 1] samples ([N] within [int]): no sample is greater than
    [max()]; when some sample is greater than 0, [max()] is one of the
    samples and [idx()] is the 1-based position of its first occurrence;
    when no sample is greater than 0, [max()] stays 0 and [idx()] stays
    -1. *)
Theorem ErrorStats_max_idx (vs : list double) :
  (1 <= List.length vs)%nat ->
  Z.of_nat (List.length vs) <= INT_MAX ->
  let s := ErrorStats.add_all vs in
  (forall v, In v vs -> PrimFloat.ltb (ErrorStats.max s) v = false)
  /\ ((exists v, In v vs /\ PrimFloat.ltb 0 v = true) ->
      exists p : nat,
        ErrorStats.idx s = int_to_double (Z.of_nat (S p))
        /\ nth_error vs p = Some (ErrorStats.max s)
        /\ forall j v, (j < p)%nat -> nth_error vs j = Some v ->
             PrimFloat.leb (ErrorStats.max s) v = false)
  /\ ((forall v, In v vs -> PrimFloat.ltb 0 v = false) ->
      ErrorStats.max s = 0%float /\ ErrorStats.idx s = (-1)%float).
Proof.
  intros _ Hlen s.
  destruct (stats_inv_add_all vs Hlen) as (_ & Hmax & Hidx).
  fold s in Hmax, Hidx. unfold ErrorStats.max, ErrorStats.idx.
  split; [exact Hmax|]. split.
  - intros (v & Hv & Hpos).
    destruct Hidx as [(_ & _ & Hall)|(p & Hi & Hp & _ & Hbefore)].
    + rewrite (Hall v Hv) in Hpos. discriminate.
    + exists p. rewrite Hi. auto.
  - intros Hall.
    destruct Hidx as [(Hi & H0 & _)|(p & _ & Hp & Hpos & _)].
    + rewrite Hi, H0. split; reflexivity.
    + apply nth_error_In in Hp. rewrite (Hall _ Hp) in Hpos. discriminate.
Qed.

(** The samples of three exact matches. *)
Definition three_zero_errors : list double := [0%float; 0%float; 0%float].

(** C4 as stated fails on samples that are all 0, the error of an exact
    match: [idx()] is -1, which is none of the positions 1, 2, 3. *)
Lemma ErrorStats_idx_of_zero_errors :
  ErrorStats.max (ErrorStats.add_all three_zero_errors) = 0%float
  /\ ErrorStats.idx (ErrorStats.add_all three_zero_errors) = (-1)%float
  /\ ~ (exists p : Z, 1 <= p <= 3
          /\ ErrorStats.idx (ErrorStats.add_all three_zero_errors)
             = int_to_double p).
Proof.
  split; [reflexivity|]. split; [reflexivity|].
  intros (p & Hp & H).
  assert (Hc : p = 1 \/ p = 2 \/ p = 3) by lia.
  assert (Hneg : PrimFloat.ltb
            (ErrorStats.idx (ErrorStats.add_all three_zero_errors)) 0%float
            = true) by reflexivity.
  rewrite H in Hneg.
  destruct Hc as [->|[->| ->]]; vm_compute in Hneg; discriminate.
Qed.

(** The theorem at four samples, the largest of them given twice. *)
Lemma ErrorStats_max_idx_witness :
  let vs := [0.5%float; 2%float; 1%float; 2%float] in
  let s := ErrorStats.add_all vs in
  (forall v, In v vs -> PrimFloat.ltb (ErrorStats.max s) v = false)
  /\ ((exists v, In v vs /\ PrimFloat.ltb 0 v = true) ->
      exists p : nat,
        ErrorStats.idx s = int_to_double (Z.of_nat (S p))
        /\ nth_error vs p = Some (ErrorStats.max s)
        /\ forall j v, (j < p)%nat -> nth_error vs j = Some v ->
             PrimFloat.leb (ErrorStats.max s) v = false)
  /\ ((forall v, In v vs -> PrimFloat.ltb 0 v = false) ->
      ErrorStats.max s = 0%float /\ ErrorStats.idx s = (-1)%float).
Proof.
  apply (ErrorStats_max_idx [0.5%float; 2%float; 1%float; 2%float]).
  - simpl. lia.
  - unfold INT_MAX. simpl. lia.
Defined.

(** ** Vectors *)

Lemma list_set_length {A} (l : list A) (i : nat) (a : A) :
  List.length (list_set l i a) = List.length l.
Proof.
  revert i. induction l as [|h t IH]; intros [|i]; simpl; auto.
Qed.

Lemma list_set_same {A} (l : list A) (i : nat) (a : A) :
  (i < List.length l)%nat -> nth_error (list_set l i a) i = Some a.
Proof.
  revert i. induction l as [|h t IH]; intros [|i] H; simpl in *;
    try lia; auto. apply IH. lia.
Qed.

Lemma list_set_other {A} (l : list A) (i j : nat) (a : A) :
  i <> j -> nth_error (list_set l i a) j = nth_error l j.
Proof.
  revert i j. induction l as [|h t IH]; intros [|i] [|j] H; simpl;
    try reflexivity; try congruence. apply IH. congruence.
Qed.

Lemma vector_store_Ok {A} (v : list A) (i : Z) (a : A) :
  0 <= i < Z.of_nat (List.length v) ->
  vector_store v i a = Ok (list_set v (Z.to_nat i) a).
Proof.
  intros H. unfold vector_store.
  replace (0 <=? i) with true by (symmetry; apply Z.leb_le; lia).
  replace (i <? Z.of_nat (List.length v)) with true
    by (symmetry; apply Z.ltb_lt; lia).
  reflexivity.
Qed.

Lemma vector_store_Fault {A} (v : list A) (i : Z) (a : A) :
  ~ (0 <= i < Z.of_nat (List.length v)) ->
  vector_store v i a = Fault OutOfBounds.
Proof.
  intros H. unfold vector_store.
  destruct (0 <=? i) eqn:E1; [|reflexivity].
  destruct (i <? Z.of_nat (List.length v)) eqn:E2; [|reflexivity].
  apply Z.leb_le in E1. apply Z.ltb_lt in E2. lia.
Qed.

Lemma vector_store_length {A} (v v' : list A) (i : Z) (a : A) :
  vector_store v i a = Ok v' -> List.length v' = List.length v.
Proof.
  unfold vector_store. destruct (_ && _); [|discriminate].
  intros [= <-]. apply list_set_length.
Qed.

Lemma vector_resize_Ok (n : Z) :
  -1 <= n < INT_MAX ->
  vector_resize n = Ok (repeat coord_zero (Z.to_nat (n + 1))).
Proof.
  intros H. unfold vector_resize.
  replace (INT_MAX <=? n) with false by (symmetry; apply Z.leb_gt; lia).
  replace (n + 1 <? 0) with false by (symmetry; apply Z.ltb_ge; lia).
  reflexivity.
Qed.

(** ** Memory *)

Lemma load_update (r : config_ref) (f : TestConfig.t -> TestConfig.t)
    (m : memory) : load r (update r f m) = f (load r m).
Proof. destruct r; reflexivity. Qed.

Lemma update_set_init_forces_twice (r : config_ref) (v v' : list coord_t)
    (m : memory) :
  update r (TestConfig.set_init_forces v')
    (update r (TestConfig.set_init_forces v) m)
  = update r (TestConfig.set_init_forces v') m.
Proof. destruct r, m; reflexivity. Qed.

Lemma update_set_run_forces_twice (r : config_ref) (v v' : list coord_t)
    (m : memory) :
  update r (TestConfig.set_run_forces v')
    (update r (TestConfig.set_run_forces v) m)
  = update r (TestConfig.set_run_forces v') m.
Proof. destruct r, m; reflexivity. Qed.

(** ** C5: force rows are stored by atom ID *)

(** A row all four of whose conversions succeed: its atom ID and force. *)
Definition complete_row (line : string) : option (Z * coord_t) :=
  match scan_integer line with
  | Some (v, r) =>
      match scan_doubles 3 r with
      | [fx; fy; fz] => Some (to_int v, mk_coord fx fy fz)
      | _ => None
      end
  | None => None
  end.

(** The stores of a sequence of rows, one after the other. *)
Definition store_rows (v : list coord_t) (rows : list (Z * coord_t))
    : list coord_t :=
  fold_left (fun v row => list_set v (Z.to_nat (fst row)) (snd row)) rows v.

Lemma complete_row_sscanf (line : string) (t : Z) (c : coord_t) :
  complete_row line = Some (t, c) ->
  forall t0 c0, sscanf_row line t0 c0 = (t, c).
Proof.
  unfold complete_row, sscanf_row. intros H t0 c0.
  destruct (scan_integer line) as [[v r]|]; [|discriminate].
  destruct (scan_doubles 3 r) as [|fx [|fy [|fz [|]]]]; try discriminate.
  injection H as <- <-. reflexivity.
Qed.

Lemma store_rows_length (rows : list (Z * coord_t)) (v : list coord_t) :
  List.length (store_rows v rows) = List.length v.
Proof.
  revert v. induction rows as [|row rows IH]; intros v; simpl; auto.
  unfold store_rows in *. simpl. rewrite IH. apply list_set_length.
Qed.

Lemma store_rows_untouched (rows : list (Z * coord_t)) (v : list coord_t)
    (i : nat) :
  (forall t c, In (t, c) rows -> Z.to_nat t <> i) ->
  nth_error (store_rows v rows) i = nth_error v i.
Proof.
  revert v. induction rows as [|[t c] rows IH]; intros v H; simpl; auto.
  unfold store_rows in *. simpl. rewrite IH.
  - apply list_set_other. apply (H t c). left. reflexivity.
  - intros t' c' Hin. apply (H t' c'). right. exact Hin.
Qed.

Lemma store_rows_last (before after : list (Z * coord_t)) (t : Z)
    (c : coord_t) (v : list coord_t) :
  0 <= t < Z.of_nat (List.length v) ->
  (forall t' c', In (t', c') after -> 0 <= t' /\ t' <> t) ->
  nth_error (store_rows v (before ++ (t, c) :: after)) (Z.to_nat t) = Some c.
Proof.
  intros Ht Hafter. unfold store_rows. rewrite fold_left_app. simpl.
  fold (store_rows v before).
  fold (store_rows (list_set (store_rows v before) (Z.to_nat t) c) after).
  rewrite store_rows_untouched.
  - apply list_set_same. rewrite store_rows_length. lia.
  - intros t' c' Hin. destruct (Hafter t' c' Hin). lia.
Qed.

Lemma init_forces_rows_complete (config : config_ref) (junk : indeterminate)
    (lines : list string) (rows : list (Z * coord_t)) :
  map complete_row lines = map Some rows ->
  forall (row : nat) (m : memory),
  (forall t c, In (t, c) rows ->
     0 <= t < Z.of_nat (List.length (TestConfig.init_forces (load config m)))) ->
  TestConfigReader.init_forces_rows config junk lines row m
  = Ok (update config
          (TestConfig.set_init_forces
             (store_rows (TestConfig.init_forces (load config m)) rows)) m).
Proof.
  revert rows. induction lines as [|line lines IH]; intros [|[t c] rows] Hmap;
    try discriminate; intros row m Hrange.
  - simpl. destruct config, m as [[] []]; reflexivity.
  - simpl in Hmap. injection Hmap as Hline Hmap.
    simpl. rewrite (complete_row_sscanf line t c Hline).
    rewrite vector_store_Ok by (apply (Hrange t c); left; reflexivity).
    simpl. rewrite (IH rows Hmap).
    + rewrite load_update. simpl.
      rewrite update_set_init_forces_twice. reflexivity.
    + intros t' c' Hin. rewrite load_update. simpl.
      rewrite list_set_length. apply (Hrange t' c'). right. exact Hin.
Qed.

Lemma nth_error_repeat {A} (a : A) (n i : nat) :
  (i < n)%nat -> nth_error (repeat a n) i = Some a.
Proof.
  revert i. induction n as [|n IH]; intros [|i] H; simpl; try lia; auto.
  apply IH. lia.
Qed.

(** C5.  When the [natoms] value decodes to [n] and every row of the
    [init_forces] block converts completely with an atom ID in [0..n],
    decoding succeeds, the array has [n + 1] entries, an index no row
    names stays zeroed, and a row's force is found at the index given by
    its atom ID, wherever the row stands in the block (the last row wins
    when an ID is repeated). *)
Theorem init_forces_stored_by_atom_id (config : config_ref)
    (junk : indeterminate) (m : memory) (ntext block : string)
    (rows : list (Z * coord_t)) :
  0 <= atoi ntext < INT_MAX ->
  map complete_row (getlines block) = map Some rows ->
  (forall t c, In (t, c) rows -> 0 <= t <= atoi ntext) ->
  exists m1 m2,
    TestConfigReader.natoms config (scalar ntext) m = Ok m1
    /\ TestConfigReader.init_forces config junk (scalar block) m1 = Ok m2
    /\ Z.of_nat (List.length (TestConfig.init_forces (load config m2)))
       = atoi ntext + 1
    /\ (forall i : nat,
          Z.of_nat i <= atoi ntext ->
          (forall t c, In (t, c) rows -> t <> Z.of_nat i) ->
          nth_error (TestConfig.init_forces (load config m2)) i
          = Some coord_zero)
    /\ (forall before t c after,
          rows = before ++ (t, c) :: after ->
          (forall t' c', In (t', c') after -> t' <> t) ->
          nth_error (TestConfig.init_forces (load config m2)) (Z.to_nat t)
          = Some c).
Proof.
  intros Hn Hrows Hrange.
  set (n := atoi ntext) in *.
  set (m1 := update config (TestConfig.set_natoms n) m).
  set (zeros := repeat coord_zero (Z.to_nat (n + 1))).
  set (m1' := update config (TestConfig.set_init_forces zeros) m1).
  assert (Hnat : TestConfig.natoms (load config m1) = n).
  { unfold m1. rewrite load_update. reflexivity. }
  assert (Hzeros : TestConfig.init_forces (load config m1') = zeros).
  { unfold m1'. rewrite load_update. reflexivity. }
  assert (Hlen : Z.of_nat (List.length zeros) = n + 1).
  { unfold zeros. rewrite repeat_length. lia. }
  exists m1, (update config
                (TestConfig.set_init_forces (store_rows zeros rows)) m1').
  split; [reflexivity|]. split.
  - unfold TestConfigReader.init_forces.
    rewrite Hnat, vector_resize_Ok by lia. simpl. fold zeros. fold m1'.
    unfold TestConfigReader.text. simpl.
    rewrite (init_forces_rows_complete config junk _ rows Hrows).
    + rewrite Hzeros. reflexivity.
    + intros t c Hin. rewrite Hzeros. specialize (Hrange t c Hin). lia.
  - rewrite load_update. simpl. split; [|split].
    + rewrite store_rows_length. exact Hlen.
    + intros i Hi Hfree. rewrite store_rows_untouched.
      * unfold zeros. apply nth_error_repeat. lia.
      * intros t c Hin Heq. apply (Hfree t c Hin).
        specialize (Hrange t c Hin). lia.
    + intros before t c after -> Hafter.
      apply store_rows_last.
      * specialize (Hrange t c (in_elt _ _ _)). lia.
      * intros t' c' Hin. split; [|eauto].
        apply (Hrange t' c'). apply in_or_app. right. right. exact Hin.
Qed.

(** The block of the specification's example. *)
Definition example_forces_block : string :=
  "1 1.0 2.0 3.0
2 4.0 5.0 6.0
3 7.0 8.0 9.0
".

Definition example_junk : indeterminate :=
  mk_indeterminate (fun _ => 7)
    (fun _ => mk_coord 1%float 1%float 1%float)
    (mk_stress 1%float 1%float 1%float 1%float 1%float 1%float).

Definition default_memory : memory :=
  mk_memory TestConfig.default TestConfig.default.

(** The theorem at the example of the specification: [natoms] text ["3"]
    and the three-row block. *)
Lemma init_forces_stored_by_atom_id_witness :
  exists m1 m2,
    TestConfigReader.natoms ref_test_config (scalar "3") default_memory = Ok m1
    /\ TestConfigReader.init_forces ref_test_config example_junk
         (scalar example_forces_block) m1 = Ok m2
    /\ List.length (TestConfig.init_forces (test_config m2)) = 4%nat
    /\ nth_error (TestConfig.init_forces (test_config m2)) 0 = Some coord_zero
    /\ nth_error (TestConfig.init_forces (test_config m2)) 2
       = Some (mk_coord 4%float 5%float 6%float).
Proof.
  destruct (init_forces_stored_by_atom_id ref_test_config example_junk
              default_memory "3" example_forces_block
              [ (1, mk_coord 1%float 2%float 3%float);
                (2, mk_coord 4%float 5%float 6%float);
                (3, mk_coord 7%float 8%float 9%float) ])
    as (m1 & m2 & H1 & H2 & Hlen & Hzero & Hrow).
  - vm_compute. split; [discriminate | reflexivity].
  - vm_compute. reflexivity.
  - intros t c [H|[H|[H|[]]]]; injection H as <- _; vm_compute;
      split; discriminate.
  - exists m1, m2. split; [exact H1|]. split; [exact H2|].
    simpl in Hlen, Hzero, Hrow. split; [|split].
    + change (atoi "3") with 3 in Hlen. lia.
    + apply (Hzero 0%nat).
      * vm_compute. discriminate.
      * intros t c [H|[H|[H|[]]]]; injection H as <- _; discriminate.
    + apply (Hrow [(1, mk_coord 1%float 2%float 3%float)] 2
               (mk_coord 4%float 5%float 6%float)
               [(3, mk_coord 7%float 8%float 9%float)]).
      * reflexivity.
      * intros t c [H|[]]. injection H as <- _. discriminate.
Defined.

(** The example of the specification, through [parse_file]: [natoms: 3]
    followed by the block gives four entries, entry 0 zeroed, entry 2
    equal to (4.0, 5.0, 6.0), whatever the uninitialised locals hold. *)
Example init_forces_example_parse (junk : indeterminate) :
  exists m,
    TestConfigReader.parse_file ref_test_config junk
      (Some (map Parsed
         [ plain_event YAML_STREAM_START_EVENT;
           plain_event YAML_DOCUMENT_START_EVENT;
           plain_event YAML_MAPPING_START_EVENT;
           scalar "natoms"; scalar "3";
           scalar "init_forces"; scalar example_forces_block;
           plain_event YAML_MAPPING_END_EVENT;
           plain_event YAML_DOCUMENT_END_EVENT;
           plain_event YAML_STREAM_END_EVENT ]))
      default_memory = Ok (0, m)
    /\ TestConfig.init_forces (test_config m)
       = [ coord_zero;
           mk_coord 1%float 2%float 3%float;
           mk_coord 4%float 5%float 6%float;
           mk_coord 7%float 8%float 9%float ].
Proof. eexists. split; vm_compute; reflexivity. Qed.

(** ** C10: a row whose atom ID is outside the array *)

(** The leading atom ID of [line] converts, to a value outside [0..n]. *)
Definition tag_outside (n : Z) (line : string) : Prop :=
  exists v rest, scan_integer line = Some (v, rest)
                 /\ ~ (0 <= to_int v <= n).

Lemma sscanf_row_tag (line : string) (v : Z) (rest : string) (t0 : Z)
    (c0 : coord_t) :
  scan_integer line = Some (v, rest) ->
  fst (sscanf_row line t0 c0) = to_int v.
Proof. unfold sscanf_row. intros ->. reflexivity. Qed.

Lemma init_forces_rows_outside (config : config_ref) (junk : indeterminate)
    (n : Z) (line : string) (lines : list string) :
  In line lines -> tag_outside n line ->
  forall (row : nat) (m : memory),
  Z.of_nat (List.length (TestConfig.init_forces (load config m))) = n + 1 ->
  TestConfigReader.init_forces_rows config junk lines row m
  = Fault OutOfBounds.
Proof.
  intros Hin (v & rest & Hscan & Hout).
  induction lines as [|l lines IH]; [destruct Hin|].
  intros row m Hlen. simpl.
  destruct (sscanf_row l 0 (junk_xyz junk row)) as [t c] eqn:E.
  destruct (vector_store (TestConfig.init_forces (load config m)) t c)
    as [v'|flt] eqn:Ev.
  - destruct Hin as [->|Hin].
    + rewrite vector_store_Fault in Ev; [discriminate|].
      pose proof (sscanf_row_tag line v rest 0 (junk_xyz junk row) Hscan) as Ht.
      rewrite E in Ht. simpl in Ht. subst t. lia.
    + simpl. apply (IH Hin). rewrite load_update. simpl.
      rewrite (vector_store_length _ _ _ _ Ev). exact Hlen.
  - simpl. unfold vector_store in Ev.
    destruct (_ && _); [discriminate|]. injection Ev as <-. reflexivity.
Qed.

Lemma run_forces_rows_outside (config : config_ref) (junk : indeterminate)
    (n : Z) (line : string) (lines : list string) :
  In line lines -> tag_outside n line ->
  forall (row : nat) (m : memory),
  Z.of_nat (List.length (TestConfig.run_forces (load config m))) = n + 1 ->
  TestConfigReader.run_forces_rows config junk lines row m
  = Fault OutOfBounds.
Proof.
  intros Hin (v & rest & Hscan & Hout).
  induction lines as [|l lines IH]; [destruct Hin|].
  intros row m Hlen. simpl.
  destruct (sscanf_row l (junk_tag junk row) (junk_xyz junk row))
    as [t c] eqn:E.
  destruct (vector_store (TestConfig.run_forces (load config m)) t c)
    as [v'|flt] eqn:Ev.
  - destruct Hin as [->|Hin].
    + rewrite vector_store_Fault in Ev; [discriminate|].
      pose proof (sscanf_row_tag line v rest (junk_tag junk row)
                    (junk_xyz junk row) Hscan) as Ht.
      rewrite E in Ht. simpl in Ht. subst t. lia.
    + simpl. apply (IH Hin). rewrite load_update. simpl.
      rewrite (vector_store_length _ _ _ _ Ev). exact Hlen.
  - simpl. unfold vector_store in Ev.
    destruct (_ && _); [discriminate|]. injection Ev as <-. reflexivity.
Qed.

(** C10.  With [natoms = n] decoded ([n + 1] a valid size), a block of
    [init_forces] or [run_forces] that has a row whose leading atom ID
    converts to a value outside [0..n] makes the decoder store outside its
    [n + 1]-entry array: no comparison with the size guards the store, and
    the decoder ends in the out-of-bounds fault. *)
Theorem forces_store_out_of_bounds (config : config_ref)
    (junk : indeterminate) (m : memory) (block line : string) :
  -1 <= TestConfig.natoms (load config m) < INT_MAX ->
  In line (getlines block) ->
  tag_outside (TestConfig.natoms (load config m)) line ->
  TestConfigReader.init_forces config junk (scalar block) m
  = Fault OutOfBounds
  /\ TestConfigReader.run_forces config junk (scalar block) m
     = Fault OutOfBounds.
Proof.
  intros Hn Hin Hout.
  unfold TestConfigReader.init_forces, TestConfigReader.run_forces.
  rewrite vector_resize_Ok by exact Hn. simpl. split.
  - eapply init_forces_rows_outside; eauto.
    rewrite load_update. simpl. rewrite repeat_length. lia.
  - eapply run_forces_rows_outside; eauto.
    rewrite load_update. simpl. rewrite repeat_length. lia.
Qed.

Definition memory_with_natoms (n : Z) : memory :=
  mk_memory (TestConfig.set_natoms n TestConfig.default) TestConfig.default.

(** The theorem at [natoms = 2] and a block whose second row names
    atom 5. *)
Lemma forces_store_out_of_bounds_witness :
  TestConfigReader.init_forces ref_test_config example_junk
    (scalar "1 0.5 0.5 0.5
5 1.0 2.0 3.0
") (memory_with_natoms 2) = Fault OutOfBounds
  /\ TestConfigReader.run_forces ref_test_config example_junk
       (scalar "1 0.5 0.5 0.5
5 1.0 2.0 3.0
") (memory_with_natoms 2) = Fault OutOfBounds.
Proof.
  apply (forces_store_out_of_bounds ref_test_config example_junk
           (memory_with_natoms 2) _ "5 1.0 2.0 3.0").
  - vm_compute. split; [discriminate | reflexivity].
  - vm_compute. right. left. reflexivity.
  - exists 5, " 1.0 2.0 3.0"%string. split; [reflexivity|].
    vm_compute. intros [_ H]. apply H. reflexivity.
Defined.

(** ** C9: a row that does not convert *)

(** C9, at a failing input.  With [natoms = 1], the [init_forces] row
    ["1 abc"] converts its atom ID and nothing else: entry 1, zeroed by
    [resize], is overwritten with whatever the uninitialised local [xyz]
    holds.  In [run_forces] the row ["abc"] converts nothing, so the index
    of the store is the uninitialised [tag] as well. *)
Theorem forces_unparsed_row_stores_indeterminate (junk : indeterminate) :
  (exists m,
     TestConfigReader.init_forces ref_test_config junk (scalar "1 abc")
       (memory_with_natoms 1) = Ok m
     /\ TestConfig.init_forces (test_config m)
        = [coord_zero; junk_xyz junk 0%nat])
  /\ TestConfigReader.run_forces ref_test_config junk (scalar "abc")
       (memory_with_natoms 1)
     = (v <- vector_store [coord_zero; coord_zero] (junk_tag junk 0%nat)
                (junk_xyz junk 0%nat) ;;
        Ok (update ref_test_config (TestConfig.set_run_forces v)
              (memory_with_natoms 1))).
Proof.
  split.
  - eexists. split; [reflexivity|]. simpl. destruct (junk_xyz junk 0%nat).
    reflexivity.
  - unfold TestConfigReader.run_forces. simpl.
    destruct (vector_store _ _ _); reflexivity.
Qed.

(** With locals that hold ones, the entry of the unconverted row is not
    zeroed. *)
Example forces_unparsed_row_not_zeroed :
  exists m,
    TestConfigReader.init_forces ref_test_config example_junk
      (scalar "1 abc") (memory_with_natoms 1) = Ok m
    /\ nth_error (TestConfig.init_forces (test_config m)) 1
       = Some (mk_coord 1%float 1%float 1%float)
    /\ nth_error (TestConfig.init_forces (test_config m)) 1
       <> Some coord_zero.
Proof.
  eexists. split; [reflexivity|]. split; [reflexivity|].
  simpl. intros H.
  apply (eqb_false_neq 1%float 0%float); [reflexivity | reflexivity |].
  exact (f_equal (fun o => match o with Some c => x c | None => 0%float end) H).
Qed.

(** ** C7: where the list decoders store *)

(** The pairs a [prerequisites] block gives, line by line. *)
Definition prerequisite_pairs (lines : list string) : list (string * string) :=
  flat_map
    (fun line =>
       match TestConfigReader.split_prerequisite line with
       | Some key_value => [key_value]
       | None => []
       end) lines.

Lemma push_back_pre_commands (lines : list string) (m : memory) :
  fold_left
    (fun m line =>
       update ref_test_config
         (fun c => TestConfig.set_pre_commands
                     (TestConfig.pre_commands c ++ [line]) c) m) lines m
  = update ref_test_config
      (fun c => TestConfig.set_pre_commands
                  (TestConfig.pre_commands c ++ lines) c) m.
Proof.
  revert m. induction lines as [|l lines IH]; intros [tc oc]; simpl.
  - rewrite app_nil_r. destruct tc; reflexivity.
  - rewrite IH. simpl. rewrite <- app_assoc. reflexivity.
Qed.

Lemma push_back_post_commands (lines : list string) (m : memory) :
  fold_left
    (fun m line =>
       update ref_test_config
         (fun c => TestConfig.set_post_commands
                     (TestConfig.post_commands c ++ [line]) c) m) lines m
  = update ref_test_config
      (fun c => TestConfig.set_post_commands
                  (TestConfig.post_commands c ++ lines) c) m.
Proof.
  revert m. induction lines as [|l lines IH]; intros [tc oc]; simpl.
  - rewrite app_nil_r. destruct tc; reflexivity.
  - rewrite IH. simpl. rewrite <- app_assoc. reflexivity.
Qed.

Lemma push_back_bond_coeff (lines : list string) (m : memory) :
  fold_left
    (fun m line =>
       update ref_test_config
         (fun c => TestConfig.set_bond_coeff
                     (TestConfig.bond_coeff c ++ [line]) c) m) lines m
  = update ref_test_config
      (fun c => TestConfig.set_bond_coeff
                  (TestConfig.bond_coeff c ++ lines) c) m.
Proof.
  revert m. induction lines as [|l lines IH]; intros [tc oc]; simpl.
  - rewrite app_nil_r. destruct tc; reflexivity.
  - rewrite IH. simpl. rewrite <- app_assoc. reflexivity.
Qed.

Lemma push_back_prerequisites (lines : list string) (m : memory) :
  fold_left TestConfigReader.prerequisites_line lines m
  = update ref_test_config
      (fun c => TestConfig.set_prerequisites
                  (TestConfig.prerequisites c ++ prerequisite_pairs lines) c) m.
Proof.
  revert m. induction lines as [|l lines IH]; intros [tc oc]; simpl.
  - rewrite app_nil_r. destruct tc; reflexivity.
  - rewrite IH. unfold TestConfigReader.prerequisites_line.
    destruct (TestConfigReader.split_prerequisite l); simpl.
    + rewrite <- app_assoc. reflexivity.
    + reflexivity.
Qed.

(** C7, at a failing input.  For a reader bound to a [TestConfig] other
    than the global [test_config], the decoders of the four list fields
    empty the list of the bound instance and leave it empty; the parsed
    entries are appended to the lists of the global [test_config]. *)
Theorem list_decoders_fill_global_test_config (text : string) (m : memory) :
  (exists m',
     TestConfigReader.prerequisites ref_other_config (scalar text) m = Ok m'
     /\ TestConfig.prerequisites (other_config m') = []
     /\ TestConfig.prerequisites (test_config m')
        = TestConfig.prerequisites (test_config m)
          ++ prerequisite_pairs (getlines text))
  /\ (exists m',
        TestConfigReader.pre_commands ref_other_config (scalar text) m = Ok m'
        /\ TestConfig.pre_commands (other_config m') = []
        /\ TestConfig.pre_commands (test_config m')
           = TestConfig.pre_commands (test_config m) ++ getlines text)
  /\ (exists m',
        TestConfigReader.post_commands ref_other_config (scalar text) m = Ok m'
        /\ TestConfig.post_commands (other_config m') = []
        /\ TestConfig.post_commands (test_config m')
           = TestConfig.post_commands (test_config m) ++ getlines text)
  /\ (exists m',
        TestConfigReader.bond_coeff ref_other_config (scalar text) m = Ok m'
        /\ TestConfig.bond_coeff (other_config m') = []
        /\ TestConfig.bond_coeff (test_config m')
           = TestConfig.bond_coeff (test_config m) ++ getlines text).
Proof.
  unfold TestConfigReader.prerequisites, TestConfigReader.pre_commands,
    TestConfigReader.post_commands, TestConfigReader.bond_coeff,
    TestConfigReader.text.
  rewrite push_back_prerequisites, push_back_pre_commands,
    push_back_post_commands, push_back_bond_coeff.
  destruct m as [tc oc]. simpl.
  repeat split; eexists; (split; [reflexivity|]); split; reflexivity.
Qed.

(** A reader bound to another instance decodes ["units real"]: the bound
    instance holds no command, the global one holds it. *)
Example pre_commands_bound_elsewhere :
  exists m',
    TestConfigReader.pre_commands ref_other_config (scalar "units real")
      default_memory = Ok m'
    /\ TestConfig.pre_commands (other_config m') = []
    /\ TestConfig.pre_commands (test_config m') = ["units real"%string].
Proof. eexists. repeat split. Qed.

(** X1.  For the reader of [main], bound to [test_config] itself, the
    four list decoders leave exactly the entries of the block they are
    given, whatever the lists held before. *)
Lemma list_decoders_on_test_config (text : string) (m : memory) :
  (exists m',
     TestConfigReader.prerequisites ref_test_config (scalar text) m = Ok m'
     /\ TestConfig.prerequisites (test_config m')
        = prerequisite_pairs (getlines text))
  /\ (exists m',
        TestConfigReader.pre_commands ref_test_config (scalar text) m = Ok m'
        /\ TestConfig.pre_commands (test_config m') = getlines text)
  /\ (exists m',
        TestConfigReader.post_commands ref_test_config (scalar text) m = Ok m'
        /\ TestConfig.post_commands (test_config m') = getlines text)
  /\ (exists m',
        TestConfigReader.bond_coeff ref_test_config (scalar text) m = Ok m'
        /\ TestConfig.bond_coeff (test_config m') = getlines text).
Proof.
  unfold TestConfigReader.prerequisites, TestConfigReader.pre_commands,
    TestConfigReader.post_commands, TestConfigReader.bond_coeff,
    TestConfigReader.text.
  rewrite push_back_prerequisites, push_back_pre_commands,
    push_back_post_commands, push_back_bond_coeff.
  destruct m as [tc oc]. simpl.
  repeat split; eexists; (split; [reflexivity|]); reflexivity.
Qed.

(** ** C1: a document that does not begin with a mapping *)

(** A document whose only content is the scalar [text]. *)
Definition bare_scalar_document (text : string) : list parser_step :=
  map Parsed
    [ plain_event YAML_STREAM_START_EVENT;
      plain_event YAML_DOCUMENT_START_EVENT;
      scalar text;
      plain_event YAML_DOCUMENT_END_EVENT;
      plain_event YAML_STREAM_END_EVENT ].

(** C1, at a failing input.  A file that opens and holds a bare scalar
    takes the reader to [ERROR], which [parse_file] turns into [STOP] and
    answers with 0; no consumer runs, so the memory is untouched, and
    [main] goes on to [RUN_ALL_TESTS()] instead of returning 2. *)
Theorem bare_scalar_document_parses_with_0 (text prog path : string)
    (junk : indeterminate) (m : memory) :
  TestConfigReader.parse_file ref_test_config junk
    (Some (bare_scalar_document text)) m = Ok (0, m)
  /\ main [prog; path] (fun _ => Some (bare_scalar_document text)) junk m
     = Ok (RUN_ALL_TESTS false, m).
Proof. split; reflexivity. Qed.

(** [parse_file] answers 1 only when the file cannot be opened. *)
Lemma parse_file_nonzero_only_unopened (config : config_ref)
    (junk : indeterminate) (file : option (list parser_step))
    (m m' : memory) (rc : Z) :
  TestConfigReader.parse_file config junk file m = Ok (rc, m') ->
  rc <> 0 -> file = None /\ rc = 1 /\ m' = m.
Proof.
  unfold TestConfigReader.parse_file, YamlReader.parse_file.
  destruct file as [events|].
  - destruct (YamlReader.loop _ _ _ _); simpl; [|discriminate].
    intros [= <- <-] H. contradiction.
  - intros [= <- <-] _. auto.
Qed.

(** [main] returns 2 only when the fixture file cannot be opened. *)
Lemma main_returns_2_only_unopened (argv : list string)
    (fopen : string -> option (list parser_step)) (junk : indeterminate)
    (m m' : memory) :
  main argv fopen junk m = Ok (Return 2, m') ->
  fopen (nth 1 argv EmptyString) = None.
Proof.
  unfold main.
  destruct (negb (Nat.eqb _ 2) && negb (Nat.eqb _ 4)); [discriminate|].
  destruct (TestConfigReader.parse_file _ _ _ _) as [[rc m1]|] eqn:E;
    simpl; [|discriminate].
  destruct (rc =? 0) eqn:Hrc; simpl.
  - destruct (Nat.eqb _ 4); [|discriminate].
    destruct (String.eqb _ "--gen"); [discriminate|].
    destruct (String.eqb _ "--stats"); discriminate.
  - intros _. apply Z.eqb_neq in Hrc.
    destruct (parse_file_nonzero_only_unopened _ _ _ _ _ _ E Hrc) as [H _].
    exact H.
Qed.

(** ** C8: the tolerance of the intel variant *)

(** The test of the loop: the command has ["bond_modify table"] and does
    not have ["bond_modify table 0"]. *)
Definition table_not_disabled (post_cmd : string) : bool :=
  match str_find "bond_modify table" post_cmd,
        str_find "bond_modify table 0" post_cmd with
  | Some _, None => true
  | _, _ => false
  end.

(** [epsilon *= 1000000.0], [n] times. *)
Fixpoint relaxed (n : nat) (epsilon : double) : double :=
  match n with
  | O => epsilon
  | S n' => relaxed n' (PrimFloat.mul epsilon 1000000.0%float)
  end.

(** C8, as the code has it.  The tolerance of the intel variant is
    [5 * epsilon] multiplied by 1,000,000 once for every post command that
    has ["bond_modify table"] and has not ["bond_modify table 0"]: it
    stays [5 * epsilon] when there is none, and is
    [5 * epsilon * 1000000] when there is exactly one. *)
Theorem intel_epsilon_relaxed_per_command (cfg : TestConfig.t) :
  intel_epsilon cfg
  = relaxed
      (List.length (filter table_not_disabled (TestConfig.post_commands cfg)))
      (PrimFloat.mul 5.0%float (TestConfig.epsilon cfg)).
Proof.
  unfold intel_epsilon.
  generalize (PrimFloat.mul 5.0%float (TestConfig.epsilon cfg)) as epsilon.
  induction (TestConfig.post_commands cfg) as [|cmd cmds IH]; intros epsilon;
    simpl; [reflexivity|].
  rewrite IH. unfold table_not_disabled.
  destruct (str_find "bond_modify table" cmd);
    destruct (str_find "bond_modify table 0" cmd); reflexivity.
Qed.

(** A fixture with two tabulation commands. *)
Definition two_tables : TestConfig.t :=
  TestConfig.set_post_commands
    ["bond_modify table 12"%string; "bond_modify table 16"%string]
    TestConfig.default.

(** C8 as stated fails when two post commands qualify: the tolerance is
    multiplied twice. *)
Lemma intel_epsilon_two_tables :
  (exists post_cmd,
     In post_cmd (TestConfig.post_commands two_tables)
     /\ str_find "bond_modify table" post_cmd <> None
     /\ str_find "bond_modify table 0" post_cmd = None)
  /\ intel_epsilon two_tables
     <> PrimFloat.mul (PrimFloat.mul 5.0%float (TestConfig.epsilon two_tables))
          1000000.0%float
  /\ intel_epsilon two_tables
     = PrimFloat.mul
         (PrimFloat.mul
            (PrimFloat.mul 5.0%float (TestConfig.epsilon two_tables))
            1000000.0%float) 1000000.0%float.
Proof.
  split; [|split].
  - exists "bond_modify table 12"%string.
    split; [left; reflexivity|]. split; [discriminate | reflexivity].
  - apply eqb_false_neq; reflexivity.
  - reflexivity.
Qed.

(** ** C6: the tolerances of the plain variant *)

(** The tolerance the plain variant passes for a comparison of group [g]:
    ten times the fixture's epsilon for the forces after the run, the
    fixture's epsilon for everything else. *)
Definition plain_tolerance (cfg : TestConfig.t) (g : group) : double :=
  match g with
  | run_forces_stats => PrimFloat.mul ten (TestConfig.epsilon cfg)
  | _ => TestConfig.epsilon cfg
  end.

Definition tolerance_is (tol : group -> double) (e : expectation) : Prop :=
  eps e = tol (of_group e).

Lemma EXPECT_tolerance (tol : group -> double) (g : group)
    (val1 val2 : double) (c : checks) :
  Forall (tolerance_is tol) (snd c) ->
  Forall (tolerance_is tol) (snd (EXPECT_FP_LE_WITH_EPS g val1 val2 (tol g) c)).
Proof.
  intros H. unfold EXPECT_FP_LE_WITH_EPS. simpl.
  apply Forall_app. split; [exact H|]. constructor; [|constructor].
  reflexivity.
Qed.

Lemma compare_forces_tolerance (tol : group -> double) (g : group) (n : nat)
    (f : list coord_t) (tag : list Z) (f_ref : list coord_t) :
  forall (i : Z) (c c' : checks),
  compare_forces g n i f tag f_ref (tol g) c = Ok c' ->
  Forall (tolerance_is tol) (snd c) -> Forall (tolerance_is tol) (snd c').
Proof.
  induction n as [|n IH]; intros i c c'; simpl.
  - intros [= <-]. auto.
  - destruct (vector_at f i) as [fi|]; simpl; [|discriminate].
    destruct (vector_at tag i) as [t|]; simpl; [|discriminate].
    destruct (vector_at f_ref t) as [ref|]; simpl; [|discriminate].
    intros H Hc. apply (IH _ _ _ H).
    repeat apply EXPECT_tolerance. exact Hc.
Qed.

Lemma compare_stress_tolerance (tol : group -> double) (g : group)
    (stress expected : stress_t) (c : checks) :
  Forall (tolerance_is tol) (snd c) ->
  Forall (tolerance_is tol) (snd (compare_stress g stress expected (tol g) c)).
Proof.
  intros H. unfold compare_stress. repeat apply EXPECT_tolerance. exact H.
Qed.

(** From the two ways a test can have ended with the log [log], keep
    those the equation allows and name the log it made. *)
Ltac ended H :=
  destruct H as [H|H]; try discriminate H; injection H as <-.

(** C6, as the code has it.  In the plain variant every expectation made,
    whether the test runs to its end or stops at an assertion, has the
    tolerance [plain_tolerance]: the fixture's [epsilon] for the stress
    comparisons, for the forces before the run and for all energy
    comparisons, those after the run included, and [10 * epsilon] for the
    forces after the run. *)
Theorem plain_tolerances (lmp : LAMMPS.t) (cfg : TestConfig.t)
    (log : list expectation) :
  plain lmp cfg = Ok (Finished log) \/ plain lmp cfg = Ok (Aborted log) ->
  forall e, In e log ->
    eps e = match of_group e with
            | run_forces_stats => PrimFloat.mul ten (TestConfig.epsilon cfg)
            | _ => TestConfig.epsilon cfg
            end.
Proof.
  intros H.
  enough (Hall : Forall (tolerance_is (plain_tolerance cfg)) log).
  { intros e He. rewrite Forall_forall in Hall. exact (Hall e He). }
  unfold plain in H. destruct (init_lammps lmp cfg) as [script|];
    [|destruct H; discriminate].
  unfold compare_all in H.
  destruct (negb (LAMMPS.natoms _ =? _));
    [ended H; constructor|].
  destruct (true && _);
    [ended H; constructor|].
  destruct (compare_forces init_forces_stats _ _ _ _ _ _ _) as [c1|] eqn:E1;
    simpl in H; [|destruct H; discriminate].
  assert (H1 : Forall (tolerance_is (plain_tolerance cfg)) (snd c1)).
  { apply (compare_forces_tolerance (plain_tolerance cfg) _ _ _ _ _ _ _ _ E1).
    constructor. }
  match type of H with
  | context [EXPECT_FP_LE_WITH_EPS init_energy_stats ?a ?b ?e ?c] =>
      assert (H2 : Forall (tolerance_is (plain_tolerance cfg))
                     (snd (EXPECT_FP_LE_WITH_EPS init_energy_stats a b e c)))
  end.
  { apply (EXPECT_tolerance (plain_tolerance cfg) init_energy_stats).
    apply (compare_stress_tolerance (plain_tolerance cfg) init_stress_stats).
    exact H1. }
  destruct (negb (_ =? _));
    [ended H; exact H2|].
  destruct (compare_forces run_forces_stats _ _ _ _ _ _ _) as [c2|] eqn:E2;
    simpl in H; [|destruct H; discriminate].
  assert (H3 : Forall (tolerance_is (plain_tolerance cfg)) (snd c2)).
  { apply (compare_forces_tolerance (plain_tolerance cfg) _ _ _ _ _ _ _ _ E2).
    exact H2. }
  ended H.
  repeat (apply Forall_app; split); try exact H3; repeat constructor.
Qed.

(** An engine with every style, holding one atom with tag 1 and the unit
    force along x, whatever it is told. *)
Definition one_atom : LAMMPS.snapshot :=
  LAMMPS.mk_snapshot 1 1 [1] [mk_coord 1%float 0%float 0%float]
    0%float stress_zero 0%float.

Definition example_lammps : LAMMPS.t :=
  LAMMPS.mk false EmptyString "8 Apr 2020" (fun _ _ => true) (fun _ => one_atom).

(** The fixture that expects just that. *)
Definition example_fixture : TestConfig.t :=
  TestConfig.set_natoms 1
    (TestConfig.set_init_forces
       [coord_zero; mk_coord 1%float 0%float 0%float]
       (TestConfig.set_run_forces
          [coord_zero; mk_coord 1%float 0%float 0%float]
          TestConfig.default)).

(** C6 as stated fails on the energy: the comparison of the energy after
    the short run is made with [epsilon], not with [10 * epsilon]. *)
Lemma plain_run_energy_uses_epsilon :
  exists log,
    plain example_lammps example_fixture = Ok (Finished log)
    /\ In (mk_expectation run_energy_stats 0%float
             (TestConfig.epsilon example_fixture)) log
    /\ TestConfig.epsilon example_fixture
       <> PrimFloat.mul ten (TestConfig.epsilon example_fixture).
Proof.
  eexists. split; [vm_compute; reflexivity|]. split.
  - simpl. repeat (first [left; reflexivity | right]).
  - apply eqb_false_neq; reflexivity.
Qed.

(** The theorem at the one-atom engine and its fixture. *)
Lemma plain_tolerances_witness :
  exists log,
    plain example_lammps example_fixture = Ok (Finished log)
    /\ Forall
         (fun e =>
            eps e = match of_group e with
                    | run_forces_stats =>
                        PrimFloat.mul ten (TestConfig.epsilon example_fixture)
                    | _ => TestConfig.epsilon example_fixture
                    end) log.
Proof.
  eexists. split; [vm_compute; reflexivity|].
  apply Forall_forall.
  apply (plain_tolerances example_lammps example_fixture).
  left. vm_compute. reflexivity.
Defined.

(** ** Strings *)

Lemma append_assoc (a b c : string) :
  ((a ++ b) ++ c)%string = (a ++ (b ++ c))%string.
Proof. induction a as [|ch a IH]; simpl; [reflexivity | rewrite IH; reflexivity]. Qed.

Lemma append_nil_r (a : string) : (a ++ "")%string = a.
Proof. induction a as [|ch a IH]; simpl; [reflexivity | rewrite IH; reflexivity]. Qed.

(** No character of [s] satisfies [want]. *)
Definition free_of (want : ascii -> bool) (s : string) : Prop :=
  find_char want s = None.

Definition is_LF (c : ascii) : bool := Ascii.eqb c "010"%char.
Definition is_blank (c : ascii) : bool := mem_char c blank_tab.

Lemma free_of_cons (want : ascii -> bool) (c : ascii) (s : string) :
  free_of want (String c s) -> want c = false /\ free_of want s.
Proof.
  unfold free_of. simpl. destruct (want c); [discriminate|].
  destruct (find_char want s); [discriminate|]. auto.
Qed.

Lemma find_char_app (want : ascii -> bool) (s r : string) (c : ascii) :
  free_of want s -> want c = true ->
  find_char want (s ++ String c r) = Some (String.length s).
Proof.
  intros Hs Hc. induction s as [|d s IH]; simpl.
  - rewrite Hc. reflexivity.
  - apply free_of_cons in Hs. destruct Hs as [Hd Hs].
    rewrite Hd, (IH Hs). reflexivity.
Qed.

Lemma drop_app (s r : string) : drop (String.length s) (s ++ r) = r.
Proof. induction s as [|c s IH]; simpl; [destruct r|]; auto. Qed.

Lemma substring_app (s r : string) : substring 0 (String.length s) (s ++ r) = s.
Proof.
  induction s as [|c s IH]; simpl.
  - destruct r; reflexivity.
  - rewrite IH. reflexivity.
Qed.

(** ** getline over a written block *)

Lemma getlines_line (s rest : string) :
  free_of is_LF s -> getlines (s ++ LF ++ rest) = s :: getlines rest.
Proof.
  intros Hs. induction s as [|c s IH]; simpl.
  - reflexivity.
  - apply free_of_cons in Hs. destruct Hs as [Hc Hs].
    unfold is_LF in Hc. rewrite Hc. simpl in IH. rewrite (IH Hs).
    reflexivity.
Qed.

(** The lines, each followed by a newline. *)
Fixpoint join_lines (lines : list string) : string :=
  match lines with
  | [] => EmptyString
  | l :: ls => (l ++ LF ++ join_lines ls)%string
  end.

Lemma lines_block_join (lines : list string) :
  lines_block lines = join_lines lines.
Proof.
  unfold lines_block.
  assert (H : forall acc,
             fold_left (fun block line => (block ++ line ++ LF)%string)
               lines acc = (acc ++ join_lines lines)%string).
  { induction lines as [|l ls IH]; intros acc; cbn [fold_left join_lines].
    - rewrite append_nil_r. reflexivity.
    - rewrite IH, !append_assoc. reflexivity. }
  apply (H EmptyString).
Qed.

Lemma getlines_join (lines : list string) :
  Forall (free_of is_LF) lines -> getlines (join_lines lines) = lines.
Proof.
  induction 1 as [|l ls Hl _ IH]; [reflexivity|].
  cbn [join_lines]. rewrite (getlines_line l _ Hl), IH. reflexivity.
Qed.



Lemma free_of_app (want : ascii -> bool) (a b : string) :
  free_of want a -> free_of want b -> free_of want (a ++ b).
Proof.
  intros Ha Hb. induction a as [|c a IH]; simpl; [exact Hb|].
  apply free_of_cons in Ha. destruct Ha as [Hc Ha].
  unfold free_of in *. simpl. rewrite Hc, (IH Ha). reflexivity.
Qed.

Lemma drop_0 (s : string) : drop 0 s = s.
Proof. destruct s; reflexivity. Qed.

Lemma drop_S_app (a r : string) (c : ascii) :
  drop (S (String.length a)) (a ++ String c r) = r.
Proof. induction a as [|d a IH]; simpl; [destruct r; reflexivity | exact IH]. Qed.

Lemma find_char_second (want : ascii -> bool) (a c : ascii) (r : string) :
  want a = false -> want c = true ->
  find_char want (String a (String c r)) = Some 1%nat.
Proof. intros Ha Hc. simpl. rewrite Ha, Hc. reflexivity. Qed.





(** ** The reader on a flat mapping *)

(** The consumers called for the pairs of a mapping, in order. *)
Fixpoint decode_pairs (consumers : list (string * YamlReader.EventConsumer))
    (kvs : list (string * string)) (m : memory) : result memory :=
  match kvs with
  | [] => Ok m
  | kv :: rest =>
      km <- YamlReader.consume_key_value consumers (fst kv)
              (scalar (snd kv)) m ;;
      decode_pairs consumers rest (snd km)
  end.

(** The events of the pairs of a mapping. *)
Definition mapping_events (kvs : list (string * string)) : list yaml_event_t :=
  flat_map (fun kv => [scalar (fst kv); scalar (snd kv)]) kvs.

Lemma loop_mapping (consumers : list (string * YamlReader.EventConsumer))
    (kvs : list (string * string)) :
  forall (acc : bool) (key0 : string) (m : memory),
  YamlReader.loop consumers
    (map Parsed (mapping_events kvs ++ YamlWriter.close_events))
    (YamlReader.mk YamlReader.ACCEPT_KEY acc key0) m
  = decode_pairs consumers kvs m.
Proof.
  induction kvs as [|[k v] kvs IH]; intros acc key0 m.
  - reflexivity.
  - cbn [mapping_events flat_map app map YamlReader.loop decode_pairs fst snd].
    unfold YamlReader.iteration. cbn.
    destruct (YamlReader.consume_key_value consumers k (scalar v) m)
      as [[b m1]|flt]; cbn; [|reflexivity].
    apply IH.
Qed.

(** A document that is one flat mapping of scalars is decoded pair by
    pair, and [parse_file] answers 0. *)
Lemma parse_file_mapping (consumers : list (string * YamlReader.EventConsumer))
    (kvs : list (string * string)) (m : memory) :
  YamlReader.parse_file consumers
    (Some (map Parsed
             (YamlWriter.open_events ++ mapping_events kvs
                ++ YamlWriter.close_events))) m
  = (m' <- decode_pairs consumers kvs m ;; Ok (0, m')).
Proof.
  unfold YamlReader.parse_file.
  cbn [YamlWriter.open_events app map YamlReader.loop].
  unfold YamlReader.iteration. cbn.
  change (flat_map (fun kv : string * string =>
                      [scalar (fst kv); scalar (snd kv)]) kvs)
    with (mapping_events kvs).
  rewrite loop_mapping. reflexivity.
Qed.

(** ** C3: Writer then Reader *)

(** The pairs [generate] writes, from the instance, the clock, the fixture,
    the atom count, the snapshots before and after the run, and the two
    force blocks. *)
Definition written_pairs (lmp : LAMMPS.t) (now : string) (cfg : TestConfig.t)
    (natoms : Z) (s0 s1 : LAMMPS.snapshot) (init_block run_block : string)
    : list (string * string) :=
  [ ("lammps_version", LAMMPS.version lmp);
    ("date_generated", date_text now);
    ("epsilon", format_g 15 (TestConfig.epsilon cfg));
    ("prerequisites", prerequisites_block (TestConfig.prerequisites cfg));
    ("pre_commands", lines_block (TestConfig.pre_commands cfg));
    ("post_commands", lines_block (TestConfig.post_commands cfg));
    ("input_file", TestConfig.input_file cfg);
    ("bond_style", TestConfig.bond_style cfg);
    ("bond_coeff", lines_block (TestConfig.bond_coeff cfg));
    ("natoms", format_d false 0 natoms);
    ("init_energy", format_g 15 (LAMMPS.energy s0));
    ("init_stress", stress_text (LAMMPS.virial s0));
    ("init_forces", init_block);
    ("run_energy", format_g 15 (LAMMPS.energy s1));
    ("run_stress", stress_text (LAMMPS.virial s1));
    ("run_forces", run_block) ]%string.

Lemma generate_written (lmp : LAMMPS.t) (now : string) (cfg : TestConfig.t)
    (events : list yaml_event_t) :
  generate lmp now cfg = Ok (Some events) ->
  exists script init_block run_block,
    init_lammps lmp cfg = Some script
    /\ forces_block
         (Z.to_nat (wrap32 (LAMMPS.natoms (LAMMPS.after lmp script)))) 0
         (LAMMPS.after lmp script) EmptyString = Ok init_block
    /\ forces_block
         (Z.to_nat (wrap32 (LAMMPS.natoms (LAMMPS.after lmp script)))) 0
         (LAMMPS.after lmp (script ++ run_lammps)) EmptyString = Ok run_block
    /\ events
       = YamlWriter.open_events
         ++ mapping_events
              (written_pairs lmp now cfg
                 (wrap32 (LAMMPS.natoms (LAMMPS.after lmp script)))
                 (LAMMPS.after lmp script)
                 (LAMMPS.after lmp (script ++ run_lammps))
                 init_block run_block)
         ++ YamlWriter.close_events.
Proof.
  unfold generate. destruct (init_lammps lmp cfg) as [script|]; [|discriminate].
  destruct (forces_block _ 0 (LAMMPS.after lmp script) _) as [b0|] eqn:E0;
    [|discriminate].
  cbn [bind].
  destruct (forces_block _ 0 (LAMMPS.after lmp (script ++ run_lammps)) _)
    as [b1|] eqn:E1; [|discriminate].
  cbn [bind]. intros [= <-]. exists script, b0, b1.
  repeat split; assumption.
Qed.

Lemma Ok_inj {A} (a b : A) : Ok a = Ok b -> a = b.
Proof. intros H. injection H as H. exact H. Qed.

(** The stores of the loop of a force decoder from row number [row] on,
    on the array alone: [tag0] gives what [tag] holds before [sscanf]. *)
Fixpoint stored_rows (tag0 : nat -> Z) (junk : indeterminate)
    (lines : list string) (row : nat) (v : list coord_t)
    : result (list coord_t) :=
  match lines with
  | [] => Ok v
  | line :: rest =>
      let (tag, xyz) := sscanf_row line (tag0 row) (junk_xyz junk row) in
      v' <- vector_store v tag xyz ;;
      stored_rows tag0 junk rest (S row) v'
  end.

(** The array a force decoder builds for [natoms] and the text [block]. *)
Definition decoded_forces (tag0 : nat -> Z) (junk : indeterminate)
    (natoms : Z) (block : string) : result (list coord_t) :=
  v <- vector_resize natoms ;;
  stored_rows tag0 junk (getlines block) O v.

Lemma update_set_init_forces_same (r : config_ref) (m : memory) :
  update r (TestConfig.set_init_forces (TestConfig.init_forces (load r m))) m
  = m.
Proof. destruct r, m as [[] []]; reflexivity. Qed.

Lemma update_set_run_forces_same (r : config_ref) (m : memory) :
  update r (TestConfig.set_run_forces (TestConfig.run_forces (load r m))) m
  = m.
Proof. destruct r, m as [[] []]; reflexivity. Qed.

Lemma init_forces_rows_stored (config : config_ref) (junk : indeterminate)
    (lines : list string) :
  forall (row : nat) (m : memory),
  TestConfigReader.init_forces_rows config junk lines row m
  = (v <- stored_rows (fun _ => 0) junk lines row
            (TestConfig.init_forces (load config m)) ;;
     Ok (update config (TestConfig.set_init_forces v) m)).
Proof.
  induction lines as [|l ls IH]; intros row m; cbn [stored_rows
    TestConfigReader.init_forces_rows bind].
  - rewrite update_set_init_forces_same. reflexivity.
  - destruct (sscanf_row _ _ _) as [t c].
    destruct (vector_store _ _ _) as [v|]; cbn [bind]; [|reflexivity].
    rewrite IH, load_update. cbn [TestConfig.init_forces
      TestConfig.set_init_forces].
    destruct (stored_rows _ _ _ _ _); cbn [bind]; [|reflexivity].
    rewrite update_set_init_forces_twice. reflexivity.
Qed.

Lemma run_forces_rows_stored (config : config_ref) (junk : indeterminate)
    (lines : list string) :
  forall (row : nat) (m : memory),
  TestConfigReader.run_forces_rows config junk lines row m
  = (v <- stored_rows (junk_tag junk) junk lines row
            (TestConfig.run_forces (load config m)) ;;
     Ok (update config (TestConfig.set_run_forces v) m)).
Proof.
  induction lines as [|l ls IH]; intros row m; cbn [stored_rows
    TestConfigReader.run_forces_rows bind].
  - rewrite update_set_run_forces_same. reflexivity.
  - destruct (sscanf_row _ _ _) as [t c].
    destruct (vector_store _ _ _) as [v|]; cbn [bind]; [|reflexivity].
    rewrite IH, load_update. cbn [TestConfig.run_forces
      TestConfig.set_run_forces].
    destruct (stored_rows _ _ _ _ _); cbn [bind]; [|reflexivity].
    rewrite update_set_run_forces_twice. reflexivity.
Qed.

(** The [init_forces] decoder replaces the array of the bound instance by
    the decoded one and touches nothing else. *)
Lemma init_forces_decoded (config : config_ref) (junk : indeterminate)
    (block : string) (m : memory) :
  TestConfigReader.init_forces config junk (scalar block) m
  = (v <- decoded_forces (fun _ => 0) junk
            (TestConfig.natoms (load config m)) block ;;
     Ok (update config (TestConfig.set_init_forces v) m)).
Proof.
  unfold TestConfigReader.init_forces, decoded_forces, TestConfigReader.text.
  cbn [scalar scalar_value].
  destruct (vector_resize _) as [v0|]; cbn [bind]; [|reflexivity].
  rewrite init_forces_rows_stored, load_update.
  cbn [TestConfig.init_forces TestConfig.set_init_forces].
  destruct (stored_rows _ _ _ _ _); cbn [bind]; [|reflexivity].
  rewrite update_set_init_forces_twice. reflexivity.
Qed.

Lemma run_forces_decoded (config : config_ref) (junk : indeterminate)
    (block : string) (m : memory) :
  TestConfigReader.run_forces config junk (scalar block) m
  = (v <- decoded_forces (junk_tag junk) junk
            (TestConfig.natoms (load config m)) block ;;
     Ok (update config (TestConfig.set_run_forces v) m)).
Proof.
  unfold TestConfigReader.run_forces, decoded_forces, TestConfigReader.text.
  cbn [scalar scalar_value].
  destruct (vector_resize _) as [v0|]; cbn [bind]; [|reflexivity].
  rewrite run_forces_rows_stored, load_update.
  cbn [TestConfig.run_forces TestConfig.set_run_forces].
  destruct (stored_rows _ _ _ _ _); cbn [bind]; [|reflexivity].
  rewrite update_set_run_forces_twice. reflexivity.
Qed.

Lemma decode_written (junk : indeterminate) (lmp : LAMMPS.t) (now : string)
    (cfg : TestConfig.t) (natoms : Z) (s0 s1 : LAMMPS.snapshot)
    (init_block run_block : string) (m m' : memory) :
  decode_pairs (TestConfigReader.consumers ref_test_config junk)
    (written_pairs lmp now cfg natoms s0 s1 init_block run_block) m = Ok m' ->
  TestConfig.lammps_version (test_config m') = LAMMPS.version lmp
  /\ TestConfig.date_generated (test_config m') = date_text now
  /\ TestConfig.epsilon (test_config m')
     = atof (format_g 15 (TestConfig.epsilon cfg))
  /\ TestConfig.prerequisites (test_config m')
     = prerequisite_pairs
         (getlines (prerequisites_block (TestConfig.prerequisites cfg)))
  /\ TestConfig.pre_commands (test_config m')
     = getlines (lines_block (TestConfig.pre_commands cfg))
  /\ TestConfig.post_commands (test_config m')
     = getlines (lines_block (TestConfig.post_commands cfg))
  /\ TestConfig.input_file (test_config m') = TestConfig.input_file cfg
  /\ TestConfig.bond_style (test_config m') = TestConfig.bond_style cfg
  /\ TestConfig.bond_coeff (test_config m')
     = getlines (lines_block (TestConfig.bond_coeff cfg))
  /\ TestConfig.natoms (test_config m') = atoi (format_d false 0 natoms)
  /\ TestConfig.init_energy (test_config m')
     = atof (format_g 15 (LAMMPS.energy s0))
  /\ TestConfig.run_energy (test_config m')
     = atof (format_g 15 (LAMMPS.energy s1))
  /\ TestConfig.init_stress (test_config m')
     = sscanf_stress (stress_text (LAMMPS.virial s0)) (junk_stress junk)
  /\ TestConfig.run_stress (test_config m')
     = sscanf_stress (stress_text (LAMMPS.virial s1)) (junk_stress junk)
  /\ decoded_forces (fun _ => 0) junk (atoi (format_d false 0 natoms))
       init_block = Ok (TestConfig.init_forces (test_config m'))
  /\ decoded_forces (junk_tag junk) junk (atoi (format_d false 0 natoms))
       run_block = Ok (TestConfig.run_forces (test_config m')).
Proof.
  intros H.
  lazy beta iota zeta delta
    [decode_pairs written_pairs YamlReader.consume_key_value
     YamlReader.lookup TestConfigReader.consumers String.eqb Ascii.eqb
     Bool.eqb fst snd bind
     TestConfigReader.lammps_version TestConfigReader.date_generated
     TestConfigReader.epsilon TestConfigReader.prerequisites
     TestConfigReader.pre_commands TestConfigReader.post_commands
     TestConfigReader.input_file TestConfigReader.bond_style
     TestConfigReader.bond_coeff TestConfigReader.natoms
     TestConfigReader.init_energy TestConfigReader.run_energy
     TestConfigReader.init_stress TestConfigReader.run_stress
     TestConfigReader.text scalar_value] in H.
  rewrite push_back_bond_coeff, push_back_post_commands,
    push_back_pre_commands, push_back_prerequisites in H.
  destruct (TestConfigReader.init_forces _ _ _ _) as [m1|] eqn:E1;
    [|discriminate].
  rewrite init_forces_decoded in E1.
  match type of E1 with
  | context [TestConfig.natoms (load ref_test_config ?M)] =>
      change (TestConfig.natoms (load ref_test_config M))
        with (atoi (format_d false 0 natoms)) in E1
  end.
  destruct (decoded_forces (fun _ => 0) _ _ _) as [v1|]; [|discriminate].
  cbn [bind] in E1. apply Ok_inj in E1. subst m1.
  lazy beta iota in H.
  destruct (TestConfigReader.run_forces _ _ _ _) as [m2|] eqn:E2;
    [|discriminate].
  rewrite run_forces_decoded in E2.
  match type of E2 with
  | context [TestConfig.natoms (load ref_test_config ?M)] =>
      change (TestConfig.natoms (load ref_test_config M))
        with (atoi (format_d false 0 natoms)) in E2
  end.
  destruct (decoded_forces (junk_tag junk) _ _ _) as [v2|]; [|discriminate].
  cbn [bind] in E2. apply Ok_inj in E2. subst m2.
  apply Ok_inj in H. subst m'.
  destruct m as [tc oc].
  do 14 (split; [reflexivity|]).
  split; reflexivity.
Qed.

(** ** ["%d"] read back by [atoi] *)

Fixpoint all_digits (s : string) : bool :=
  match s with
  | EmptyString => true
  | String c r => isdigit c && all_digits r
  end.

Lemma digit_char_isdigit (d : Z) : 0 <= d < 10 -> isdigit (digit_char d) = true.
Proof.
  intros H.
  assert (C : d = 0 \/ d = 1 \/ d = 2 \/ d = 3 \/ d = 4 \/ d = 5 \/ d = 6
              \/ d = 7 \/ d = 8 \/ d = 9) by lia.
  repeat (destruct C as [->|C]; [reflexivity|]). subst. reflexivity.
Qed.

Lemma digit_char_value (d : Z) :
  0 <= d < 10 -> Z.of_nat (nat_of_ascii (digit_char d)) - 48 = d.
Proof.
  intros H.
  assert (C : d = 0 \/ d = 1 \/ d = 2 \/ d = 3 \/ d = 4 \/ d = 5 \/ d = 6
              \/ d = 7 \/ d = 8 \/ d = 9) by lia.
  repeat (destruct C as [->|C]; [reflexivity|]). subst. reflexivity.
Qed.

Lemma digits_all_digits (k : nat) :
  forall v acc, all_digits acc = true -> all_digits (digits k v acc) = true.
Proof.
  induction k as [|k IH]; intros v acc H; cbn [digits]; [exact H|].
  apply IH. cbn [all_digits]. rewrite H, digit_char_isdigit; [reflexivity|].
  apply Z.mod_pos_bound. lia.
Qed.

Lemma digits_value (k : nat) :
  forall v a acc,
  decimal_value a (digits k v acc)
  = decimal_value (a * 10 ^ Z.of_nat k + v mod 10 ^ Z.of_nat k) acc.
Proof.
  induction k as [|k IH]; intros v a acc.
  - simpl. rewrite Z.mod_1_r. f_equal. lia.
  - cbn [digits]. rewrite IH. cbn [decimal_value].
    rewrite digit_char_value by (apply Z.mod_pos_bound; lia).
    f_equal. rewrite Nat2Z.inj_succ, Z.pow_succ_r by lia.
    rewrite (Z.rem_mul_r v 10 (10 ^ Z.of_nat k)) by lia. ring.
Qed.

Lemma strip_leading_zeros_value (s : string) :
  decimal_value 0 (strip_leading_zeros s) = decimal_value 0 s.
Proof.
  induction s as [|c s IH]; [reflexivity|]. cbn [strip_leading_zeros].
  destruct (Ascii.eqb c "0"%char) eqn:E; [|reflexivity].
  apply Ascii.eqb_eq in E. subst c.
  destruct s as [|d s]; [reflexivity|]. rewrite IH. reflexivity.
Qed.

Lemma strip_leading_zeros_digits (s : string) :
  all_digits s = true -> all_digits (strip_leading_zeros s) = true.
Proof.
  induction s as [|c s IH]; [reflexivity|]. intros H. cbn [strip_leading_zeros].
  destruct (Ascii.eqb c "0"%char); [|exact H].
  destruct s as [|d s]; [exact H|]. apply IH.
  simpl in H. apply andb_true_iff in H. apply H.
Qed.

Lemma strip_leading_zeros_nonempty (s : string) :
  s <> EmptyString -> strip_leading_zeros s <> EmptyString.
Proof.
  induction s as [|c s IH]; [congruence|]. intros _. cbn [strip_leading_zeros].
  destruct (Ascii.eqb c "0"%char); [|discriminate].
  destruct s as [|d s]; [discriminate|]. apply IH. discriminate.
Qed.

Lemma digits_nonempty (k : nat) (v : Z) (acc : string) :
  digits (S k) v acc <> EmptyString.
Proof.
  revert v acc. induction k as [|k IH]; intros v acc.
  - discriminate.
  - change (digits (S (S k)) v acc)
      with (digits (S k) (v / 10) (String (digit_char (v mod 10)) acc)).
    apply IH.
Qed.

Lemma below_power_of_ten (v : Z) :
  0 <= v -> v < 10 ^ Z.of_nat (S (Z.to_nat (Z.log2 v))).
Proof.
  intros H. rewrite Nat2Z.inj_succ, Z2Nat.id by apply Z.log2_nonneg.
  destruct (Z.eq_dec v 0) as [->|Hv].
  - simpl. lia.
  - apply Z.lt_le_trans with (2 ^ Z.succ (Z.log2 v)).
    + apply Z.log2_spec. lia.
    + apply Z.pow_le_mono_l. lia.
Qed.

Lemma decimal_spec (v : Z) :
  0 <= v ->
  all_digits (decimal v) = true /\ decimal v <> EmptyString
  /\ decimal_value 0 (decimal v) = v.
Proof.
  intros H. unfold decimal. split; [|split].
  - apply strip_leading_zeros_digits, digits_all_digits. reflexivity.
  - apply strip_leading_zeros_nonempty, digits_nonempty.
  - rewrite strip_leading_zeros_value, digits_value. cbn [decimal_value].
    rewrite Z.mod_small; [lia|]. split; [exact H|].
    apply below_power_of_ten. exact H.
Qed.

Lemma take_digits_all (s : string) :
  all_digits s = true -> take_digits s = (s, EmptyString).
Proof.
  induction s as [|c s IH]; [reflexivity|]. simpl. intros H.
  apply andb_true_iff in H. destruct H as [Hc Hs].
  rewrite Hc, (IH Hs). reflexivity.
Qed.

Lemma isdigit_plain (c : ascii) :
  isdigit c = true ->
  isspace c = false /\ c <> "-"%char /\ c <> "+"%char.
Proof.
  destruct c as [[] [] [] [] [] [] [] []]; intros H;
    try discriminate H; repeat split; discriminate.
Qed.

Lemma scan_integer_decimal (v : Z) :
  0 <= v -> scan_integer (decimal v) = Some (v, EmptyString).
Proof.
  intros H. destruct (decimal_spec v H) as (Hd & Hne & Hv).
  destruct (decimal v) as [|c r] eqn:E; [congruence|].
  unfold scan_integer.
  pose proof Hd as Hc. simpl in Hc. apply andb_true_iff in Hc.
  destruct Hc as [Hc _].
  destruct (isdigit_plain c Hc) as (Hsp & Hminus & Hplus).
  cbn [skip_space]. rewrite Hsp.
  assert (Hsign : take_sign (String c r) = (false, String c r)).
  { unfold take_sign.
    destruct c as [[] [] [] [] [] [] [] []]; try reflexivity; congruence. }
  rewrite Hsign, (take_digits_all _ Hd), Hv. reflexivity.
Qed.

Lemma to_int_small (n : Z) : INT_MIN <= n <= INT_MAX -> to_int n = n.
Proof.
  unfold INT_MIN, INT_MAX, to_int. intros H.
  rewrite Z.min_r, Z.max_r by lia. apply wrap32_small. lia.
Qed.

(** An [int] written with ["%d"] is read back by [atoi]. *)
Lemma atoi_format_d (n : Z) :
  INT_MIN <= n <= INT_MAX -> atoi (format_d false 0 n) = n.
Proof.
  intros H. unfold atoi, format_d, pad_left. cbn [Nat.sub replicate].
  destruct (n <? 0) eqn:Hneg.
  - apply Z.ltb_lt in Hneg.
    assert (Hs : scan_integer ("-" ++ decimal (Z.abs n))
                 = Some (- Z.abs n, EmptyString)).
    { unfold scan_integer. cbn [append skip_space isspace take_sign].
      change (isspace "-"%char) with false. cbn iota.
      destruct (decimal_spec (Z.abs n)) as (Hd & Hne & Hv); [lia|].
      change (take_sign (String "-" (decimal (Z.abs n))))
        with (true, decimal (Z.abs n)).
      cbn iota beta. rewrite (take_digits_all _ Hd), Hv.
      destruct (decimal (Z.abs n)); [congruence | reflexivity]. }
    cbn [append] in *. rewrite Hs, to_int_small by lia. lia.
  - apply Z.ltb_ge in Hneg. cbn [append].
    rewrite scan_integer_decimal, to_int_small by lia. lia.
Qed.

Lemma wrap32_range (n : Z) : INT_MIN <= wrap32 n <= INT_MAX.
Proof.
  unfold wrap32, INT_MIN, INT_MAX.
  pose proof (Z.mod_pos_bound (n + 2 ^ 31) (2 ^ 32) ltac:(lia)). lia.
Qed.



(** What [ctime] gives at the time of writing. *)
Definition example_now : string :=
  "Wed Apr  8 12:00:00 2020
".



(** * More of the reader *)

(** ** The state machine without its consumers *)

(** The event one pass of the loop of [parse_file] looks at. *)
Definition step_event (step : parser_step) : yaml_event_t :=
  match step with
  | Parsed e => e
  | ParserError => plain_event YAML_NO_EVENT
  end.

(** The reader after one pass of the loop, the consumer call left out. *)
Definition reader_step (step : parser_step) (r : YamlReader.t) : YamlReader.t :=
  let r1 := match step with
            | ParserError => YamlReader.set_state YamlReader.STOP r
            | _ => r
            end in
  let (fine, r2) := YamlReader.consume_event (step_event step) r1 in
  if fine then r2 else YamlReader.set_state YamlReader.STOP r2.

(** The key/value pairs the loop accepts from [events], in order. *)
Fixpoint accepted_pairs_from (events : list parser_step) (r : YamlReader.t)
    : list (string * string) :=
  match events with
  | [] => []
  | step :: rest =>
      let r' := reader_step step r in
      (if YamlReader.accepted r'
       then [(YamlReader.key r', scalar_value (step_event step))] else [])
      ++ (if YamlReader.is_STOP (YamlReader.state r') then []
          else accepted_pairs_from rest r')
  end.

Definition accepted_pairs (events : list parser_step) : list (string * string) :=
  accepted_pairs_from events
    (YamlReader.mk YamlReader.START false EmptyString).

Lemma iteration_reader_step (consumers : list (string * YamlReader.EventConsumer))
    (step : parser_step) (r : YamlReader.t) (m : memory) :
  YamlReader.iteration consumers step r m
  = if YamlReader.accepted (reader_step step r)
    then km <- YamlReader.consume_key_value consumers
                 (YamlReader.key (reader_step step r)) (step_event step) m ;;
         Ok (reader_step step r, snd km)
    else Ok (reader_step step r, m).
Proof.
  unfold YamlReader.iteration, reader_step, step_event.
  destruct (YamlReader.consume_event _ _) as [[] r2]; reflexivity.
Qed.

(** A pair is accepted on a scalar event only. *)
Lemma accepted_on_scalar (step : parser_step) (r : YamlReader.t) :
  YamlReader.accepted (reader_step step r) = true ->
  step_event step = scalar (scalar_value (step_event step)).
Proof.
  unfold reader_step, YamlReader.consume_event, YamlReader.set_state.
  destruct step as [[[] value]|], r as [[] acc k]; simpl;
    try discriminate; reflexivity.
Qed.

Lemma no_event_not_accepted (r : YamlReader.t) :
  YamlReader.accepted (reader_step (Parsed (plain_event YAML_NO_EVENT)) r)
  = false.
Proof. destruct r as [[] acc k]; reflexivity. Qed.

Lemma decode_pairs_app (consumers : list (string * YamlReader.EventConsumer))
    (kvs1 kvs2 : list (string * string)) (m : memory) :
  decode_pairs consumers (kvs1 ++ kvs2) m
  = (m1 <- decode_pairs consumers kvs1 m ;; decode_pairs consumers kvs2 m1).
Proof.
  revert m. induction kvs1 as [|kv kvs1 IH]; intros m; [reflexivity|].
  cbn [app decode_pairs].
  destruct (YamlReader.consume_key_value _ _ _ _) as [km|]; cbn [bind];
    [apply IH | reflexivity].
Qed.

Lemma loop_accepted (consumers : list (string * YamlReader.EventConsumer))
    (events : list parser_step) :
  forall (r : YamlReader.t) (m : memory),
  YamlReader.loop consumers events r m
  = decode_pairs consumers (accepted_pairs_from events r) m.
Proof.
  induction events as [|step rest IH]; intros r m;
    cbn [YamlReader.loop accepted_pairs_from].
  - rewrite iteration_reader_step, no_event_not_accepted. reflexivity.
  - rewrite iteration_reader_step, decode_pairs_app.
    destruct (YamlReader.accepted (reader_step step r)) eqn:Hacc.
    + rewrite (accepted_on_scalar step r Hacc) at 1.
      cbn [decode_pairs fst snd].
      destruct (YamlReader.consume_key_value _ _ _ _) as [km|]; cbn [bind fst snd];
        [|reflexivity].
      destruct (YamlReader.is_STOP _); [reflexivity | apply IH].
    + cbn [decode_pairs bind fst snd].
      destruct (YamlReader.is_STOP _); [reflexivity | apply IH].
Qed.


(** The same for the derived class. *)
Lemma reader_parse_file_accepted (config : config_ref) (junk : indeterminate)
    (events : list parser_step) (m : memory) :
  TestConfigReader.parse_file config junk (Some events) m
  = (m' <- decode_pairs (TestConfigReader.consumers config junk)
             (accepted_pairs events) m ;;
     Ok (0, m')).
Proof.
  unfold TestConfigReader.parse_file, YamlReader.parse_file, accepted_pairs.
  rewrite loop_accepted. reflexivity.
Qed.

(** ** Documents without a mapping, and mappings cut short *)


Lemma accepted_pairs_no_mapping (events : list parser_step) :
  Forall (fun step => type (step_event step) <> YAML_MAPPING_START_EVENT)
    events ->
  forall (acc : bool) (k : string),
  accepted_pairs_from events (YamlReader.mk YamlReader.START acc k) = [].
Proof.
  induction 1 as [|step rest Hstep _ IH]; intros acc k; [reflexivity|].
  cbn [accepted_pairs_from].
  destruct step as [[[] value]|]; simpl in Hstep; try congruence;
    cbn; try reflexivity; apply IH.
Qed.

(** X3.  A file that opens and in which no mapping starts (an empty
    stream, a bare scalar, a top-level sequence, a syntax error before any
    mapping) is answered with 0 and changes nothing: no consumer runs. *)
Theorem parse_file_without_mapping (config : config_ref)
    (junk : indeterminate) (events : list parser_step) (m : memory) :
  Forall (fun step => type (step_event step) <> YAML_MAPPING_START_EVENT)
    events ->
  TestConfigReader.parse_file config junk (Some events) m = Ok (0, m).
Proof.
  intros H. rewrite reader_parse_file_accepted.
  unfold accepted_pairs. rewrite (accepted_pairs_no_mapping events H).
  reflexivity.
Qed.

(** The theorem at a top-level sequence. *)
Lemma parse_file_without_mapping_witness :
  TestConfigReader.parse_file ref_test_config example_junk
    (Some (map Parsed
             [ plain_event YAML_STREAM_START_EVENT;
               plain_event YAML_DOCUMENT_START_EVENT;
               plain_event YAML_SEQUENCE_START_EVENT;
               scalar "natoms"; scalar "3";
               plain_event YAML_SEQUENCE_END_EVENT;
               plain_event YAML_DOCUMENT_END_EVENT;
               plain_event YAML_STREAM_END_EVENT ]))
    default_memory = Ok (0, default_memory).
Proof.
  apply parse_file_without_mapping.
  repeat constructor; discriminate.
Defined.





(** ** Keys *)

(** The keys the constructor registers. *)
Definition known_keys : list string :=
  [ "lammps_version"; "date_generated"; "epsilon"; "prerequisites";
    "pre_commands"; "post_commands"; "input_file"; "bond_style";
    "bond_coeff"; "natoms"; "init_energy"; "run_energy"; "init_stress";
    "run_stress"; "init_forces"; "run_forces" ]%string.

Definition known (k : string) : bool := existsb (String.eqb k) known_keys.

Lemma lookup_None (k : string) (l : list (string * YamlReader.EventConsumer)) :
  existsb (String.eqb k) (map fst l) = false -> YamlReader.lookup k l = None.
Proof.
  induction l as [|[k' f] l IH]; [reflexivity|]. simpl.
  destruct (String.eqb k k'); [discriminate | exact IH].
Qed.

Lemma decode_pairs_known (config : config_ref) (junk : indeterminate)
    (kvs : list (string * string)) (m : memory) :
  decode_pairs (TestConfigReader.consumers config junk) kvs m
  = decode_pairs (TestConfigReader.consumers config junk)
      (filter (fun kv => known (fst kv)) kvs) m.
Proof.
  revert m. induction kvs as [|[k v] kvs IH]; intros m; [reflexivity|].
  cbn [filter fst]. destruct (known k) eqn:Hk.
  - cbn [decode_pairs].
    destruct (YamlReader.consume_key_value _ _ _ _) as [km|]; cbn [bind];
      [apply IH | reflexivity].
  - cbn [decode_pairs fst snd]. unfold YamlReader.consume_key_value.
    rewrite lookup_None by exact Hk. cbn [bind snd]. apply IH.
Qed.

(** X5.  Pairs whose key is not one of the sixteen registered keys have
    no effect on what is read: a fixture file and the same file with
    those pairs taken out leave the same configuration, with the same
    answer. *)
Theorem unknown_keys_are_skipped (config : config_ref) (junk : indeterminate)
    (kvs : list (string * string)) (m : memory) :
  TestConfigReader.parse_file config junk
    (Some (map Parsed
             (YamlWriter.open_events ++ mapping_events kvs
                ++ YamlWriter.close_events))) m
  = TestConfigReader.parse_file config junk
      (Some (map Parsed
               (YamlWriter.open_events
                  ++ mapping_events (filter (fun kv => known (fst kv)) kvs)
                  ++ YamlWriter.close_events))) m.
Proof.
  unfold TestConfigReader.parse_file. rewrite !parse_file_mapping.
  rewrite decode_pairs_known. reflexivity.
Qed.

(** ** Each decoder writes its own member only *)

(** The members of [TestConfig]. *)
Inductive field :=
| f_lammps_version | f_date_generated | f_epsilon | f_prerequisites
| f_pre_commands | f_post_commands | f_input_file | f_bond_style
| f_bond_coeff | f_natoms | f_init_energy | f_run_energy | f_init_stress
| f_run_stress | f_init_forces | f_run_forces.

(** The key under which the member is registered. *)
Definition key_of (f : field) : string :=
  match f with
  | f_lammps_version => "lammps_version" | f_date_generated => "date_generated"
  | f_epsilon => "epsilon" | f_prerequisites => "prerequisites"
  | f_pre_commands => "pre_commands" | f_post_commands => "post_commands"
  | f_input_file => "input_file" | f_bond_style => "bond_style"
  | f_bond_coeff => "bond_coeff" | f_natoms => "natoms"
  | f_init_energy => "init_energy" | f_run_energy => "run_energy"
  | f_init_stress => "init_stress" | f_run_stress => "run_stress"
  | f_init_forces => "init_forces" | f_run_forces => "run_forces"
  end%string.

(** Two objects hold the same value in member [f]. *)
Definition same_field (f : field) (c c' : TestConfig.t) : Prop :=
  match f with
  | f_lammps_version => TestConfig.lammps_version c = TestConfig.lammps_version c'
  | f_date_generated => TestConfig.date_generated c = TestConfig.date_generated c'
  | f_epsilon => TestConfig.epsilon c = TestConfig.epsilon c'
  | f_prerequisites => TestConfig.prerequisites c = TestConfig.prerequisites c'
  | f_pre_commands => TestConfig.pre_commands c = TestConfig.pre_commands c'
  | f_post_commands => TestConfig.post_commands c = TestConfig.post_commands c'
  | f_input_file => TestConfig.input_file c = TestConfig.input_file c'
  | f_bond_style => TestConfig.bond_style c = TestConfig.bond_style c'
  | f_bond_coeff => TestConfig.bond_coeff c = TestConfig.bond_coeff c'
  | f_natoms => TestConfig.natoms c = TestConfig.natoms c'
  | f_init_energy => TestConfig.init_energy c = TestConfig.init_energy c'
  | f_run_energy => TestConfig.run_energy c = TestConfig.run_energy c'
  | f_init_stress => TestConfig.init_stress c = TestConfig.init_stress c'
  | f_run_stress => TestConfig.run_stress c = TestConfig.run_stress c'
  | f_init_forces => TestConfig.init_forces c = TestConfig.init_forces c'
  | f_run_forces => TestConfig.run_forces c = TestConfig.run_forces c'
  end.

(** From [m] to [m'], in both objects, at most member [f] has changed. *)
Definition only_writes (f : field) (m m' : memory) : Prop :=
  forall (r : config_ref) (g : field),
    g <> f -> same_field g (load r m) (load r m').

Lemma same_field_refl (f : field) (c : TestConfig.t) : same_field f c c.
Proof. destruct f; reflexivity. Qed.

Lemma same_field_trans (f : field) (c1 c2 c3 : TestConfig.t) :
  same_field f c1 c2 -> same_field f c2 c3 -> same_field f c1 c3.
Proof. destruct f; simpl; congruence. Qed.

Lemma only_writes_refl (f : field) (m : memory) : only_writes f m m.
Proof. intros r g _. apply same_field_refl. Qed.

Lemma only_writes_trans (f : field) (m1 m2 m3 : memory) :
  only_writes f m1 m2 -> only_writes f m2 m3 -> only_writes f m1 m3.
Proof.
  intros H12 H23 r g Hg.
  exact (same_field_trans g _ _ _ (H12 r g Hg) (H23 r g Hg)).
Qed.

Lemma only_writes_fold (f : field) (step : memory -> string -> memory) :
  (forall m line, only_writes f m (step m line)) ->
  forall lines m, only_writes f m (fold_left step lines m).
Proof.
  intros Hstep lines. induction lines as [|line lines IH]; intros m.
  - apply only_writes_refl.
  - simpl. eapply only_writes_trans; [apply Hstep | apply IH].
Qed.

(** An assignment to one member. *)
Ltac one_member :=
  let r := fresh "r" in let g := fresh "g" in let Hg := fresh "Hg" in
  intros r g Hg;
  try match goal with
      | |- context [update ?r0 _ _] => destruct r0
      end;
  destruct r, g; first [reflexivity | contradiction Hg; reflexivity].

Lemma init_forces_rows_only_writes (config : config_ref)
    (junk : indeterminate) (lines : list string) :
  forall (row : nat) (m m' : memory),
  TestConfigReader.init_forces_rows config junk lines row m = Ok m' ->
  only_writes f_init_forces m m'.
Proof.
  induction lines as [|line lines IH]; intros row m m' H.
  - injection H as <-. apply only_writes_refl.
  - cbn [TestConfigReader.init_forces_rows] in H.
    destruct (sscanf_row _ _ _) as [tag xyz].
    destruct (vector_store _ _ _) as [v|]; [|discriminate H].
    cbn [bind] in H. apply IH in H.
    eapply only_writes_trans; [|exact H]. one_member.
Qed.

Lemma run_forces_rows_only_writes (config : config_ref)
    (junk : indeterminate) (lines : list string) :
  forall (row : nat) (m m' : memory),
  TestConfigReader.run_forces_rows config junk lines row m = Ok m' ->
  only_writes f_run_forces m m'.
Proof.
  induction lines as [|line lines IH]; intros row m m' H.
  - injection H as <-. apply only_writes_refl.
  - cbn [TestConfigReader.run_forces_rows] in H.
    destruct (sscanf_row _ _ _) as [tag xyz].
    destruct (vector_store _ _ _) as [v|]; [|discriminate H].
    cbn [bind] in H. apply IH in H.
    eapply only_writes_trans; [|exact H]. one_member.
Qed.

(** A registered decoder and the member it is allowed to write. *)
Definition decodes (f : field) (entry : string * YamlReader.EventConsumer)
    : Prop :=
  fst entry = key_of f
  /\ forall event m m', snd entry event m = Ok m' -> only_writes f m m'.

Lemma consumers_decode (config : config_ref) (junk : indeterminate) :
  Forall (fun entry => exists f, decodes f entry)
    (TestConfigReader.consumers config junk).
Proof.
  unfold TestConfigReader.consumers.
  repeat (apply Forall_cons; [|]); try apply Forall_nil.
  - exists f_lammps_version. split; [reflexivity|]. intros e m m' [= <-].
    one_member.
  - exists f_date_generated. split; [reflexivity|]. intros e m m' [= <-].
    one_member.
  - exists f_epsilon. split; [reflexivity|]. intros e m m' [= <-].
    one_member.
  - exists f_prerequisites. split; [reflexivity|]. intros e m m' [= <-].
    eapply only_writes_trans; [|apply only_writes_fold].
    + one_member.
    + intros m0 line. unfold TestConfigReader.prerequisites_line.
      destruct (TestConfigReader.split_prerequisite line);
        [one_member | apply only_writes_refl].
  - exists f_pre_commands. split; [reflexivity|]. intros e m m' [= <-].
    eapply only_writes_trans; [|apply only_writes_fold].
    + one_member.
    + intros m0 line. one_member.
  - exists f_post_commands. split; [reflexivity|]. intros e m m' [= <-].
    eapply only_writes_trans; [|apply only_writes_fold].
    + one_member.
    + intros m0 line. one_member.
  - exists f_input_file. split; [reflexivity|]. intros e m m' [= <-].
    one_member.
  - exists f_bond_style. split; [reflexivity|]. intros e m m' [= <-].
    one_member.
  - exists f_bond_coeff. split; [reflexivity|]. intros e m m' [= <-].
    eapply only_writes_trans; [|apply only_writes_fold].
    + one_member.
    + intros m0 line. one_member.
  - exists f_natoms. split; [reflexivity|]. intros e m m' [= <-].
    one_member.
  - exists f_init_energy. split; [reflexivity|]. intros e m m' [= <-].
    one_member.
  - exists f_run_energy. split; [reflexivity|]. intros e m m' [= <-].
    one_member.
  - exists f_init_stress. split; [reflexivity|]. intros e m m' [= <-].
    one_member.
  - exists f_run_stress. split; [reflexivity|]. intros e m m' [= <-].
    one_member.
  - exists f_init_forces. split; [reflexivity|]. intros e m m' H.
    cbn [snd] in H. unfold TestConfigReader.init_forces in H.
    destruct (vector_resize _) as [v|]; [|discriminate H]. cbn [bind] in H.
    apply init_forces_rows_only_writes in H.
    eapply only_writes_trans; [|exact H]. one_member.
  - exists f_run_forces. split; [reflexivity|]. intros e m m' H.
    cbn [snd] in H. unfold TestConfigReader.run_forces in H.
    destruct (vector_resize _) as [v|]; [|discriminate H]. cbn [bind] in H.
    apply run_forces_rows_only_writes in H.
    eapply only_writes_trans; [|exact H]. one_member.
Qed.

Lemma lookup_In (k : string) (l : list (string * YamlReader.EventConsumer))
    (consumer : YamlReader.EventConsumer) :
  YamlReader.lookup k l = Some consumer -> In (k, consumer) l.
Proof.
  induction l as [|[k' c'] l IH]; [discriminate|]. simpl.
  destruct (String.eqb k k') eqn:E.
  - apply String.eqb_eq in E. subst k'. intros [= ->]. left. reflexivity.
  - intros H. right. exact (IH H).
Qed.

Lemma consume_key_value_frame (config : config_ref) (junk : indeterminate)
    (k : string) (event : yaml_event_t) (m : memory) (km : bool * memory)
    (f : field) :
  YamlReader.consume_key_value (TestConfigReader.consumers config junk)
    k event m = Ok km ->
  k <> key_of f ->
  forall r, same_field f (load r m) (load r (snd km)).
Proof.
  unfold YamlReader.consume_key_value. intros H Hk r.
  destruct (YamlReader.lookup _ _) as [consumer|] eqn:E.
  - apply lookup_In in E.
    pose proof (consumers_decode config junk) as D.
    rewrite Forall_forall in D. destruct (D _ E) as [f' [Hkey Hw]].
    cbn [fst snd] in Hkey, Hw.
    destruct (consumer event m) as [m'|] eqn:Ec; [|discriminate H].
    injection H as <-. cbn [snd].
    apply (Hw _ _ _ Ec). intros ->. exact (Hk Hkey).
  - injection H as <-. apply same_field_refl.
Qed.

Lemma decode_pairs_frame (config : config_ref) (junk : indeterminate)
    (f : field) (kvs : list (string * string)) :
  ~ In (key_of f) (map fst kvs) ->
  forall (m m' : memory),
  decode_pairs (TestConfigReader.consumers config junk) kvs m = Ok m' ->
  forall r, same_field f (load r m) (load r m').
Proof.
  induction kvs as [|[k v] kvs IH]; intros Hin m m' H r.
  - injection H as <-. apply same_field_refl.
  - cbn [decode_pairs fst snd] in H.
    destruct (YamlReader.consume_key_value _ _ _ _) as [km|] eqn:E;
      [|discriminate H].
    cbn [bind] in H.
    eapply same_field_trans.
    + apply (consume_key_value_frame _ _ _ _ _ _ f E).
      intros ->. apply Hin. left. reflexivity.
    + apply (IH (fun Hi => Hin (or_intror Hi)) _ _ H).
Qed.

(** X6.  A member whose key is not among the pairs a file delivers keeps
    its value through [parse_file], in the object the reader is bound to
    and in the other one: every decoder writes the member of its own key
    only. *)
Theorem parse_file_keeps_absent_members (config : config_ref)
    (junk : indeterminate) (events : list parser_step) (m m' : memory)
    (rc : Z) (f : field) (r : config_ref) :
  TestConfigReader.parse_file config junk (Some events) m = Ok (rc, m') ->
  ~ In (key_of f) (map fst (accepted_pairs events)) ->
  same_field f (load r m) (load r m').
Proof.
  rewrite reader_parse_file_accepted. intros H Hin.
  destruct (decode_pairs _ _ _) as [m1|] eqn:E; [|discriminate H].
  injection H as _ <-.
  exact (decode_pairs_frame config junk f _ Hin _ _ E r).
Qed.

(** The theorem at a file that gives [natoms] only: [bond_style] keeps
    its default. *)
Lemma parse_file_keeps_absent_members_witness :
  same_field f_bond_style (load ref_test_config default_memory)
    (load ref_test_config
       (update ref_test_config (TestConfig.set_natoms 29) default_memory)).
Proof.
  apply (parse_file_keeps_absent_members ref_test_config example_junk
           (map Parsed
              (YamlWriter.open_events
                 ++ mapping_events [("natoms", "29")]%string
                 ++ YamlWriter.close_events))
           default_memory
           (update ref_test_config (TestConfig.set_natoms 29) default_memory)
           0 f_bond_style ref_test_config).
  - vm_compute. reflexivity.
  - vm_compute. intros [H|[]]. discriminate H.
Defined.

(** ** When a block of forces decodes *)

Lemma vector_resize_length (n : Z) (v : list coord_t) :
  vector_resize n = Ok v -> Z.of_nat (List.length v) = n + 1.
Proof.
  unfold vector_resize.
  destruct (INT_MAX <=? n); [discriminate|].
  destruct (n + 1 <? 0) eqn:E; [discriminate|].
  intros [= <-]. rewrite repeat_length. apply Z.ltb_ge in E. lia.
Qed.

Lemma vector_resize_range (n : Z) :
  (exists v, vector_resize n = Ok v) <-> -1 <= n < INT_MAX.
Proof.
  split.
  - intros [v H]. unfold vector_resize in H.
    destruct (INT_MAX <=? n) eqn:E1; [discriminate|].
    destruct (n + 1 <? 0) eqn:E2; [discriminate|].
    apply Z.leb_gt in E1. apply Z.ltb_ge in E2. lia.
  - intros H. eexists. apply vector_resize_Ok. exact H.
Qed.

Lemma vector_store_range {A} (v : list A) (i : Z) (a : A) :
  (exists v', vector_store v i a = Ok v')
  <-> 0 <= i < Z.of_nat (List.length v).
Proof.
  split.
  - intros [v' H]. unfold vector_store in H.
    destruct (0 <=? i) eqn:E1; [|discriminate].
    destruct (i <? Z.of_nat (List.length v)) eqn:E2; [|discriminate].
    apply Z.leb_le in E1. apply Z.ltb_lt in E2. lia.
  - intros H. eexists. apply vector_store_Ok. exact H.
Qed.

(** The atom IDs the loops of the two decoders see, row by row. *)
Definition init_forces_tag (junk : indeterminate) (row : nat) (line : string)
    : Z :=
  fst (sscanf_row line 0 (junk_xyz junk row)).

Definition run_forces_tag (junk : indeterminate) (row : nat) (line : string)
    : Z :=
  fst (sscanf_row line (junk_tag junk row) (junk_xyz junk row)).

(** Every row of [lines], numbered from [row], has its atom ID in
    [0 .. size - 1]. *)
Definition tags_within (tag_of : nat -> string -> Z) (size : Z)
    (lines : list string) (row : nat) : Prop :=
  forall (i : nat) (line : string),
    nth_error lines i = Some line -> 0 <= tag_of (row + i)%nat line < size.

Lemma tags_within_cons (tag_of : nat -> string -> Z) (size : Z)
    (line : string) (lines : list string) (row : nat) :
  tags_within tag_of size (line :: lines) row
  <-> 0 <= tag_of row line < size /\ tags_within tag_of size lines (S row).
Proof.
  unfold tags_within. split.
  - intros H. split.
    + specialize (H O line eq_refl). rewrite Nat.add_0_r in H. exact H.
    + intros i l Hl. specialize (H (S i) l Hl).
      rewrite Nat.add_succ_r in H. exact H.
  - intros [H0 H] [|i] l Hl; simpl in Hl.
    + injection Hl as <-. rewrite Nat.add_0_r. exact H0.
    + rewrite Nat.add_succ_r. apply (H i l Hl).
Qed.

Lemma init_forces_rows_succeed (config : config_ref) (junk : indeterminate)
    (lines : list string) :
  forall (row : nat) (m : memory),
  (exists m',
     TestConfigReader.init_forces_rows config junk lines row m = Ok m'
     /\ List.length (TestConfig.init_forces (load config m'))
        = List.length (TestConfig.init_forces (load config m)))
  <-> tags_within (init_forces_tag junk)
        (Z.of_nat (List.length (TestConfig.init_forces (load config m))))
        lines row.
Proof.
  induction lines as [|line lines IH]; intros row m.
  - split.
    + intros _ i l Hl. destruct i; discriminate Hl.
    + intros _. exists m. split; reflexivity.
  - rewrite tags_within_cons. cbn [TestConfigReader.init_forces_rows].
    change (init_forces_tag junk row line)
      with (fst (sscanf_row line 0 (junk_xyz junk row))).
    destruct (sscanf_row line 0 (junk_xyz junk row)) as [tag xyz]. cbn [fst].
    split.
    + intros (m' & H & Hlen).
      destruct (vector_store _ tag xyz) as [v|] eqn:E; [|discriminate H].
      cbn [bind] in H.
      pose proof (vector_store_length _ _ _ _ E) as Hv.
      split; [apply (proj1 (vector_store_range _ tag xyz)); eauto|].
      specialize (IH (S row) (update config (TestConfig.set_init_forces v) m)).
      rewrite load_update in IH. cbn [TestConfig.init_forces
        TestConfig.set_init_forces] in IH.
      rewrite Hv in IH. apply IH. exists m'. split; [exact H|].
      rewrite Hlen. reflexivity.
    + intros [Ht Hrest].
      rewrite vector_store_Ok by exact Ht. cbn [bind].
      set (v := list_set _ _ _).
      specialize (IH (S row) (update config (TestConfig.set_init_forces v) m)).
      rewrite load_update in IH. cbn [TestConfig.init_forces
        TestConfig.set_init_forces] in IH.
      assert (Hv : List.length v
                   = List.length (TestConfig.init_forces (load config m)))
        by apply list_set_length.
      rewrite Hv in IH. destruct IH as [_ IH].
      destruct (IH Hrest) as (m' & H & Hlen). exists m'. split; assumption.
Qed.

Lemma run_forces_rows_succeed (config : config_ref) (junk : indeterminate)
    (lines : list string) :
  forall (row : nat) (m : memory),
  (exists m',
     TestConfigReader.run_forces_rows config junk lines row m = Ok m'
     /\ List.length (TestConfig.run_forces (load config m'))
        = List.length (TestConfig.run_forces (load config m)))
  <-> tags_within (run_forces_tag junk)
        (Z.of_nat (List.length (TestConfig.run_forces (load config m))))
        lines row.
Proof.
  induction lines as [|line lines IH]; intros row m.
  - split.
    + intros _ i l Hl. destruct i; discriminate Hl.
    + intros _. exists m. split; reflexivity.
  - rewrite tags_within_cons. cbn [TestConfigReader.run_forces_rows].
    change (run_forces_tag junk row line)
      with (fst (sscanf_row line (junk_tag junk row) (junk_xyz junk row))).
    destruct (sscanf_row line (junk_tag junk row) (junk_xyz junk row))
      as [tag xyz]. cbn [fst].
    split.
    + intros (m' & H & Hlen).
      destruct (vector_store _ tag xyz) as [v|] eqn:E; [|discriminate H].
      cbn [bind] in H.
      pose proof (vector_store_length _ _ _ _ E) as Hv.
      split; [apply (proj1 (vector_store_range _ tag xyz)); eauto|].
      specialize (IH (S row) (update config (TestConfig.set_run_forces v) m)).
      rewrite load_update in IH. cbn [TestConfig.run_forces
        TestConfig.set_run_forces] in IH.
      rewrite Hv in IH. apply IH. exists m'. split; [exact H|].
      rewrite Hlen. reflexivity.
    + intros [Ht Hrest].
      rewrite vector_store_Ok by exact Ht. cbn [bind].
      set (v := list_set _ _ _).
      specialize (IH (S row) (update config (TestConfig.set_run_forces v) m)).
      rewrite load_update in IH. cbn [TestConfig.run_forces
        TestConfig.set_run_forces] in IH.
      assert (Hv : List.length v
                   = List.length (TestConfig.run_forces (load config m)))
        by apply list_set_length.
      rewrite Hv in IH. destruct IH as [_ IH].
      destruct (IH Hrest) as (m' & H & Hlen). exists m'. split; assumption.
Qed.

(** A row without its length clause: any successful run of the loop keeps
    the length. *)
Lemma init_forces_rows_length (config : config_ref) (junk : indeterminate)
    (lines : list string) :
  forall (row : nat) (m m' : memory),
  TestConfigReader.init_forces_rows config junk lines row m = Ok m' ->
  List.length (TestConfig.init_forces (load config m'))
  = List.length (TestConfig.init_forces (load config m)).
Proof.
  induction lines as [|line lines IH]; intros row m m' H.
  - injection H as <-. reflexivity.
  - cbn [TestConfigReader.init_forces_rows] in H.
    destruct (sscanf_row _ _ _) as [tag xyz].
    destruct (vector_store _ tag xyz) as [v|] eqn:E; [|discriminate H].
    cbn [bind] in H. rewrite (IH _ _ _ H), load_update.
    cbn [TestConfig.init_forces TestConfig.set_init_forces].
    apply (vector_store_length _ _ _ _ E).
Qed.

Lemma run_forces_rows_length (config : config_ref) (junk : indeterminate)
    (lines : list string) :
  forall (row : nat) (m m' : memory),
  TestConfigReader.run_forces_rows config junk lines row m = Ok m' ->
  List.length (TestConfig.run_forces (load config m'))
  = List.length (TestConfig.run_forces (load config m)).
Proof.
  induction lines as [|line lines IH]; intros row m m' H.
  - injection H as <-. reflexivity.
  - cbn [TestConfigReader.run_forces_rows] in H.
    destruct (sscanf_row _ _ _) as [tag xyz].
    destruct (vector_store _ tag xyz) as [v|] eqn:E; [|discriminate H].
    cbn [bind] in H. rewrite (IH _ _ _ H), load_update.
    cbn [TestConfig.run_forces TestConfig.set_run_forces].
    apply (vector_store_length _ _ _ _ E).
Qed.

Lemma init_forces_decoded_size (config : config_ref) (junk : indeterminate)
    (block : string) (m m' : memory) :
  TestConfigReader.init_forces config junk (scalar block) m = Ok m' ->
  Z.of_nat (List.length (TestConfig.init_forces (load config m')))
  = TestConfig.natoms (load config m) + 1
  /\ TestConfig.natoms (load config m') = TestConfig.natoms (load config m).
Proof.
  intros H. unfold TestConfigReader.init_forces in H.
  destruct (vector_resize _) as [v|] eqn:E; [|discriminate H].
  cbn [bind] in H. split.
  - rewrite (init_forces_rows_length _ _ _ _ _ _ H), load_update.
    apply (vector_resize_length _ _ E).
  - apply init_forces_rows_only_writes in H. symmetry.
    refine (same_field_trans f_natoms _ _ _ _ (H config f_natoms _));
      [|discriminate].
    destruct config; reflexivity.
Qed.

Lemma run_forces_decoded_size (config : config_ref) (junk : indeterminate)
    (block : string) (m m' : memory) :
  TestConfigReader.run_forces config junk (scalar block) m = Ok m' ->
  Z.of_nat (List.length (TestConfig.run_forces (load config m')))
  = TestConfig.natoms (load config m) + 1
  /\ TestConfig.natoms (load config m') = TestConfig.natoms (load config m).
Proof.
  intros H. unfold TestConfigReader.run_forces in H.
  destruct (vector_resize _) as [v|] eqn:E; [|discriminate H].
  cbn [bind] in H. split.
  - rewrite (run_forces_rows_length _ _ _ _ _ _ H), load_update.
    apply (vector_resize_length _ _ E).
  - apply run_forces_rows_only_writes in H. symmetry.
    refine (same_field_trans f_natoms _ _ _ _ (H config f_natoms _));
      [|discriminate].
    destruct config; reflexivity.
Qed.

(** X7.  The decoders of [init_forces] and [run_forces] come to their
    end exactly when the [natoms] read before is at least -1 and below
    [INT_MAX], and every row of the block has its atom ID in
    [0 .. natoms]; the ID of a row that does not start with an integer
    is 0 for [init_forces] and whatever the stack holds for
    [run_forces].  The array then has [natoms + 1] entries, however many
    rows the block has, and [natoms] is as it was. *)
Theorem forces_decode_exactly_when (config : config_ref)
    (junk : indeterminate) (block : string) (m : memory) :
  let n := TestConfig.natoms (load config m) in
  ((exists m',
      TestConfigReader.init_forces config junk (scalar block) m = Ok m'
      /\ Z.of_nat (List.length (TestConfig.init_forces (load config m')))
         = n + 1
      /\ TestConfig.natoms (load config m') = n)
   <-> -1 <= n < INT_MAX
       /\ tags_within (init_forces_tag junk) (n + 1) (getlines block) O)
  /\ ((exists m',
         TestConfigReader.run_forces config junk (scalar block) m = Ok m'
         /\ Z.of_nat (List.length (TestConfig.run_forces (load config m')))
            = n + 1
         /\ TestConfig.natoms (load config m') = n)
      <-> -1 <= n < INT_MAX
          /\ tags_within (run_forces_tag junk) (n + 1) (getlines block) O).
Proof.
  intros n. split.
  - split.
    + intros (m' & H & _).
      unfold TestConfigReader.init_forces, TestConfigReader.text in H.
      cbn [scalar_value scalar] in H. fold n in H.
      destruct (vector_resize n) as [v|] eqn:E; [|discriminate H].
      cbn [bind] in H. split; [apply (proj1 (vector_resize_range n)); eauto|].
      rewrite <- (vector_resize_length n v E).
      pose proof (init_forces_rows_succeed config junk (getlines block) O
                    (update config (TestConfig.set_init_forces v) m)) as R.
      rewrite load_update in R. apply R. exists m'. split; [exact H|].
      rewrite (init_forces_rows_length _ _ _ _ _ _ H), load_update.
      reflexivity.
    + intros [Hn Ht].
      enough (Hex : exists m', TestConfigReader.init_forces config junk
                                 (scalar block) m = Ok m').
      { destruct Hex as [m' H]. exists m'. split; [exact H|].
        apply (init_forces_decoded_size _ _ _ _ _ H). }
      unfold TestConfigReader.init_forces, TestConfigReader.text.
      cbn [scalar_value scalar]. fold n.
      destruct (proj2 (vector_resize_range n) Hn) as [v E].
      rewrite E. cbn [bind].
      rewrite <- (vector_resize_length n v E) in Ht.
      pose proof (init_forces_rows_succeed config junk (getlines block) O
                    (update config (TestConfig.set_init_forces v) m)) as R.
      rewrite load_update in R. destruct (proj2 R Ht) as (m' & H & _).
      exists m'. exact H.
  - split.
    + intros (m' & H & _).
      unfold TestConfigReader.run_forces, TestConfigReader.text in H.
      cbn [scalar_value scalar] in H. fold n in H.
      destruct (vector_resize n) as [v|] eqn:E; [|discriminate H].
      cbn [bind] in H. split; [apply (proj1 (vector_resize_range n)); eauto|].
      rewrite <- (vector_resize_length n v E).
      pose proof (run_forces_rows_succeed config junk (getlines block) O
                    (update config (TestConfig.set_run_forces v) m)) as R.
      rewrite load_update in R. apply R. exists m'. split; [exact H|].
      rewrite (run_forces_rows_length _ _ _ _ _ _ H), load_update.
      reflexivity.
    + intros [Hn Ht].
      enough (Hex : exists m', TestConfigReader.run_forces config junk
                                 (scalar block) m = Ok m').
      { destruct Hex as [m' H]. exists m'. split; [exact H|].
        apply (run_forces_decoded_size _ _ _ _ _ H). }
      unfold TestConfigReader.run_forces, TestConfigReader.text.
      cbn [scalar_value scalar]. fold n.
      destruct (proj2 (vector_resize_range n) Hn) as [v E].
      rewrite E. cbn [bind].
      rewrite <- (vector_resize_length n v E) in Ht.
      pose proof (run_forces_rows_succeed config junk (getlines block) O
                    (update config (TestConfig.set_run_forces v) m)) as R.
      rewrite load_update in R. destruct (proj2 R Ht) as (m' & H & _).
      exists m'. exact H.
Qed.

(** ** Lines of the prerequisites block *)

(** Every character of [s] is a blank or a tab. *)
Definition all_blank (s : string) : Prop :=
  free_of (fun c => negb (is_blank c)) s.

Lemma find_char_split (want : ascii -> bool) (s : string) (p : nat) :
  find_char want s = Some p ->
  free_of want (substring 0 p s)
  /\ s = (substring 0 p s ++ drop p s)%string
  /\ exists c r, drop p s = String c r /\ want c = true.
Proof.
  revert p. induction s as [|c s IH]; intros p H; [discriminate|].
  simpl in H. destruct (want c) eqn:Hc.
  - injection H as <-. simpl. repeat split. eauto.
  - destruct (find_char want s) as [q|] eqn:E; [|discriminate].
    injection H as <-. destruct (IH q eq_refl) as (Hf & Hs & Hd).
    cbn [substring drop append]. split; [|split].
    + unfold free_of in *. simpl. rewrite Hc, Hf. reflexivity.
    + f_equal. exact Hs.
    + exact Hd.
Qed.

(** X8.  The loop of [prerequisites] skips a line exactly when the line
    has no second word: it is a word (possibly empty) followed by blanks
    and tabs only (possibly none).  A style name on a line of its own is
    dropped in silence as far as the fixture goes. *)
Theorem prerequisite_line_skipped_exactly_when (line : string) :
  TestConfigReader.split_prerequisite line = None
  <-> exists key blanks,
        line = (key ++ blanks)%string
        /\ free_of is_blank key /\ all_blank blanks.
Proof.
  unfold TestConfigReader.split_prerequisite, find_first_of,
    find_first_not_of.
  rewrite drop_0.
  change (fun c => mem_char c blank_tab) with is_blank.
  change (fun c => negb (mem_char c blank_tab))
    with (fun c => negb (is_blank c)).
  split.
  - destruct (find_char is_blank line) as [p|] eqn:E; cbn [option_map].
    + destruct (find_char_split _ _ _ E) as (Hf & Hs & _).
      cbn [Nat.add].
      destruct (find_char (fun c => negb (is_blank c)) (drop p line))
        eqn:E2; cbn [option_map]; [discriminate|].
      intros _. exists (substring 0 p line), (drop p line). auto.
    + intros _. exists line, EmptyString. rewrite append_nil_r.
      repeat split. exact E.
  - intros (key & blanks & -> & Hk & Hb).
    destruct blanks as [|b blanks].
    + rewrite append_nil_r. unfold free_of in Hk. rewrite Hk. reflexivity.
    + assert (Hbb : is_blank b = true).
      { apply free_of_cons in Hb. destruct Hb as [Hb _].
        destruct (is_blank b); [reflexivity | discriminate Hb]. }
      rewrite (find_char_app is_blank key blanks b Hk Hbb).
      cbn [option_map Nat.add]. rewrite drop_app.
      unfold all_blank, free_of in Hb. rewrite Hb. reflexivity.
Qed.

Lemma substring_from (p n : nat) (s : string) :
  substring p n s = substring 0 n (drop p s).
Proof.
  revert s. induction p as [|p IH]; intros s.
  - rewrite drop_0. reflexivity.
  - destruct s as [|c s]; simpl.
    + destruct n; reflexivity.
    + apply IH.
Qed.

Lemma substring_past (v r : string) (k : nat) :
  substring 0 (String.length v + k) (v ++ r) = (v ++ substring 0 k r)%string.
Proof.
  induction v as [|c v IH]; simpl; [reflexivity|]. rewrite IH. reflexivity.
Qed.

(** X9.  The style name of a prerequisite line is cut with the position
    of the blank that follows it as its length: on a line with a third
    word the name taken is the second word and, after it, as many
    characters of the rest of the line as the first word and its blank
    are long. *)
Theorem prerequisite_value_runs_past_its_end (key value tail : string)
    (b1 b2 : ascii) :
  free_of is_blank key -> free_of is_blank value -> value <> EmptyString ->
  is_blank b1 = true -> is_blank b2 = true ->
  TestConfigReader.split_prerequisite
    (key ++ String b1 (value ++ String b2 tail))
  = Some (key,
          (value ++ substring 0 (S (String.length key)) (String b2 tail))%string).
Proof.
  intros Hk Hv Hne Hb1 Hb2.
  destruct value as [|c value]; [congruence|].
  apply free_of_cons in Hv as Hc. destruct Hc as [Hc _].
  set (line := (key ++ String b1 (String c value ++ String b2 tail))%string).
  assert (A : find_first_of line blank_tab (Some O)
              = Some (String.length key)).
  { unfold find_first_of. rewrite drop_0. unfold line.
    rewrite (find_char_app is_blank key _ b1 Hk Hb1). reflexivity. }
  assert (B : find_first_not_of line blank_tab (Some (String.length key))
              = Some (S (String.length key))).
  { unfold find_first_not_of, line. rewrite drop_app.
    cbn [append]. rewrite find_char_second.
    - cbn [option_map]. f_equal. lia.
    - unfold is_blank in Hb1. rewrite Hb1. reflexivity.
    - unfold is_blank in Hc. rewrite Hc. reflexivity. }
  assert (C : find_first_of line blank_tab (Some (S (String.length key)))
              = Some (S (String.length key) + String.length (String c value))%nat).
  { unfold find_first_of, line. rewrite drop_S_app.
    change (fun c0 => mem_char c0 blank_tab) with is_blank.
    rewrite (find_char_app is_blank (String c value) tail b2 Hv Hb2).
    reflexivity. }
  unfold TestConfigReader.split_prerequisite. fold line.
  rewrite A. cbv zeta. rewrite B, C. unfold substr.
  rewrite (substring_from (S (String.length key))). unfold line.
  rewrite substring_app, drop_S_app.
  rewrite (Nat.add_comm (S (String.length key))), substring_past.
  reflexivity.
Qed.

(** The theorem at a line with a trailing remark. *)
Lemma prerequisite_value_runs_past_its_end_witness :
  TestConfigReader.split_prerequisite "bond harmonic # needs MOLECULE"
  = Some ("bond", "harmonic # ne")%string.
Proof.
  apply (prerequisite_value_runs_past_its_end "bond" "harmonic"
           "# needs MOLECULE" " " " ");
    first [reflexivity | discriminate].
Defined.

(** ** A block of commands read and written again *)

(** [s] with a newline after its last line, when that has none. *)
Fixpoint newline_ended (s : string) : string :=
  match s with
  | EmptyString => EmptyString
  | String c EmptyString => if is_LF c then s else String c LF
  | String c r => String c (newline_ended r)
  end.

Lemma getlines_nil (s : string) : getlines s = [] -> s = EmptyString.
Proof.
  destruct s as [|c r]; [reflexivity|]. cbn [getlines].
  destruct (Ascii.eqb c "010"%char); [discriminate|].
  destruct (getlines r); discriminate.
Qed.

Lemma join_lines_getlines (s : string) :
  join_lines (getlines s) = newline_ended s.
Proof.
  induction s as [|c r IH]; [reflexivity|].
  cbn [getlines]. unfold is_LF in *.
  destruct (Ascii.eqb c "010"%char) eqn:Ec.
  - apply Ascii.eqb_eq in Ec. subst c. cbn [join_lines]. rewrite IH.
    destruct r; reflexivity.
  - destruct (getlines r) as [|l ls] eqn:Er.
    + apply getlines_nil in Er. subst r. cbn. unfold is_LF. rewrite Ec.
      reflexivity.
    + cbn [join_lines] in *. cbn [append]. rewrite IH.
      destruct r as [|d r']; [discriminate Er|].
      cbn [newline_ended]. reflexivity.
Qed.

(** X10.  A block of commands that the reader of [main] decodes and
    [generate] writes again comes out as it was, a newline added after
    its last line when that had none: regenerating a fixture keeps its
    [pre_commands], [post_commands] and [bond_coeff]. *)
Theorem command_blocks_rewritten (block : string)
    (m : memory) :
  (exists m',
     TestConfigReader.pre_commands ref_test_config (scalar block) m = Ok m'
     /\ lines_block (TestConfig.pre_commands (test_config m'))
        = newline_ended block)
  /\ (exists m',
        TestConfigReader.post_commands ref_test_config (scalar block) m = Ok m'
        /\ lines_block (TestConfig.post_commands (test_config m'))
           = newline_ended block)
  /\ (exists m',
        TestConfigReader.bond_coeff ref_test_config (scalar block) m = Ok m'
        /\ lines_block (TestConfig.bond_coeff (test_config m'))
           = newline_ended block).
Proof.
  unfold TestConfigReader.pre_commands, TestConfigReader.post_commands,
    TestConfigReader.bond_coeff, TestConfigReader.text.
  rewrite push_back_pre_commands, push_back_post_commands,
    push_back_bond_coeff.
  destruct m as [tc oc]. cbn [scalar scalar_value].
  repeat split; eexists; (split; [reflexivity|]);
    rewrite lines_block_join; exact (join_lines_getlines block).
Qed.

(** The engine holds [n] atoms in the arrays the snapshot shows, with
    atom IDs in [0 .. n]. *)
Definition holds_atoms (n : Z) (s : LAMMPS.snapshot) : Prop :=
  forall i, 0 <= i < n ->
    exists fi t,
      vector_at (LAMMPS.f s) i = Ok fi /\ vector_at (LAMMPS.tag s) i = Ok t
      /\ 0 <= t <= n.


(** * More of generate *)

(** ** The date *)

Lemma prefix_LF (c : ascii) (r : string) :
  prefix LF (String c r) = is_LF c.
Proof.
  unfold LF, is_LF. cbn [prefix].
  destruct (ascii_dec "010" c) as [<-|Hne].
  - destruct r; reflexivity.
  - symmetry. apply Ascii.eqb_neq. congruence.
Qed.

Lemma str_find_LF (s rest : string) :
  free_of is_LF s ->
  str_find LF (s ++ LF ++ rest) = Some (String.length s).
Proof.
  intros Hs. induction s as [|c s IH].
  - change (str_find LF (String "010"%char rest) = Some O).
    cbn [str_find]. rewrite prefix_LF. reflexivity.
  - apply free_of_cons in Hs. destruct Hs as [Hc Hs].
    cbn [append str_find String.length]. rewrite prefix_LF, Hc, (IH Hs).
    reflexivity.
Qed.

(** X11.  The date written is the text of [ctime] up to its newline less
    one character: the last digit of the year is lost. *)
Theorem date_text_drops_last_character (s rest : string) (c : ascii) :
  free_of is_LF s -> is_LF c = false ->
  date_text (s ++ String c LF ++ rest) = s.
Proof.
  intros Hs Hc. unfold date_text.
  assert (Hsc : free_of is_LF (s ++ String c EmptyString)).
  { apply free_of_app; [exact Hs|]. unfold free_of. simpl. rewrite Hc.
    reflexivity. }
  replace (s ++ String c LF ++ rest)%string
    with ((s ++ String c EmptyString) ++ LF ++ rest)%string
    by (rewrite !append_assoc; reflexivity).
  rewrite (str_find_LF _ rest Hsc).
  assert (Hlen : String.length (s ++ String c EmptyString)
                 = S (String.length s)).
  { clear. induction s as [|d s IH]; simpl; [reflexivity | rewrite IH; reflexivity]. }
  rewrite Hlen, append_assoc. apply substring_app.
Qed.

(** The theorem at a text as [ctime] gives it. *)
Lemma date_text_drops_last_character_witness :
  date_text ("Wed Apr  8 12:00:00 2020" ++ LF) = "Wed Apr  8 12:00:00 202"%string.
Proof.
  apply (date_text_drops_last_character "Wed Apr  8 12:00:00 202"
           EmptyString "0"); reflexivity.
Defined.

(** ** The keys written *)

(** X12.  A file [generate] writes is one mapping between the opening
    and the closing events, with each of the sixteen keys the reader
    registers written once and no other key: reading the file back, no
    pair is skipped as unknown and no member is left as it was. *)
Theorem generate_writes_the_registered_keys (lmp : LAMMPS.t) (now : string)
    (cfg : TestConfig.t) (events : list yaml_event_t) :
  generate lmp now cfg = Ok (Some events) ->
  exists kvs,
    events = YamlWriter.open_events ++ mapping_events kvs
             ++ YamlWriter.close_events
    /\ NoDup (map fst kvs)
    /\ forall k, In k (map fst kvs) <-> In k known_keys.
Proof.
  intros H. destruct (generate_written _ _ _ _ H)
    as (script & b0 & b1 & _ & _ & _ & ->).
  eexists. split; [reflexivity|]. unfold written_pairs, known_keys.
  cbn [map fst]. split.
  - repeat (apply NoDup_cons;
            [cbn [In]; intros Hin;
             repeat (destruct Hin as [Hin|Hin]; [discriminate Hin|]);
             exact Hin|]).
    apply NoDup_nil.
  - intros k. cbn [In]. tauto.
Qed.

(** The theorem at the one-atom engine. *)
Lemma generate_writes_the_registered_keys_witness :
  exists events kvs,
    generate example_lammps example_now example_fixture = Ok (Some events)
    /\ events = YamlWriter.open_events ++ mapping_events kvs
                ++ YamlWriter.close_events
    /\ NoDup (map fst kvs)
    /\ forall k, In k (map fst kvs) <-> In k known_keys.
Proof.
  destruct (generate example_lammps example_now example_fixture)
    as [[events|]|] eqn:E; try (vm_compute in E; discriminate E).
  destruct (generate_writes_the_registered_keys _ _ _ _ E) as [kvs H].
  exists events, kvs. split; [reflexivity | exact H].
Defined.

(** ** A written fixture can be read back *)

Lemma digit_char_not_LF (d : Z) : 0 <= d < 10 -> is_LF (digit_char d) = false.
Proof.
  intros H.
  assert (C : d = 0 \/ d = 1 \/ d = 2 \/ d = 3 \/ d = 4 \/ d = 5 \/ d = 6
              \/ d = 7 \/ d = 8 \/ d = 9) by lia.
  repeat (destruct C as [->|C]; [reflexivity|]). subst. reflexivity.
Qed.

Lemma free_of_String (want : ascii -> bool) (c : ascii) (s : string) :
  want c = false -> free_of want s -> free_of want (String c s).
Proof. unfold free_of. simpl. intros -> ->. reflexivity. Qed.

Lemma digits_no_LF (k : nat) :
  forall v acc, free_of is_LF acc -> free_of is_LF (digits k v acc).
Proof.
  induction k as [|k IH]; intros v acc H; cbn [digits]; [exact H|].
  apply IH. apply free_of_String; [|exact H].
  apply digit_char_not_LF. apply Z.mod_pos_bound. lia.
Qed.

Lemma strip_leading_zeros_no_LF (s : string) :
  free_of is_LF s -> free_of is_LF (strip_leading_zeros s).
Proof.
  induction s as [|c s IH]; intros H; [exact H|]. cbn [strip_leading_zeros].
  destruct (Ascii.eqb c "0"%char); [|exact H].
  destruct s as [|d s]; [exact H|]. apply IH.
  apply free_of_cons in H. apply H.
Qed.

Lemma decimal_no_LF (v : Z) : free_of is_LF (decimal v).
Proof.
  unfold decimal. apply strip_leading_zeros_no_LF, digits_no_LF. reflexivity.
Qed.

Lemma replicate_no_LF (n : nat) (c : ascii) :
  is_LF c = false -> free_of is_LF (replicate n c).
Proof.
  intros H. induction n as [|n IH]; [reflexivity|].
  cbn [replicate]. apply free_of_String; assumption.
Qed.

Lemma pad_left_no_LF (width : nat) (s : string) :
  free_of is_LF s -> free_of is_LF (pad_left width " "%char s).
Proof.
  intros H. unfold pad_left. apply free_of_app; [|exact H].
  apply replicate_no_LF. reflexivity.
Qed.

Lemma sign_text_no_LF (space neg : bool) : free_of is_LF (sign_text space neg).
Proof. destruct space, neg; reflexivity. Qed.

Lemma format_d_no_LF (space : bool) (width : nat) (v : Z) :
  free_of is_LF (format_d space width v).
Proof.
  unfold format_d. apply pad_left_no_LF. apply free_of_app.
  - destruct (v <? 0); [reflexivity|]. destruct space; reflexivity.
  - apply decimal_no_LF.
Qed.

Lemma with_point_no_LF (s : string) :
  free_of is_LF s -> free_of is_LF (with_point s).
Proof.
  intros H. destruct s as [|d [|c r]]; try exact H.
  cbn [with_point]. apply free_of_cons in H. destruct H as [Hd H].
  apply free_of_String; [exact Hd|]. apply free_of_String; [reflexivity|].
  exact H.
Qed.

Lemma exponent_text_no_LF (X : Z) : free_of is_LF (exponent_text X).
Proof.
  unfold exponent_text. apply free_of_app.
  - destruct (X <? 0); reflexivity.
  - unfold pad_left. apply free_of_app; [|apply decimal_no_LF].
    apply replicate_no_LF. reflexivity.
Qed.

Lemma format_e_no_LF (space : bool) (width prec : nat) (v : double) :
  free_of is_LF (format_e space width prec v).
Proof.
  unfold format_e. apply pad_left_no_LF.
  destruct (Prim2SF v) as [s|s| |s m e].
  - apply free_of_app; [apply sign_text_no_LF|].
    apply free_of_app; [|reflexivity].
    apply with_point_no_LF. apply replicate_no_LF. reflexivity.
  - apply free_of_app; [apply sign_text_no_LF | reflexivity].
  - reflexivity.
  - destruct (finite_digits _ m e) as [D X].
    apply free_of_app; [apply sign_text_no_LF|].
    apply free_of_app; [apply with_point_no_LF, digits_no_LF; reflexivity|].
    apply (free_of_app is_LF "e"); [reflexivity | apply exponent_text_no_LF].
Qed.

(** A row of a block of forces, without its newline. *)
Definition force_row (tag : Z) (fi : coord_t) : string :=
  let e := format_e true 23 16 in
  (format_d true 3 (wrap32 tag) ++ " " ++ e (x fi) ++ " " ++ e (y fi)
     ++ " " ++ e (z fi))%string.

Lemma force_line_row (tag : Z) (fi : coord_t) :
  force_line tag fi = (force_row tag fi ++ LF)%string.
Proof.
  unfold force_line, force_row. cbv zeta. rewrite !append_assoc.
  reflexivity.
Qed.

Lemma force_row_no_LF (tag : Z) (fi : coord_t) :
  free_of is_LF (force_row tag fi).
Proof.
  unfold force_row. cbv zeta.
  apply free_of_app; [apply format_d_no_LF|].
  apply (free_of_app is_LF " "); [reflexivity|].
  apply free_of_app; [apply format_e_no_LF|].
  apply (free_of_app is_LF " "); [reflexivity|].
  apply free_of_app; [apply format_e_no_LF|].
  apply (free_of_app is_LF " "); [reflexivity|].
  apply format_e_no_LF.
Qed.

(** ["% 3d"] followed by a blank, read back by ["%d"]. *)

Lemma skip_space_replicate (k : nat) (s : string) :
  skip_space (replicate k " "%char ++ s) = skip_space s.
Proof. induction k as [|k IH]; [reflexivity | exact IH]. Qed.

Lemma take_digits_app (ds rest : string) :
  all_digits ds = true ->
  take_digits (ds ++ String " "%char rest) = (ds, String " "%char rest).
Proof.
  induction ds as [|c ds IH]; intros H; [reflexivity|].
  cbn [all_digits] in H. apply andb_true_iff in H. destruct H as [Hc H].
  cbn [append take_digits]. rewrite Hc, (IH H). reflexivity.
Qed.

Lemma scan_integer_format_d (v : Z) (rest : string) :
  scan_integer (format_d true 3 v ++ String " "%char rest)
  = Some (v, String " "%char rest).
Proof.
  unfold format_d, pad_left, scan_integer.
  rewrite append_assoc, skip_space_replicate.
  destruct (decimal_spec (Z.abs v)) as (Hd & Hne & Hv); [lia|].
  destruct (decimal (Z.abs v)) as [|c r] eqn:E; [congruence|].
  pose proof Hd as Hc. cbn [all_digits] in Hc. apply andb_true_iff in Hc.
  destruct Hc as [Hc _].
  destruct (isdigit_plain c Hc) as (Hsp & Hminus & Hplus).
  assert (Hsign : take_sign (String c (r ++ String " "%char rest))
                  = (false, String c (r ++ String " "%char rest))).
  { unfold take_sign.
    destruct c as [[] [] [] [] [] [] [] []]; try reflexivity; congruence. }
  destruct (v <? 0) eqn:Hneg.
  - apply Z.ltb_lt in Hneg.
    change (skip_space (("-" ++ String c r) ++ String " "%char rest))
      with (String "-"%char (String c (r ++ String " "%char rest))).
    change (take_sign
              (String "-"%char (String c (r ++ String " "%char rest))))
      with (true, String c (r ++ String " "%char rest)).
    cbv iota beta.
    change (String c (r ++ String " "%char rest))
      with (String c r ++ String " "%char rest)%string.
    rewrite (take_digits_app _ rest Hd), Hv. f_equal. f_equal. lia.
  - apply Z.ltb_ge in Hneg.
    change (skip_space ((" " ++ String c r) ++ String " "%char rest))
      with (skip_space (String c (r ++ String " "%char rest))).
    cbn [skip_space]. rewrite Hsp, Hsign.
    change (String c (r ++ String " "%char rest))
      with (String c r ++ String " "%char rest)%string.
    rewrite (take_digits_app _ rest Hd), Hv. f_equal. f_equal. lia.
Qed.

Lemma sscanf_row_force_row (tag : Z) (fi : coord_t) (tag0 : Z)
    (xyz0 : coord_t) :
  fst (sscanf_row (force_row tag fi) tag0 xyz0) = wrap32 tag.
Proof.
  unfold sscanf_row, force_row. cbv zeta.
  change (format_d true 3 (wrap32 tag) ++ " " ++ ?r)%string
    with (format_d true 3 (wrap32 tag) ++ String " "%char r)%string.
  rewrite scan_integer_format_d. cbn [fst].
  apply to_int_small. apply wrap32_range.
Qed.

(** The rows [forces_block] writes for an engine that holds its atoms. *)
Lemma forces_block_written (bound : Z) (s : LAMMPS.snapshot) (n : nat) :
  forall (i : Z) (block : string),
  0 <= i ->
  (forall j, i <= j < i + Z.of_nat n ->
     exists fj t,
       vector_at (LAMMPS.f s) j = Ok fj /\ vector_at (LAMMPS.tag s) j = Ok t
       /\ 0 <= t <= bound) ->
  exists rows,
    forces_block n i s block
    = Ok (block
          ++ join_lines (map (fun r => force_row (fst r) (snd r)) rows))%string
    /\ Forall (fun r : Z * coord_t => 0 <= fst r <= bound) rows.
Proof.
  induction n as [|n IH]; intros i block Hi H.
  - exists []. cbn [forces_block map join_lines]. rewrite append_nil_r.
    split; [reflexivity | constructor].
  - cbn [forces_block].
    destruct (H i) as (fi & t & -> & -> & Ht); [lia|]. cbn [bind].
    destruct (IH (i + 1) (block ++ force_line t fi)%string) as (rows & -> & Hr).
    + lia.
    + intros j Hj. apply H. lia.
    + exists ((t, fi) :: rows). split; [|constructor; assumption].
      cbn [map join_lines fst snd].
      rewrite force_line_row, !append_assoc. reflexivity.
Qed.

Lemma stored_rows_written (tag0 : nat -> Z) (junk : indeterminate)
    (lines : list string) (size : nat) :
  Forall (fun line =>
            forall t0 c0, 0 <= fst (sscanf_row line t0 c0) < Z.of_nat size)
    lines ->
  forall (row : nat) (v : list coord_t),
  List.length v = size ->
  exists v', stored_rows tag0 junk lines row v = Ok v'
             /\ List.length v' = size.
Proof.
  induction 1 as [|line lines Hl _ IH]; intros row v Hv.
  - exists v. split; [reflexivity | exact Hv].
  - cbn [stored_rows].
    specialize (Hl (tag0 row) (junk_xyz junk row)).
    destruct (sscanf_row line (tag0 row) (junk_xyz junk row)) as [t c].
    cbn [fst] in Hl. rewrite vector_store_Ok by (rewrite Hv; exact Hl).
    cbn [bind]. apply IH. rewrite list_set_length. exact Hv.
Qed.

(** The array a decoder builds from a written block. *)
Lemma decoded_forces_written (tag0 : nat -> Z) (junk : indeterminate)
    (n : Z) (rows : list (Z * coord_t)) :
  0 <= n < INT_MAX ->
  Forall (fun r : Z * coord_t => 0 <= fst r <= n) rows ->
  exists v,
    decoded_forces tag0 junk n
      (join_lines (map (fun r => force_row (fst r) (snd r)) rows)) = Ok v
    /\ Z.of_nat (List.length v) = n + 1.
Proof.
  intros Hn Hrows. unfold decoded_forces.
  rewrite vector_resize_Ok by lia. cbn [bind].
  rewrite getlines_join.
  - destruct (stored_rows_written tag0 junk
                (map (fun r => force_row (fst r) (snd r)) rows)
                (Z.to_nat (n + 1))) with (row := O)
                (v := repeat coord_zero (Z.to_nat (n + 1)))
      as (v & Hv & Hlen).
    + apply Forall_map. revert Hrows. apply Forall_impl. intros [t fi] Ht.
      cbn [fst snd] in *. intros t0 c0. rewrite sscanf_row_force_row.
      assert (Hw : wrap32 t = t).
      { apply wrap32_small. unfold INT_MAX in Hn. lia. }
      rewrite Hw. lia.
    + apply repeat_length.
    + exists v. split; [exact Hv|]. rewrite Hlen. lia.
  - apply Forall_map. apply Forall_forall. intros r _.
    apply force_row_no_LF.
Qed.

(** The decoders on the pairs [generate] writes come to their end when
    the two force blocks decode. *)
Lemma decode_written_Ok (junk : indeterminate) (lmp : LAMMPS.t)
    (now : string) (cfg : TestConfig.t) (natoms : Z)
    (s0 s1 : LAMMPS.snapshot) (init_block run_block : string)
    (v0 v1 : list coord_t) (m : memory) :
  decoded_forces (fun _ => 0) junk (atoi (format_d false 0 natoms))
    init_block = Ok v0 ->
  decoded_forces (junk_tag junk) junk (atoi (format_d false 0 natoms))
    run_block = Ok v1 ->
  exists m',
    decode_pairs (TestConfigReader.consumers ref_test_config junk)
      (written_pairs lmp now cfg natoms s0 s1 init_block run_block) m = Ok m'.
Proof.
  intros H0 H1.
  lazy beta iota zeta delta
    [decode_pairs written_pairs YamlReader.consume_key_value
     YamlReader.lookup TestConfigReader.consumers String.eqb Ascii.eqb
     Bool.eqb fst snd bind
     TestConfigReader.lammps_version TestConfigReader.date_generated
     TestConfigReader.epsilon TestConfigReader.prerequisites
     TestConfigReader.pre_commands TestConfigReader.post_commands
     TestConfigReader.input_file TestConfigReader.bond_style
     TestConfigReader.bond_coeff TestConfigReader.natoms
     TestConfigReader.init_energy TestConfigReader.run_energy
     TestConfigReader.init_stress TestConfigReader.run_stress
     TestConfigReader.text scalar_value].
  rewrite push_back_bond_coeff, push_back_post_commands,
    push_back_pre_commands, push_back_prerequisites.
  rewrite init_forces_decoded.
  match goal with
  | |- context [decoded_forces (fun _ => 0) junk
                  (TestConfig.natoms (load ref_test_config ?M)) _] =>
      change (TestConfig.natoms (load ref_test_config M))
        with (atoi (format_d false 0 natoms))
  end.
  rewrite H0. lazy beta iota delta [bind].
  rewrite run_forces_decoded.
  match goal with
  | |- context [decoded_forces (junk_tag junk) junk
                  (TestConfig.natoms (load ref_test_config ?M)) _] =>
      change (TestConfig.natoms (load ref_test_config M))
        with (atoi (format_d false 0 natoms))
  end.
  rewrite H1. lazy beta iota delta [bind].
  eexists. reflexivity.
Qed.

(** X13.  With an engine that holds its atoms (as many as it counts,
    fewer than [INT_MAX], with IDs from 0 to their number, before and
    after the run), the file [generate] writes is read back to the end:
    [parse_file] answers 0, no decoder stores outside an array, the
    [natoms] read is the engine's, and both arrays of reference forces
    have one entry more than there are atoms, as the tests assert. *)
Theorem written_fixture_reads_back (lmp : LAMMPS.t) (now : string)
    (cfg : TestConfig.t) (junk : indeterminate) (m : memory)
    (script : list command) :
  init_lammps lmp cfg = Some script ->
  let s0 := LAMMPS.after lmp script in
  let s1 := LAMMPS.after lmp (script ++ run_lammps) in
  let n := LAMMPS.natoms s0 in
  0 <= n < INT_MAX -> holds_atoms n s0 -> holds_atoms n s1 ->
  exists m',
    write_then_read lmp now cfg junk m = Ok (Some (0, m'))
    /\ TestConfig.natoms (test_config m') = n
    /\ Z.of_nat (List.length (TestConfig.init_forces (test_config m')))
       = n + 1
    /\ Z.of_nat (List.length (TestConfig.run_forces (test_config m')))
       = n + 1.
Proof.
  intros Hinit s0 s1 n Hn Hs0 Hs1.
  assert (Hw : wrap32 n = n).
  { apply wrap32_small. unfold INT_MAX in Hn. lia. }
  destruct (forces_block_written n s0 (Z.to_nat n) 0 EmptyString)
    as (rows0 & E0 & R0); [lia | intros j Hj; apply Hs0; lia |].
  destruct (forces_block_written n s1 (Z.to_nat n) 0 EmptyString)
    as (rows1 & E1 & R1); [lia | intros j Hj; apply Hs1; lia |].
  cbn [append] in E0, E1.
  destruct (generate lmp now cfg) as [[events|]|] eqn:G.
  - destruct (generate_written _ _ _ _ G)
      as (script' & b0 & b1 & Hinit' & B0 & B1 & ->).
    rewrite Hinit in Hinit'. injection Hinit' as <-.
    fold s0 s1 n in B0, B1. rewrite Hw in B0, B1.
    rewrite E0 in B0. rewrite E1 in B1.
    apply Ok_inj in B0. apply Ok_inj in B1. subst b0 b1.
    fold s0 s1 n in G. rewrite Hw in G.
    assert (Hat : atoi (format_d false 0 n) = n).
    { apply atoi_format_d. unfold INT_MIN, INT_MAX in *. lia. }
    destruct (decoded_forces_written (fun _ => 0) junk n rows0 Hn R0)
      as (v0 & D0 & L0).
    destruct (decoded_forces_written (junk_tag junk) junk n rows1 Hn R1)
      as (v1 & D1 & L1).
    rewrite <- Hat in D0, D1 at 1.
    destruct (decode_written_Ok junk lmp now cfg n s0 s1 _ _ v0 v1 m D0 D1)
      as [m' Hm'].
    exists m'. unfold write_then_read. rewrite G. cbn [bind].
    unfold TestConfigReader.parse_file. rewrite parse_file_mapping.
    rewrite Hm'. cbn [bind].
    split; [reflexivity|].
    destruct (decode_written _ _ _ _ _ _ _ _ _ _ _ Hm')
      as (_ & _ & _ & _ & _ & _ & _ & _ & _ & Hnat & _ & _ & _ & _
          & F0 & F1).
    rewrite D0 in F0. rewrite D1 in F1.
    apply Ok_inj in F0. apply Ok_inj in F1. rewrite <- F0, <- F1.
    rewrite Hat in Hnat. auto.
  - exfalso. unfold generate in G. rewrite Hinit in G. fold s0 s1 n in G.
    rewrite Hw, E0 in G. cbn [bind] in G. rewrite E1 in G.
    discriminate G.
  - exfalso. unfold generate in G. rewrite Hinit in G. fold s0 s1 n in G.
    rewrite Hw, E0 in G. cbn [bind] in G. rewrite E1 in G.
    discriminate G.
Qed.

(** The theorem at the one-atom engine and its fixture. *)
Lemma written_fixture_reads_back_witness :
  exists m',
    write_then_read example_lammps example_now example_fixture example_junk
      default_memory = Ok (Some (0, m'))
    /\ TestConfig.natoms (test_config m') = 1
    /\ Z.of_nat (List.length (TestConfig.init_forces (test_config m'))) = 2
    /\ Z.of_nat (List.length (TestConfig.run_forces (test_config m'))) = 2.
Proof.
  refine (written_fixture_reads_back example_lammps example_now
            example_fixture example_junk default_memory _ eq_refl _ _ _).
  - unfold INT_MAX. cbn. lia.
  - intros i Hi. assert (i = 0) as -> by (cbn in Hi; lia).
    exists (mk_coord 1%float 0%float 0%float), 1. repeat split; cbn; lia.
  - intros i Hi. assert (i = 0) as -> by (cbn in Hi; lia).
    exists (mk_coord 1%float 0%float 0%float), 1. repeat split; cbn; lia.
Defined.

(** * More of the tests *)

(** ** The tolerances of the omp and intel variants *)

(** The tolerance of a comparison of group [g] in a test whose local
    [epsilon] is [epsilon] and that passes [stress_eps] for the stress. *)
Definition tolerance (epsilon stress_eps : double) (g : group) : double :=
  match g with
  | run_forces_stats => PrimFloat.mul ten epsilon
  | init_stress_stats | run_stress_stats => stress_eps
  | _ => epsilon
  end.

Lemma compare_all_tolerance (lmp : LAMMPS.t) (script : list command)
    (cfg : TestConfig.t) (epsilon stress_eps : double)
    (assert_ref_size : bool) (log : list expectation) :
  compare_all lmp script cfg epsilon stress_eps assert_ref_size
    = Ok (Finished log)
  \/ compare_all lmp script cfg epsilon stress_eps assert_ref_size
     = Ok (Aborted log) ->
  Forall (tolerance_is (tolerance epsilon stress_eps)) log.
Proof.
  intros H. set (tol := tolerance epsilon stress_eps).
  unfold compare_all in H.
  destruct (negb (LAMMPS.natoms _ =? _));
    [ended H; constructor|].
  destruct (assert_ref_size && _);
    [ended H; constructor|].
  destruct (compare_forces init_forces_stats _ _ _ _ _ _ _) as [c1|] eqn:E1;
    simpl in H; [|destruct H; discriminate].
  assert (H1 : Forall (tolerance_is tol) (snd c1)).
  { apply (compare_forces_tolerance tol _ _ _ _ _ _ _ _ E1). constructor. }
  match type of H with
  | context [EXPECT_FP_LE_WITH_EPS init_energy_stats ?a ?b ?e ?c] =>
      assert (H2 : Forall (tolerance_is tol)
                     (snd (EXPECT_FP_LE_WITH_EPS init_energy_stats a b e c)))
  end.
  { apply (EXPECT_tolerance tol init_energy_stats).
    apply (compare_stress_tolerance tol init_stress_stats). exact H1. }
  destruct (negb (_ =? _));
    [ended H; exact H2|].
  destruct (compare_forces run_forces_stats _ _ _ _ _ _ _) as [c2|] eqn:E2;
    simpl in H; [|destruct H; discriminate].
  assert (H3 : Forall (tolerance_is tol) (snd c2)).
  { apply (compare_forces_tolerance tol _ _ _ _ _ _ _ _ E2). exact H2. }
  ended H.
  repeat (apply Forall_app; split); try exact H3; repeat constructor.
Qed.

(** X14.  In the omp variant every expectation made has a tolerance built
    on [5 * epsilon] of the fixture: that value for the forces before the
    run and for the energies, ten times that value for both stress
    comparisons and for the forces after the run. *)
Theorem omp_tolerances (lmp : LAMMPS.t) (cfg : TestConfig.t)
    (log : list expectation) :
  omp true lmp cfg = Ok (Finished log) \/ omp true lmp cfg = Ok (Aborted log) ->
  forall e, In e log ->
    eps e = match of_group e with
            | init_forces_stats | init_energy_stats | run_energy_stats =>
                PrimFloat.mul 5.0%float (TestConfig.epsilon cfg)
            | _ =>
                PrimFloat.mul ten
                  (PrimFloat.mul 5.0%float (TestConfig.epsilon cfg))
            end.
Proof.
  intros H. unfold omp in H. cbn [negb] in H.
  destruct (init_lammps lmp cfg) as [script|]; [|destruct H; discriminate].
  apply compare_all_tolerance in H. rewrite Forall_forall in H.
  intros e He. rewrite (H e He). destruct (of_group e); reflexivity.
Qed.

(** The theorem at the one-atom engine and its fixture. *)
Lemma omp_tolerances_witness :
  exists log,
    omp true example_lammps example_fixture = Ok (Finished log)
    /\ Forall
         (fun e =>
            eps e = match of_group e with
                    | init_forces_stats | init_energy_stats
                    | run_energy_stats =>
                        PrimFloat.mul 5.0%float
                          (TestConfig.epsilon example_fixture)
                    | _ =>
                        PrimFloat.mul ten
                          (PrimFloat.mul 5.0%float
                             (TestConfig.epsilon example_fixture))
                    end) log.
Proof.
  eexists. split; [vm_compute; reflexivity|].
  apply Forall_forall.
  apply (omp_tolerances example_lammps example_fixture).
  left. vm_compute. reflexivity.
Defined.

(** X15.  In the intel variant every expectation made has a tolerance
    built on the relaxed value [intel_epsilon]: that value for the forces
    before the run and for the energies, ten times that value for both
    stress comparisons and for the forces after the run. *)
Theorem intel_tolerances (lmp : LAMMPS.t) (cfg : TestConfig.t)
    (log : list expectation) :
  intel true lmp cfg = Ok (Finished log)
  \/ intel true lmp cfg = Ok (Aborted log) ->
  forall e, In e log ->
    eps e = match of_group e with
            | init_forces_stats | init_energy_stats | run_energy_stats =>
                intel_epsilon cfg
            | _ => PrimFloat.mul ten (intel_epsilon cfg)
            end.
Proof.
  intros H. unfold intel in H. cbn [negb] in H.
  destruct (init_lammps lmp cfg) as [script|]; [|destruct H; discriminate].
  apply compare_all_tolerance in H. rewrite Forall_forall in H.
  intros e He. rewrite (H e He). destruct (of_group e); reflexivity.
Qed.

(** The theorem at the one-atom engine and its fixture. *)
Lemma intel_tolerances_witness :
  exists log,
    intel true example_lammps example_fixture = Ok (Finished log)
    /\ Forall
         (fun e =>
            eps e = match of_group e with
                    | init_forces_stats | init_energy_stats
                    | run_energy_stats => intel_epsilon example_fixture
                    | _ => PrimFloat.mul ten (intel_epsilon example_fixture)
                    end) log.
Proof.
  eexists. split; [vm_compute; reflexivity|].
  apply Forall_forall.
  apply (intel_tolerances example_lammps example_fixture).
  left. vm_compute. reflexivity.
Defined.

(** ** How the plain variant ends *)

Lemma vector_at_Ok {A} (v : list A) (i : Z) :
  0 <= i < Z.of_nat (List.length v) -> exists a, vector_at v i = Ok a.
Proof.
  intros H. unfold vector_at.
  replace (0 <=? i) with true by (symmetry; apply Z.leb_le; lia).
  destruct (nth_error v (Z.to_nat i)) as [a|] eqn:E; [eauto|].
  apply nth_error_None in E. lia.
Qed.

Lemma EXPECT_length (g : group) (val1 val2 eps : double) (c : checks) :
  List.length (snd (EXPECT_FP_LE_WITH_EPS g val1 val2 eps c))
  = S (List.length (snd c)).
Proof.
  unfold EXPECT_FP_LE_WITH_EPS. cbn [snd]. rewrite length_app. simpl. lia.
Qed.

Lemma compare_stress_length (g : group) (stress expected : stress_t)
    (eps : double) (c : checks) :
  List.length (snd (compare_stress g stress expected eps c))
  = (6 + List.length (snd c))%nat.
Proof. unfold compare_stress. rewrite !EXPECT_length. reflexivity. Qed.

Lemma compare_forces_length (g : group) (n : nat) (f : list coord_t)
    (tag : list Z) (f_ref : list coord_t) (eps : double) :
  forall (i : Z) (c c' : checks),
  compare_forces g n i f tag f_ref eps c = Ok c' ->
  List.length (snd c') = (3 * n + List.length (snd c))%nat.
Proof.
  induction n as [|n IH]; intros i c c' H.
  - injection H as <-. reflexivity.
  - cbn [compare_forces] in H.
    destruct (vector_at f i) as [fi|]; cbn [bind] in H; [|discriminate H].
    destruct (vector_at tag i) as [t|]; cbn [bind] in H; [|discriminate H].
    destruct (vector_at f_ref t) as [ref|]; cbn [bind] in H;
      [|discriminate H].
    rewrite (IH _ _ _ H), !EXPECT_length. lia.
Qed.

Lemma compare_forces_Ok (g : group) (n : nat) (f : list coord_t)
    (tag : list Z) (f_ref : list coord_t) (eps : double) :
  forall (i : Z) (c : checks),
  (forall j, i <= j < i + Z.of_nat n ->
     exists fj t,
       vector_at f j = Ok fj /\ vector_at tag j = Ok t
       /\ 0 <= t < Z.of_nat (List.length f_ref)) ->
  exists c', compare_forces g n i f tag f_ref eps c = Ok c'.
Proof.
  induction n as [|n IH]; intros i c H.
  - eexists. reflexivity.
  - cbn [compare_forces].
    destruct (H i) as (fi & t & -> & -> & Ht); [lia|]. cbn [bind].
    destruct (vector_at_Ok f_ref t Ht) as [ref ->]. cbn [bind].
    apply IH. intros j Hj. apply H. lia.
Qed.

(** X16.  With an engine that holds its atoms, the plain variant never
    reads outside an array, whatever the fixture holds.  It stops at an
    assertion when the engine's atom count differs from its local count
    or when one of the two reference arrays does not have one entry more
    than there are local atoms; otherwise it runs to its end and has
    made fifteen comparisons and six per atom, none left out after a
    failed one. *)
Theorem plain_ends (lmp : LAMMPS.t) (cfg : TestConfig.t)
    (script : list command) :
  init_lammps lmp cfg = Some script ->
  let s0 := LAMMPS.after lmp script in
  let s1 := LAMMPS.after lmp (script ++ run_lammps) in
  let n := LAMMPS.nlocal s0 in
  holds_atoms n s0 -> holds_atoms n s1 ->
  if (LAMMPS.natoms s0 =? n)
     && (n + 1 =? Z.of_nat (List.length (TestConfig.init_forces cfg)))
     && (n + 1 =? Z.of_nat (List.length (TestConfig.run_forces cfg)))
  then exists log,
         plain lmp cfg = Ok (Finished log)
         /\ List.length log = (15 + 6 * Z.to_nat n)%nat
  else exists log, plain lmp cfg = Ok (Aborted log).
Proof.
  intros Hinit s0 s1 n H0 H1. unfold plain. rewrite Hinit.
  unfold compare_all. fold s0 s1 n.
  destruct (LAMMPS.natoms s0 =? n); cbn [negb andb]; [|eauto].
  destruct (n + 1 =? Z.of_nat (List.length (TestConfig.init_forces cfg)))
    eqn:Ei; cbn [negb andb]; [|eauto].
  apply Z.eqb_eq in Ei.
  destruct (compare_forces_Ok init_forces_stats (Z.to_nat n) (LAMMPS.f s0)
              (LAMMPS.tag s0) (TestConfig.init_forces cfg)
              (TestConfig.epsilon cfg) 0 (ErrorStats.reset, []))
    as [c1 E1].
  { intros j Hj. destruct (H0 j) as (fj & t & Hf & Ht & Hr); [lia|].
    exists fj, t. repeat split; try assumption; lia. }
  rewrite E1. cbn [bind].
  pose proof (compare_forces_length _ _ _ _ _ _ _ _ _ E1) as L1.
  destruct (n + 1 =? Z.of_nat (List.length (TestConfig.run_forces cfg)))
    eqn:Er; cbn [negb]; [|eauto].
  apply Z.eqb_eq in Er.
  match goal with
  | |- context [compare_forces run_forces_stats ?k 0 ?f ?t ?r ?e ?c] =>
      destruct (compare_forces_Ok run_forces_stats k f t r e 0 c)
        as [c2 E2];
      [|pose proof (compare_forces_length _ _ _ _ _ _ _ _ _ E2) as L2;
        rewrite E2]
  end.
  { intros j Hj. destruct (H1 j) as (fj & t & Hf & Ht & Hr); [lia|].
    exists fj, t. repeat split; try assumption; lia. }
  cbn [bind]. eexists. split; [reflexivity|].
  unfold stats_reset in *. cbn [snd] in *.
  rewrite !EXPECT_length. cbn [snd]. rewrite compare_stress_length.
  cbn [snd]. rewrite L2. cbn [snd]. rewrite EXPECT_length. cbn [snd].
  rewrite compare_stress_length. cbn [snd]. rewrite L1. simpl List.length.
  lia.
Qed.

(** The theorem at the one-atom engine and its fixture. *)
Lemma plain_ends_witness :
  exists log,
    plain example_lammps example_fixture = Ok (Finished log)
    /\ List.length log = 21%nat.
Proof.
  refine (plain_ends example_lammps example_fixture _ eq_refl _ _);
    intros i Hi; assert (i = 0) as -> by (cbn in Hi; lia);
    exists (mk_coord 1%float 0%float 0%float), 1;
    repeat split; cbn; lia.
Defined.

(** X17.  The omp and intel variants do not assert the size of
    [init_forces] before their first loop: with a fixture that has no
    [init_forces] (none read, or read with [natoms] at -1) and an engine
    with at least one atom, the plain variant stops at its assertion and
    the other two read outside the reference array. *)
Theorem accelerated_variants_read_unchecked (lmp : LAMMPS.t)
    (cfg : TestConfig.t) (script : list command) :
  init_lammps lmp cfg = Some script ->
  let s0 := LAMMPS.after lmp script in
  LAMMPS.natoms s0 = LAMMPS.nlocal s0 -> 1 <= LAMMPS.nlocal s0 ->
  holds_atoms (LAMMPS.nlocal s0) s0 ->
  TestConfig.init_forces cfg = [] ->
  plain lmp cfg = Ok (Aborted [])
  /\ omp true lmp cfg = Fault OutOfBounds
  /\ intel true lmp cfg = Fault OutOfBounds.
Proof.
  intros Hinit s0 Hn Hpos H0 Href.
  unfold plain, omp, intel. cbn [negb]. rewrite Hinit.
  unfold compare_all. fold s0. rewrite Hn, Z.eqb_refl, Href. cbn [negb].
  assert (Hsize : (LAMMPS.nlocal s0 + 1 =? Z.of_nat (@List.length coord_t []))
                  = false).
  { apply Z.eqb_neq. simpl. lia. }
  rewrite Hsize. cbn [andb negb snd].
  split; [reflexivity|].
  destruct (Z.to_nat (LAMMPS.nlocal s0)) as [|k] eqn:Ek; [lia|].
  cbn [compare_forces].
  destruct (H0 0) as (f0 & t & -> & -> & _); [lia|]. cbn [bind].
  assert (Hat : vector_at (@nil coord_t) t = Fault OutOfBounds).
  { unfold vector_at. destruct (0 <=? t); [|reflexivity].
    destruct (Z.to_nat t); reflexivity. }
  rewrite Hat. split; reflexivity.
Qed.

(** The theorem at the one-atom engine and the default fixture. *)
Lemma accelerated_variants_read_unchecked_witness :
  plain example_lammps TestConfig.default = Ok (Aborted [])
  /\ omp true example_lammps TestConfig.default = Fault OutOfBounds
  /\ intel true example_lammps TestConfig.default = Fault OutOfBounds.
Proof.
  refine (accelerated_variants_read_unchecked example_lammps
            TestConfig.default _ eq_refl eq_refl _ _ eq_refl).
  - cbn. lia.
  - intros i Hi. assert (i = 0) as -> by (cbn in Hi; lia).
    exists (mk_coord 1%float 0%float 0%float), 1. repeat split; cbn; lia.
Defined.

(** ** When a test is skipped *)

(** The style name [init_lammps] asks for: bond styles carry the suffix
    when the instance has one enabled. *)
Definition style_name (lmp : LAMMPS.t) (prerequisite : string * string)
    : string :=
  if String.eqb (fst prerequisite) "bond" && LAMMPS.suffix_enable lmp
  then (snd prerequisite ++ "/" ++ LAMMPS.suffix lmp)%string
  else snd prerequisite.

(** Some prerequisite of the fixture is a style the instance lacks. *)
Definition lacks_prerequisite (lmp : LAMMPS.t) (cfg : TestConfig.t) : Prop :=
  exists prerequisite,
    In prerequisite (TestConfig.prerequisites cfg)
    /\ LAMMPS.has_style lmp (fst prerequisite) (style_name lmp prerequisite)
       = false.

Lemma init_lammps_None (lmp : LAMMPS.t) (cfg : TestConfig.t) :
  init_lammps lmp cfg = None <-> lacks_prerequisite lmp cfg.
Proof.
  unfold init_lammps, lacks_prerequisite.
  match goal with
  | |- context [filter ?u _] => set (unavailable := u)
  end.
  destruct (filter unavailable (TestConfig.prerequisites cfg)) as [|p ps] eqn:E.
  - cbn. split; [discriminate|]. intros (p & Hin & Hp).
    assert (Hf : In p (filter unavailable (TestConfig.prerequisites cfg))).
    { apply filter_In. split; [exact Hin|]. unfold unavailable.
      fold (style_name lmp p). rewrite Hp. reflexivity. }
    rewrite E in Hf. destruct Hf.
  - cbn. split; [|reflexivity]. intros _. exists p.
    assert (Hf : In p (filter unavailable (TestConfig.prerequisites cfg)))
      by (rewrite E; left; reflexivity).
    apply filter_In in Hf. destruct Hf as [Hin Hp]. split; [exact Hin|].
    unfold unavailable in Hp. fold (style_name lmp p) in Hp.
    destruct (LAMMPS.has_style _ _ _); [discriminate | reflexivity].
Qed.

Lemma compare_all_not_Skipped (lmp : LAMMPS.t) (script : list command)
    (cfg : TestConfig.t) (epsilon stress_eps : double)
    (assert_ref_size : bool) :
  compare_all lmp script cfg epsilon stress_eps assert_ref_size <> Ok Skipped.
Proof.
  unfold compare_all.
  destruct (negb (LAMMPS.natoms _ =? _)); [discriminate|].
  destruct (assert_ref_size && _); [discriminate|].
  destruct (compare_forces init_forces_stats _ _ _ _ _ _ _) as [c1|];
    cbn [bind]; [|discriminate].
  destruct (negb (_ =? _)); [discriminate|].
  destruct (compare_forces run_forces_stats _ _ _ _ _ _ _) as [c2|];
    cbn [bind]; discriminate.
Qed.

(** X18.  A test is skipped exactly when a prerequisite style of the
    fixture is missing from the instance -- a bond style being looked up
    under its suffixed name when the instance has a suffix enabled -- or,
    for the omp and intel variants, when the package is not installed;
    and then nothing is sent to the engine. *)
Theorem tests_skipped_exactly_when (installed : bool) (lmp : LAMMPS.t)
    (cfg : TestConfig.t) :
  (plain lmp cfg = Ok Skipped <-> lacks_prerequisite lmp cfg)
  /\ (omp installed lmp cfg = Ok Skipped
      <-> installed = false \/ lacks_prerequisite lmp cfg)
  /\ (intel installed lmp cfg = Ok Skipped
      <-> installed = false \/ lacks_prerequisite lmp cfg)
  /\ (lacks_prerequisite lmp cfg <-> init_lammps lmp cfg = None).
Proof.
  pose proof (init_lammps_None lmp cfg) as HN.
  unfold plain, omp, intel.
  destruct (init_lammps lmp cfg) as [script|].
  - assert (Hno : ~ lacks_prerequisite lmp cfg).
    { intros H. apply HN in H. discriminate H. }
    repeat split; try tauto; try discriminate.
    + intros H. exfalso. exact (compare_all_not_Skipped _ _ _ _ _ _ H).
    + destruct installed; cbn [negb]; [|auto].
      intros H. exfalso. exact (compare_all_not_Skipped _ _ _ _ _ _ H).
    + intros [->|H]; [reflexivity | contradiction].
    + destruct installed; cbn [negb]; [|auto].
      intros H. exfalso. exact (compare_all_not_Skipped _ _ _ _ _ _ H).
    + intros [->|H]; [reflexivity | contradiction].
  - assert (Hyes : lacks_prerequisite lmp cfg) by (apply HN; reflexivity).
    repeat split; auto; destruct installed; reflexivity.
Qed.

(** * main *)

(** X19.  [main] returns 2 exactly when it was given one or three
    arguments and the fixture file cannot be opened; the configuration is
    then untouched.  A file that opens never makes it return 2, whatever
    it holds. *)
Theorem main_returns_2_exactly_when (argv : list string)
    (fopen : string -> option (list parser_step)) (junk : indeterminate)
    (m m' : memory) :
  main argv fopen junk m = Ok (Return 2, m')
  <-> (List.length argv = 2%nat \/ List.length argv = 4%nat)
      /\ fopen (nth 1 argv EmptyString) = None /\ m' = m.
Proof.
  unfold main. split.
  - destruct (Nat.eqb (List.length argv) 2) eqn:E2;
      [|destruct (Nat.eqb (List.length argv) 4) eqn:E4];
      cbn [negb andb]; try discriminate.
    + apply Nat.eqb_eq in E2.
      destruct (TestConfigReader.parse_file _ _ _ _) as [[rc m1]|] eqn:E;
        cbn [bind]; [|discriminate].
      destruct (rc =? 0) eqn:Hrc; cbn [negb].
      * rewrite E2. cbn. discriminate.
      * intros [= <-]. apply Z.eqb_neq in Hrc.
        destruct (parse_file_nonzero_only_unopened _ _ _ _ _ _ E Hrc)
          as (Hf & _ & Hm). auto.
    + apply Nat.eqb_eq in E4.
      destruct (TestConfigReader.parse_file _ _ _ _) as [[rc m1]|] eqn:E;
        cbn [bind]; [|discriminate].
      destruct (rc =? 0) eqn:Hrc; cbn [negb].
      * destruct (String.eqb _ "--gen"); [discriminate|].
        destruct (String.eqb _ "--stats"); discriminate.
      * intros [= <-]. apply Z.eqb_neq in Hrc.
        destruct (parse_file_nonzero_only_unopened _ _ _ _ _ _ E Hrc)
          as (Hf & _ & Hm). auto.
  - intros (Hlen & Hf & ->). rewrite Hf.
    destruct Hlen as [-> | ->]; reflexivity.
Qed.

(** * More of the statistics and of the relative error *)

Lemma add_nan_l (b : double) : PrimFloat.add nan b = nan.
Proof.
  apply Prim2SF_nan. rewrite add_spec.
  change (Prim2SF nan) with S754_nan. reflexivity.
Qed.

Lemma add_nan_r (a : double) : PrimFloat.add a nan = nan.
Proof.
  apply Prim2SF_nan. rewrite add_spec.
  change (Prim2SF nan) with S754_nan. unfold SF64add, SFadd.
  destruct (Prim2SF a); reflexivity.
Qed.

Lemma ltb_nan_r (a : double) : PrimFloat.ltb a nan = false.
Proof.
  rewrite ltb_spec. change (Prim2SF nan) with S754_nan.
  unfold SFltb, SFcompare. destruct (Prim2SF a) as [[]|[]| |[]]; reflexivity.
Qed.

Lemma ltb_nan_l (a : double) : PrimFloat.ltb nan a = false.
Proof.
  rewrite ltb_spec. change (Prim2SF nan) with S754_nan. reflexivity.
Qed.

(** After a NaN sample both sums are NaN, and stay so. *)
Lemma sums_after_nan (vs : list double) :
  In nan vs ->
  ErrorStats.sum (ErrorStats.add_all vs) = nan
  /\ ErrorStats.sumsq (ErrorStats.add_all vs) = nan.
Proof.
  induction vs as [|v vs IH] using rev_ind; intros Hin; [destruct Hin|].
  rewrite add_all_snoc. unfold ErrorStats.add. cbn [ErrorStats.sum
    ErrorStats.sumsq].
  apply in_app_or in Hin. destruct Hin as [Hin|[->|[]]].
  - destruct (IH Hin) as [-> ->]. rewrite !add_nan_l. auto.
  - change (PrimFloat.mul nan nan) with nan. rewrite !add_nan_r. auto.
Qed.

Lemma maxerr_not_nan (vs : list double) :
  ErrorStats.maxerr (ErrorStats.add_all vs) <> nan.
Proof.
  induction vs as [|v vs IH] using rev_ind.
  - cbn. apply eqb_false_neq; reflexivity.
  - rewrite add_all_snoc. unfold ErrorStats.add. cbn [ErrorStats.maxerr].
    destruct (PrimFloat.ltb _ v) eqn:E; [|exact IH].
    intros ->. rewrite ltb_nan_r in E. discriminate E.
Qed.

(** X20.  One NaN among the samples (a comparison against a NaN force,
    say) makes [avg()] and [dev()] NaN, while [max()] is never NaN: a NaN
    sample is not greater than any maximum, so [idx()] is -1 or the
    position of a sample that is not NaN. *)
Theorem ErrorStats_nan_sample (vs : list double) :
  Z.of_nat (List.length vs) <= INT_MAX ->
  In nan vs ->
  let s := ErrorStats.add_all vs in
  ErrorStats.avg s = nan /\ ErrorStats.dev s = nan
  /\ ErrorStats.max s <> nan
  /\ (ErrorStats.idx s = (-1)%float
      \/ exists p v,
           ErrorStats.idx s = int_to_double (Z.of_nat (S p))
           /\ nth_error vs p = Some v /\ v <> nan).
Proof.
  intros Hlen Hin s.
  destruct (stats_inv_add_all vs Hlen) as (Hnum & _ & Hidx).
  fold s in Hnum, Hidx.
  destruct (sums_after_nan vs Hin) as [Hsum Hsq]. fold s in Hsum, Hsq.
  assert (Hpos : (0 <? ErrorStats.num s) = true).
  { apply Z.ltb_lt. rewrite Hnum. destruct vs; [destruct Hin | simpl; lia]. }
  unfold ErrorStats.avg, ErrorStats.dev, ErrorStats.max, ErrorStats.idx.
  rewrite Hpos, Hsum, Hsq, !div_nan.
  split; [reflexivity|]. split.
  { rewrite (sub_nan nan _ (or_introl eq_refl)). reflexivity. }
  split; [apply maxerr_not_nan|].
  destruct Hidx as [(Hi & _ & _)|(q & Hi & Hq & _ & _)].
  - left. rewrite Hi. reflexivity.
  - right. exists q, (ErrorStats.maxerr s). rewrite Hi.
    split; [reflexivity|]. split; [exact Hq | apply maxerr_not_nan].
Qed.

(** The theorem at three samples, the second of them NaN. *)
Lemma ErrorStats_nan_sample_witness :
  ErrorStats.avg (ErrorStats.add_all [1%float; nan; 2%float]) = nan
  /\ ErrorStats.dev (ErrorStats.add_all [1%float; nan; 2%float]) = nan
  /\ ErrorStats.max (ErrorStats.add_all [1%float; nan; 2%float]) <> nan
  /\ (ErrorStats.idx (ErrorStats.add_all [1%float; nan; 2%float])
      = (-1)%float
      \/ exists p v,
           ErrorStats.idx (ErrorStats.add_all [1%float; nan; 2%float])
           = int_to_double (Z.of_nat (S p))
           /\ nth_error [1%float; nan; 2%float] p = Some v /\ v <> nan).
Proof.
  apply (ErrorStats_nan_sample [1%float; nan; 2%float]).
  - unfold INT_MAX. simpl. lia.
  - right. left. reflexivity.
Defined.

(** ** The relative error of a value against itself, and with its
    arguments exchanged *)

Lemma Prim2SF_eq (a b : double) : Prim2SF a = Prim2SF b -> a = b.
Proof.
  intros H. rewrite <- (SF2Prim_Prim2SF a), <- (SF2Prim_Prim2SF b), H.
  reflexivity.
Qed.

Lemma SFabs_binary_round (s : bool) (m : positive) (e : Z) :
  SFabs (binary_round prec emax s m e)
  = SFabs (binary_round prec emax false m e).
Proof.
  unfold binary_round, binary_round_aux.
  destruct (shl_align _ _ _) as [mz ez].
  destruct (shr_fexp _ _ _ _ _) as [mrs' e'].
  destruct (shr_fexp _ _ _ _ _) as [mrs'' e''].
  destruct (shr_m mrs'') as [|p|p]; try reflexivity.
  destruct (Z.leb _ _); reflexivity.
Qed.

Lemma SFabs_binary_normalize_opp (m e : Z) :
  SFabs (binary_normalize prec emax (- m) e false)
  = SFabs (binary_normalize prec emax m e false).
Proof.
  destruct m as [|p|p]; cbn [Z.opp binary_normalize]; [reflexivity| |].
  - apply SFabs_binary_round.
  - symmetry. apply SFabs_binary_round.
Qed.

Lemma SFabs_SFsub_sym (a b : spec_float) :
  SFabs (SFsub prec emax a b) = SFabs (SFsub prec emax b a).
Proof.
  destruct a as [sa|sa| |sa ma ea], b as [sb|sb| |sb mb eb];
    try reflexivity; try (destruct sa, sb; reflexivity);
    try (destruct sa; reflexivity); try (destruct sb; reflexivity).
  unfold SFsub. rewrite (Z.min_comm eb ea).
  rewrite <- SFabs_binary_normalize_opp. f_equal. f_equal. lia.
Qed.

Lemma fabs_sub_sym (a b : double) :
  fabs (PrimFloat.sub a b) = fabs (PrimFloat.sub b a).
Proof.
  apply Prim2SF_eq. unfold fabs. rewrite !abs_spec, !sub_spec.
  apply SFabs_SFsub_sym.
Qed.

(** Two absolute values that compare equal are the same double. *)
Lemma SFabs_compare_Eq (a b : spec_float) :
  SFcompare (SFabs a) (SFabs b) = Some Eq -> SFabs a = SFabs b.
Proof.
  destruct a as [sa|sa| |sa ma ea], b as [sb|sb| |sb mb eb];
    cbn [SFabs SFcompare]; try discriminate; try reflexivity.
  destruct (Z.compare_spec ea eb) as [->| |]; try discriminate.
  rewrite compare_cont_Eq. intros H. injection H as H.
  apply Pos.compare_eq in H. subst. reflexivity.
Qed.

Lemma std_min_fabs_sym (a b : double) :
  Prim2SF a <> S754_nan -> Prim2SF b <> S754_nan ->
  std_min (fabs a) (fabs b) = std_min (fabs b) (fabs a).
Proof.
  intros Ha Hb. unfold std_min, fabs.
  destruct (PrimFloat.ltb (PrimFloat.abs b) (PrimFloat.abs a)) eqn:E1;
    destruct (PrimFloat.ltb (PrimFloat.abs a) (PrimFloat.abs b)) eqn:E2;
    try reflexivity.
  - pose proof (ltb_trans _ _ _ E1 E2) as H. rewrite ltb_irrefl in H.
    discriminate H.
  - apply Prim2SF_eq. rewrite !abs_spec.
    rewrite ltb_spec, !abs_spec in E1, E2. unfold SFltb in E1, E2.
    rewrite (SFcompare_antisym (SFabs (Prim2SF a)) (SFabs (Prim2SF b)))
      in E1.
    destruct (SFcompare (SFabs (Prim2SF a)) (SFabs (Prim2SF b)))
      as [[]|] eqn:E; try discriminate.
    + apply SFabs_compare_Eq. exact E.
    + apply SFcompare_nan in E.
      destruct E as [E|E]; [destruct (Prim2SF a) | destruct (Prim2SF b)];
        try discriminate E; contradiction.
Qed.

(** X21.  The error does not depend on which of the two values is the
    observed one: exchanging the arguments of [EXPECT_FP_LE_WITH_EPS]
    gives the same error, NaN and infinite values included. *)
Theorem relative_error_sym (val1 val2 : double) :
  relative_error val1 val2 = relative_error val2 val1.
Proof.
  destruct (Prim2SF val1) eqn:H1;
    try (rewrite (proj1 (relative_error_of_nan val1 val2 (or_introl H1))),
           (proj1 (relative_error_of_nan val2 val1 (or_intror H1)));
         reflexivity);
    (destruct (Prim2SF val2) eqn:H2;
     try (rewrite (proj1 (relative_error_of_nan val1 val2 (or_intror H2))),
            (proj1 (relative_error_of_nan val2 val1 (or_introl H2)));
          reflexivity));
    unfold relative_error;
    rewrite (fabs_sub_sym val1 val2), (std_min_fabs_sym val1 val2);
    try reflexivity; congruence.
Qed.

(** X22.  A value compared with itself has the error 0 when it is finite
    (zero included, with either sign), and the error NaN when it is
    infinite or NaN: an infinite force never matches an infinite
    reference. *)
Theorem relative_error_self (val : double) :
  relative_error val val
  = match Prim2SF val with
    | S754_zero _ | S754_finite _ _ _ => 0%float
    | _ => nan
    end.
Proof.
  destruct (Prim2SF val) as [s|s| |s m e] eqn:H.
  - unfold relative_error, std_min. rewrite ltb_irrefl.
    assert (Hd : fabs (PrimFloat.sub val val) = 0%float).
    { apply Prim2SF_eq. unfold fabs. rewrite abs_spec, sub_spec, H.
      destruct s; reflexivity. }
    assert (Ha : fabs val = 0%float).
    { apply Prim2SF_eq. unfold fabs. rewrite abs_spec, H. reflexivity. }
    rewrite Hd, Ha. reflexivity.
  - assert (Hd : PrimFloat.sub val val = nan).
    { apply Prim2SF_nan. rewrite sub_spec, H. destruct s; reflexivity. }
    unfold relative_error, fabs. rewrite Hd.
    change (PrimFloat.abs nan) with nan.
    destruct (PrimFloat.eqb _ _); [reflexivity | apply div_nan].
  - apply (relative_error_of_nan val val). left. exact H.
  - unfold relative_error, std_min. rewrite ltb_irrefl.
    assert (Hd : fabs (PrimFloat.sub val val) = 0%float).
    { apply Prim2SF_eq. unfold fabs. rewrite abs_spec, sub_spec, H.
      unfold SF64sub, SFsub. rewrite Z.sub_diag. reflexivity. }
    rewrite Hd.
    assert (Hz : PrimFloat.eqb (fabs val) 0%float = false).
    { unfold fabs. rewrite eqb_spec, abs_spec, H. reflexivity. }
    rewrite Hz. apply Prim2SF_eq. unfold fabs.
    rewrite div_spec, abs_spec, H. reflexivity.
Qed.
